(** * HexCorp AI: timed orders and hive storage

    A shallow embedding of [src/ai/orders_reporting.py] and
    [src/ai/storage.py].

    The two Python modules are coroutines over three pieces of mutable
    state: the guild held by the chat client (members, their roles, the
    channels), the two database tables ([orders] and [storage]) and the two
    boolean fields of the [Storage] object.  The embedding threads one
    [World] record through a state-and-exception monad; a Python exception
    that the source does not catch ([AttributeError] on a [None] returned
    by [discord.utils.get], [IndexError] on [mentions[0]]) is a [Raised]
    result.

    Modelling boundaries, stated once:
    - timestamps are integers (microseconds); [str(datetime)] followed by
      [datetime.fromisoformat] is the identity on them;
    - a string is held as its UTF-8 bytes.  The digits of the store
      pattern and of [int] are the ASCII digits and the characters beyond
      ASCII that the Unicode database counts as decimal digits, the
      database being a parameter ([decimal]); [lower] changes ASCII letters
      only, which is all that the comparisons with [help] and [release]
      can see; [int] has no bound on the number of digits (a chat message
      is shorter than any bound an interpreter puts on it);
    - a network failure of the chat service is not modelled: a call on an
      existing channel, member and role returns. *)

From Stdlib Require Import List String Ascii ZArith Lia Bool.
Import ListNotations.
Local Open Scope string_scope.
Local Open Scope Z_scope.

(** ** Strings as Python uses them *)

(** an ASCII digit; the digits beyond ASCII come with [digit_at] *)
Definition is_digit (c : ascii) : bool :=
  let n := nat_of_ascii c in ((48 <=? n) && (n <=? 57))%nat.

Definition lower_char (c : ascii) : ascii :=
  let n := nat_of_ascii c in
  if ((65 <=? n) && (n <=? 90))%nat then ascii_of_nat (n + 32) else c.

(** [str.lower] *)
Fixpoint lower (s : string) : string :=
  match s with
  | EmptyString => EmptyString
  | String c r => String (lower_char c) (lower r)
  end.

(** [s.startswith(p)] *)
Definition startswith (s p : string) : bool := String.prefix p s.

(** ['|'.join(l)] *)
Fixpoint join (sep : string) (l : list string) : string :=
  match l with
  | [] => ""
  | [x] => x
  | x :: r => x ++ sep ++ join sep r
  end.

(** [s.split(sep)] for a one-character separator: never the empty list. *)
Fixpoint split (sep : ascii) (s : string) : list string :=
  match s with
  | EmptyString => [""]
  | String c r =>
      if Ascii.eqb c sep then "" :: split sep r
      else match split sep r with
           | [] => [String c ""]
           | h :: t => String c h :: t
           end
  end.

Definition digit_value (c : ascii) : Z := Z.of_nat (nat_of_ascii c) - 48.

(** ** Decimal digits, ASCII and beyond

    [\d] in a pattern on [str], and [int], take every character of the
    Unicode category of decimal digits.  A character beyond ASCII is two to
    four bytes here, its length told by its first byte. *)

Definition utf8_width (c : ascii) : nat :=
  let n := nat_of_ascii c in
  if (n <? 224)%nat then 2%nat else if (n <? 240)%nat then 3%nat else 4%nat.

(** the first [k] bytes, and the rest *)
Fixpoint split_at (k : nat) (s : string) : string * string :=
  match k, s with
  | S k', String c r => let (a, b) := split_at k' r in (String c a, b)
  | _, _ => ("", s)
  end.

(** the decimal digit a text starts with: the character, its value and
    what follows.  [decimal] is [unicodedata.decimal] on the characters
    beyond ASCII, given by their bytes. *)
Definition digit_at (decimal : string -> option Z) (s : string)
    : option (string * Z * string) :=
  match s with
  | EmptyString => None
  | String c r =>
      if is_digit c then Some (String c "", digit_value c, r)
      else if (nat_of_ascii c <? 128)%nat then None
      else
        let (ch, rest) := split_at (utf8_width c) s in
        match decimal ch with
        | Some v => Some (ch, v, rest)
        | None => None
        end
  end.

Fixpoint int_acc (fuel : nat) (decimal : string -> option Z) (acc : Z) (s : string) : Z :=
  match fuel with
  | O => acc
  | S fuel' =>
      match digit_at decimal s with
      | Some (_, v, r) => int_acc fuel' decimal (10 * acc + v) r
      | None => acc
      end
  end.

(** [int(s)] on a string of decimal digits (all the pattern lets through);
    a digit takes a byte at least, so the length of [s] is fuel enough. *)
Definition int (decimal : string -> option Z) (s : string) : Z :=
  int_acc (String.length s) decimal 0 s.

(** ** The store pattern
    [MESSAGE_FORMAT]: at the start of the text, a group of four digits, the
    literal [ :: ], a second group of four digits, [ :: ], a group of one or
    more digits, [ :: ], and a last group of any characters but a line feed. *)

(** [\d{n}]: exactly [n] digits, and the rest. *)
Fixpoint take_digits (decimal : string -> option Z) (n : nat) (s : string)
    : option (string * string) :=
  match n with
  | O => Some ("", s)
  | S n' =>
      match digit_at decimal s with
      | Some (ch, _, r) =>
          match take_digits decimal n' r with
          | Some (d, rest) => Some (ch ++ d, rest)
          | None => None
          end
      | None => None
      end
  end.

Fixpoint span_digits_upto (fuel : nat) (decimal : string -> option Z) (s : string)
    : string * string :=
  match fuel with
  | O => ("", s)
  | S fuel' =>
      match digit_at decimal s with
      | Some (ch, _, r) =>
          let (d, rest) := span_digits_upto fuel' decimal r in (ch ++ d, rest)
      | None => ("", s)
      end
  end.

(** [\d+], greedy: the longest run of digits.  What follows it in the pattern
    starts with a space, so no shorter run can match where this one fails.
    A digit takes a byte at least, so the length of [s] is fuel enough. *)
Definition span_digits (decimal : string -> option Z) (s : string) : string * string :=
  span_digits_upto (String.length s) decimal s.

(** a literal of the pattern *)
Fixpoint expect (lit s : string) : option string :=
  match lit with
  | EmptyString => Some s
  | String a lit' =>
      match s with
      | String c r => if Ascii.eqb a c then expect lit' r else None
      | EmptyString => None
      end
  end.

Definition newline : ascii := ascii_of_nat 10.

(** the last group: everything up to the first line feed. *)
Fixpoint until_newline (s : string) : string :=
  match s with
  | EmptyString => ""
  | String c r => if Ascii.eqb c newline then "" else String c (until_newline r)
  end.

(** [re.match(MESSAGE_FORMAT, s)] with its four groups; [re.findall] returns
    the same single tuple, the pattern being anchored. *)
Definition match_format (decimal : string -> option Z) (s : string)
    : option (string * string * string * string) :=
  match take_digits decimal 4 s with
  | None => None
  | Some (drone_id, s1) =>
  match expect " :: " s1 with
  | None => None
  | Some s2 =>
  match take_digits decimal 4 s2 with
  | None => None
  | Some (target_id, s3) =>
  match expect " :: " s3 with
  | None => None
  | Some s4 =>
  match span_digits decimal s4 with
  | ("", _) => None
  | (time, s5) =>
  match expect " :: " s5 with
  | None => None
  | Some s6 => Some (drone_id, target_id, time, until_newline s6)
  end end end end end end.

Definition REJECT_MESSAGE : string :=
  "Invalid input format. Use `[DRONE ID HERE] :: [TARGET DRONE HERE] :: [INTEGER BETWEEN 1 - 24 HERE] :: [RECORDED PURPOSE OF STORAGE HERE]` (exclude brackets).".

(** currently 1 hour *)
Definition REPORT_INTERVAL_SECONDS : Z := 60 * 60.

(** currently 1 minute *)
Definition RELEASE_INTERVAL_SECONDS : Z := 60.

(** ** Time *)

Definition seconds (n : Z) : Z := n * 1000000.
Definition minutes (n : Z) : Z := seconds (n * 60).
Definition hours (n : Z) : Z := minutes (n * 60).

(** ** The guild *)

Record Role := { role_id : Z; role_name : string }.

Record Member := {
  member_id : Z;
  display_name : string;
  mention : string;
  roles : list Role
}.

Record Message := {
  content : string;
  author : Member;
  mentions : list Member;
  channel : string
}.

(** the invocation context of a command *)
Record Context := {
  ctx_author : Member;
  ctx_channel : string
}.

(** ** The two tables *)

Module ActiveOrder.
Record t := {
  id : string;
  drone_id : string;
  protocol : string;
  finish_time : Z
}.
End ActiveOrder.

Module StoredDrone.
Record t := {
  id : string;
  drone_id : string;
  target_id : string;
  purpose : string;
  roles : string;
  release_time : Z
}.
End StoredDrone.

(** ** What the modules import and [src/] does not hold *)

Record Config := {
  (** [bot_utils.get_id]: the participant identifier in a display name *)
  get_id : string -> option string;
  (** [roles.*] *)
  STORED : string;
  DRONE : string;
  HIVE_MXTRESS : string;
  EVERYONE : string;
  NITRO_BOOSTER : string;
  PATREON_SUPPORTER : string;
  MODERATION_ROLES : list string;
  (** [channels.*] *)
  STORAGE_CHAMBERS : string;
  STORAGE_FACILITY : string;
  ORDERS_REPORTING : string;
  (** [unicodedata.decimal] on the characters beyond ASCII: the value of
      those that are decimal digits *)
  decimal : string -> option Z;
  (** [str(uuid4())], by the number of earlier draws *)
  uuid_stream : nat -> string;
  (** the text of [round(d / timedelta(hours=1), 2)] for a difference [d] *)
  hours_text : Z -> string
}.

(** ** The world *)

Record World := {
  clock : Z;
  guild_roles : list Role;
  guild_members : list Member;
  guild_channels : list string;
  orders : list ActiveOrder.t;
  storage : list StoredDrone.t;
  outbox : list (string * string);
  uuid_calls : nat;
  reporter_started : bool;
  release_started : bool
}.

Definition set_clock (t : Z) (w : World) : World :=
  {| clock := t; guild_roles := guild_roles w; guild_members := guild_members w;
     guild_channels := guild_channels w; orders := orders w; storage := storage w;
     outbox := outbox w; uuid_calls := uuid_calls w;
     reporter_started := reporter_started w; release_started := release_started w |}.

Definition set_members (ms : list Member) (w : World) : World :=
  {| clock := clock w; guild_roles := guild_roles w; guild_members := ms;
     guild_channels := guild_channels w; orders := orders w; storage := storage w;
     outbox := outbox w; uuid_calls := uuid_calls w;
     reporter_started := reporter_started w; release_started := release_started w |}.

Definition set_orders (os : list ActiveOrder.t) (w : World) : World :=
  {| clock := clock w; guild_roles := guild_roles w; guild_members := guild_members w;
     guild_channels := guild_channels w; orders := os; storage := storage w;
     outbox := outbox w; uuid_calls := uuid_calls w;
     reporter_started := reporter_started w; release_started := release_started w |}.

Definition set_storage (ss : list StoredDrone.t) (w : World) : World :=
  {| clock := clock w; guild_roles := guild_roles w; guild_members := guild_members w;
     guild_channels := guild_channels w; orders := orders w; storage := ss;
     outbox := outbox w; uuid_calls := uuid_calls w;
     reporter_started := reporter_started w; release_started := release_started w |}.

Definition set_outbox (ob : list (string * string)) (w : World) : World :=
  {| clock := clock w; guild_roles := guild_roles w; guild_members := guild_members w;
     guild_channels := guild_channels w; orders := orders w; storage := storage w;
     outbox := ob; uuid_calls := uuid_calls w;
     reporter_started := reporter_started w; release_started := release_started w |}.

Definition set_uuid_calls (n : nat) (w : World) : World :=
  {| clock := clock w; guild_roles := guild_roles w; guild_members := guild_members w;
     guild_channels := guild_channels w; orders := orders w; storage := storage w;
     outbox := outbox w; uuid_calls := n;
     reporter_started := reporter_started w; release_started := release_started w |}.

Definition set_reporter_started (b : bool) (w : World) : World :=
  {| clock := clock w; guild_roles := guild_roles w; guild_members := guild_members w;
     guild_channels := guild_channels w; orders := orders w; storage := storage w;
     outbox := outbox w; uuid_calls := uuid_calls w;
     reporter_started := b; release_started := release_started w |}.

Definition set_release_started (b : bool) (w : World) : World :=
  {| clock := clock w; guild_roles := guild_roles w; guild_members := guild_members w;
     guild_channels := guild_channels w; orders := orders w; storage := storage w;
     outbox := outbox w; uuid_calls := uuid_calls w;
     reporter_started := reporter_started w; release_started := b |}.

(** ** Coroutines: state and uncaught exceptions *)

Inductive exn := AttributeError | IndexError.

Inductive Res (A : Type) :=
| Ok (a : A) (w : World)
| Raised (e : exn) (w : World).
Arguments Ok {A} a w.
Arguments Raised {A} e w.

Definition M (A : Type) : Type := World -> Res A.

Definition ret {A} (a : A) : M A := fun w => Ok a w.

Definition bind {A B} (c : M A) (k : A -> M B) : M B :=
  fun w => match c w with
           | Ok a w' => k a w'
           | Raised e w' => Raised e w'
           end.

Definition raise {A} (e : exn) : M A := fun w => Raised e w.

Definition gets {A} (f : World -> A) : M A := fun w => Ok (f w) w.

Definition modify (f : World -> World) : M unit := fun w => Ok tt (f w).

Declare Scope coro_scope.
Delimit Scope coro_scope with coro.
Notation "x <- c ;; k" := (bind c (fun x => k))
  (at level 100, c at next level, right associativity) : coro_scope.
Notation "c ;; k" := (bind c (fun _ => k))
  (at level 100, right associativity) : coro_scope.
Local Open Scope coro_scope.

(** the world a result leaves behind, raised or not *)
Definition world_of {A} (r : Res A) : World :=
  match r with Ok _ w => w | Raised _ w => w end.

(** [for x in xs: body(x)] *)
Fixpoint for_each {A} (xs : list A) (body : A -> M unit) : M unit :=
  match xs with
  | [] => ret tt
  | x :: rest => body x ;; for_each rest body
  end.

(** ** The chat client and the clock *)

(** [datetime.now()] *)
Definition datetime_now : M Z := gets clock.

(** [await asyncio.sleep(s)] *)
Definition sleep (s : Z) : M unit :=
  modify (fun w => set_clock (clock w + seconds s) w).

(** [str(uuid4())] *)
Definition uuid4 (cfg : Config) : M string :=
  fun w => Ok (uuid_stream cfg (uuid_calls w)) (set_uuid_calls (S (uuid_calls w)) w).

Definition option_string_eqb (a b : option string) : bool :=
  match a, b with
  | Some x, Some y => String.eqb x y
  | None, None => true
  | _, _ => false
  end.

(** [discord.utils.get(roles, name=n)]: the first one of that name, or [None] *)
Definition get_role (rs : list Role) (n : string) : option Role :=
  find (fun r => String.eqb (role_name r) n) rs.

(** [discord.utils.get(channels, name=n)] *)
Definition get_channel (cs : list string) (n : string) : option string :=
  find (fun c => String.eqb c n) cs.

(** [await ch.send(text)]; on [None] the attribute lookup raises. *)
Definition send (ch : option string) (text : string) : M unit :=
  match ch with
  | None => raise AttributeError
  | Some c => modify (fun w => set_outbox (outbox w ++ [(c, text)]) w)
  end.

Definition with_roles (m : Member) (rs : list Role) : Member :=
  {| member_id := member_id m; display_name := display_name m;
     mention := mention m; roles := rs |}.

(** a role change reaches the guild's member of that id *)
Definition update_member (mid : Z) (f : list Role -> list Role) (w : World) : World :=
  set_members
    (map (fun m => if member_id m =? mid then with_roles m (f (roles m)) else m)
         (guild_members w)) w.

Definition drop_role (r : Role) (rs : list Role) : list Role :=
  filter (fun x => negb (role_id x =? role_id r)) rs.

Definition grant_role (r : Role) (rs : list Role) : list Role :=
  if existsb (fun x => role_id x =? role_id r) rs then rs else rs ++ [r].

(** [await member.remove_roles( *rs )]: one request per role, in order; a
    [None] among them has no [id]. *)
Fixpoint remove_roles (member : Member) (rs : list (option Role)) : M unit :=
  match rs with
  | [] => ret tt
  | None :: _ => raise AttributeError
  | Some r :: rest =>
      modify (update_member (member_id member) (drop_role r)) ;;
      remove_roles member rest
  end.

(** [await member.add_roles( *rs )] *)
Fixpoint add_roles (member : Member) (rs : list (option Role)) : M unit :=
  match rs with
  | [] => ret tt
  | None :: _ => raise AttributeError
  | Some r :: rest =>
      modify (update_member (member_id member) (grant_role r)) ;;
      add_roles member rest
  end.

(** [role in member.roles], with [role] possibly [None] *)
Definition role_in (r : option Role) (rs : list Role) : bool :=
  match r with
  | None => false
  | Some r => existsb (fun x => role_id x =? role_id r) rs
  end.

(** Modelled from the spec: [roles.has_role], which [src/] does not hold;
    the spec speaks of members holding a specific elevated role. *)
Definition has_role (member : Member) (name : string) : bool :=
  existsb (fun r => String.eqb (role_name r) name) (roles member).

(** ** [db.drone_order_dao] *)

(** Modelled from the spec: [fetch_all_drone_orders], which [src/] does not
    hold; the row store selects the rows of the table. *)
Definition fetch_all_drone_orders : M (list ActiveOrder.t) := gets orders.

(** Modelled from the spec: [get_order_by_drone_id], which [src/] does not
    hold; a select by a simple predicate, [None] without a row. *)
Definition get_order_by_drone_id (drone_id : string) : M (option ActiveOrder.t) :=
  gets (fun w => find (fun o => String.eqb (ActiveOrder.drone_id o) drone_id) (orders w)).

(** Modelled from the spec: [delete_drone_order], which [src/] does not hold;
    a delete by a simple predicate on the row's id. *)
Definition delete_drone_order (id : string) : M unit :=
  modify (fun w =>
    set_orders (filter (fun o => negb (String.eqb (ActiveOrder.id o) id)) (orders w)) w).

(** Modelled from the spec: [insert_drone_order], which [src/] does not hold;
    an insert of one row. *)
Definition insert_drone_order (o : ActiveOrder.t) : M unit :=
  modify (fun w => set_orders (orders w ++ [o]) w).

(** ** [orders_reporting.py] *)

Definition line_feed : string := String newline "".

Definition deactivate_text (member : Member) (order : ActiveOrder.t) : string :=
  mention member ++ " Drone " ++ ActiveOrder.drone_id order ++ " Deactivate."
  ++ line_feed ++ "Drone " ++ ActiveOrder.drone_id order ++ ", good drone.".

(** the body of [for member in bot.guilds[0].members] *)
Definition deactivate_if_member (cfg : Config) (ORDERS_REPORTING_CHANNEL : option string)
    (order : ActiveOrder.t) (member : Member) : M unit :=
  if option_string_eqb (get_id cfg (display_name member)) (Some (ActiveOrder.drone_id order))
  then
    send ORDERS_REPORTING_CHANNEL (deactivate_text member order) ;;
    delete_drone_order (ActiveOrder.id order)
  else ret tt.

(** the body of [for order in fetch_all_drone_orders()] *)
Definition check_order (cfg : Config) (ORDERS_REPORTING_CHANNEL : option string)
    (order : ActiveOrder.t) : M unit :=
  now <- datetime_now ;;
  if ActiveOrder.finish_time order <? now then
    members <- gets guild_members ;;
    for_each members (deactivate_if_member cfg ORDERS_REPORTING_CHANNEL order)
  else ret tt.

(** one scan: the [for] of the loop body *)
Definition scan_orders (cfg : Config) (ORDERS_REPORTING_CHANNEL : option string) : M unit :=
  os <- fetch_all_drone_orders ;;
  for_each os (check_order cfg ORDERS_REPORTING_CHANNEL).

(** one turn of [while True] *)
Definition order_tick (cfg : Config) (ORDERS_REPORTING_CHANNEL : option string) : M unit :=
  sleep 60 ;;
  scan_orders cfg ORDERS_REPORTING_CHANNEL.

(** [n] turns of a [while True] whose body is [tick]: [Ok] after them means
    the loop is still running, [Raised] that an exception ended it. *)
Fixpoint forever (tick : M unit) (n : nat) : M unit :=
  match n with
  | O => ret tt
  | S k => tick ;; forever tick k
  end.

(** what a call of an entry point has come to *)
Inductive Outcome := Returned | Running.

Definition check_for_completed_orders (cfg : Config) (ticks : nat) : M Outcome :=
  channels <- gets guild_channels ;;
  let ORDERS_REPORTING_CHANNEL := get_channel channels (ORDERS_REPORTING cfg) in
  forever (order_tick cfg ORDERS_REPORTING_CHANNEL) ticks ;;
  ret Running.

Definition already_undertaking_text (drone_id : string) (current_order : ActiveOrder.t) : string :=
  "HexDrone #" ++ drone_id ++ " is already undertaking the "
  ++ ActiveOrder.protocol current_order ++ " protocol.".

Definition not_authorized_text : string :=
  "Drones are not authorized to activate a specific protocol for that length of time. The maximum is 120 minutes.".

Definition activate_text (drone_id : string) : string :=
  "If safe and willing to do so, Drone " ++ drone_id ++ " Activate." ++ line_feed
  ++ "Drone " ++ drone_id ++ " will elaborate on its exact tasks before proceeding with them.".

Definition report_order (cfg : Config) (context : Context)
    (protocol_name : string) (protocol_time : Z) : M unit :=
  match get_id cfg (display_name (ctx_author context)) with
  | None => ret tt
  | Some drone_id =>
      current_order <- get_order_by_drone_id drone_id ;;
      match current_order with
      | Some current_order =>
          send (Some (ctx_channel context)) (already_undertaking_text drone_id current_order)
      | None =>
          if (protocol_time >? 120) || (protocol_time <? 1) then
            send (Some (ctx_channel context)) not_authorized_text
          else
            send (Some (ctx_channel context)) (activate_text drone_id) ;;
            now <- datetime_now ;;
            let finish_time := now + minutes protocol_time in
            uuid <- uuid4 cfg ;;
            let created_order :=
              {| ActiveOrder.id := uuid; ActiveOrder.drone_id := drone_id;
                 ActiveOrder.protocol := protocol_name;
                 ActiveOrder.finish_time := finish_time |} in
            insert_drone_order created_order
      end
  end.

(** [report_order] above is one call run from end to end.  The call is a
    coroutine: at each [await context.send] it is suspended and the other
    handlers run.  Two of its sends are followed by [return]; after the
    third the call goes on, so its run falls in two parts.  The first part,
    up to that [await]: the tests and the message, and the participant
    identifier when the call is to go on. *)
Definition report_order_until_await (cfg : Config) (context : Context)
    (protocol_name : string) (protocol_time : Z) : M (option string) :=
  match get_id cfg (display_name (ctx_author context)) with
  | None => ret None
  | Some drone_id =>
      current_order <- get_order_by_drone_id drone_id ;;
      match current_order with
      | Some current_order =>
          send (Some (ctx_channel context)) (already_undertaking_text drone_id current_order) ;;
          ret None
      | None =>
          if (protocol_time >? 120) || (protocol_time <? 1) then
            send (Some (ctx_channel context)) not_authorized_text ;;
            ret None
          else
            send (Some (ctx_channel context)) (activate_text drone_id) ;;
            ret (Some drone_id)
      end
  end.

(** the second part, when the call is resumed: the order is made and
    inserted *)
Definition report_order_after_await (cfg : Config) (drone_id : string)
    (protocol_name : string) (protocol_time : Z) : M unit :=
  now <- datetime_now ;;
  let finish_time := now + minutes protocol_time in
  uuid <- uuid4 cfg ;;
  let created_order :=
    {| ActiveOrder.id := uuid; ActiveOrder.drone_id := drone_id;
       ActiveOrder.protocol := protocol_name;
       ActiveOrder.finish_time := finish_time |} in
  insert_drone_order created_order.

(** ** [storage.py] *)

(** [get_stored_drones]: every row of the [storage] table, in its order *)
Definition get_stored_drones : M (list StoredDrone.t) := gets storage.

(** [database.change('INSERT INTO storage VALUES ...', vars(stored_drone))] *)
Definition insert_stored_drone (stored_drone : StoredDrone.t) : M unit :=
  modify (fun w => set_storage (storage w ++ [stored_drone]) w).

(** [database.change('DELETE FROM storage WHERE id=:id', ...)] *)
Definition delete_stored_drone (id : string) : M unit :=
  modify (fun w =>
    set_storage (filter (fun s => negb (String.eqb (StoredDrone.id s) id)) (storage w)) w).

Definition get_names_for_roles (roles : list Role) : list string :=
  map role_name roles.

(** the guild is the world; each name goes through [get], found or not *)
Definition get_roles_for_names (guild : World) (role_names : list string) : list (option Role) :=
  map (get_role (guild_roles guild)) role_names.

Definition protected_names (cfg : Config) : list string :=
  MODERATION_ROLES cfg ++ [EVERYONE cfg; NITRO_BOOSTER cfg; PATREON_SUPPORTER cfg].

Definition name_in (n : string) (l : list string) : bool :=
  existsb (String.eqb n) l.

Definition filter_out_non_removable_roles (cfg : Config) (unfiltered_roles : list Role) : list Role :=
  filter (fun role => negb (name_in (role_name role) (protected_names cfg))) unfiltered_roles.

Definition bar : ascii := ascii_of_nat 124.

Definition already_stored_text (target_id : string) : string :=
  target_id ++ " is already in storage.".

Definition not_between_text (time : string) : string :=
  time ++ " is not between 0 and 24.".

Definition not_found_text (target_id : string) : string :=
  "Drone with ID " ++ target_id ++ " could not be found.".

Definition greetings_text (member : Member) (drone_id time plural purpose : string) : string :=
  "Greetings " ++ mention member
  ++ ". You have been stored away in the Hive Storage Chambers by " ++ drone_id
  ++ " for " ++ time ++ " " ++ plural ++ " and for the following reason: " ++ purpose.

(** what [store] does with the member it has found.  Like [report_order],
    [store] is given here as one call run from end to end; the call is
    suspended at each of its [await]s (the role changes and the sends). *)
Definition store_member (cfg : Config) (stored_role : option Role)
    (drone_id target_id time purpose : string) (member : Member) : M bool :=
  let former_roles := filter_out_non_removable_roles cfg (roles member) in
  remove_roles member (map Some former_roles) ;;
  add_roles member [stored_role] ;;
  now <- datetime_now ;;
  let stored_until := now + hours (int (decimal cfg) time) in
  uuid <- uuid4 cfg ;;
  let stored_drone :=
    {| StoredDrone.id := uuid; StoredDrone.drone_id := drone_id;
       StoredDrone.target_id := target_id; StoredDrone.purpose := purpose;
       StoredDrone.roles := join "|" (get_names_for_roles former_roles);
       StoredDrone.release_time := stored_until |} in
  insert_stored_drone stored_drone ;;
  channels <- gets guild_channels ;;
  let storage_chambers := get_channel channels (STORAGE_CHAMBERS cfg) in
  let plural := if int (decimal cfg) time =? 1 then "hour" else "hours" in
  let drone_id := if String.eqb drone_id target_id then "yourself" else drone_id in
  send storage_chambers (greetings_text member drone_id time plural purpose) ;;
  ret false.

(** [for member in message.guild.members], left at the first member stored *)
Fixpoint store_search (cfg : Config) (message : Message) (stored_role drone_role : option Role)
    (drone_id target_id time purpose : string) (members : list Member) : M bool :=
  match members with
  | [] =>
      send (Some (channel message)) (not_found_text target_id) ;;
      ret true
  | member :: rest =>
      if option_string_eqb (get_id cfg (display_name member)) (Some target_id)
         && role_in drone_role (roles member)
      then store_member cfg stored_role drone_id target_id time purpose member
      else store_search cfg message stored_role drone_role drone_id target_id time purpose rest
  end.

Definition store (cfg : Config) (message : Message) : M bool :=
  guild_roles <- gets guild_roles ;;
  let stored_role := get_role guild_roles (STORED cfg) in
  let drone_role := get_role guild_roles (DRONE cfg) in
  if String.eqb (lower (content message)) "help" then ret false
  else
    match match_format (decimal cfg) (content message) with
    | None =>
        send (Some (channel message)) REJECT_MESSAGE ;;
        ret true
    | Some (drone_id, target_id, time, purpose) =>
        stored_drones <- get_stored_drones ;;
        if existsb (fun stored => String.eqb (StoredDrone.target_id stored) target_id)
                   stored_drones
        then
          send (Some (channel message)) (already_stored_text target_id) ;;
          ret true
        else if negb ((0 <? int (decimal cfg) time) && (int (decimal cfg) time <=? 24)) then
          send (Some (channel message)) (not_between_text time) ;;
          ret true
        else
          members <- gets guild_members ;;
          store_search cfg message stored_role drone_role drone_id target_id time purpose members
    end.

(** the reversal both releases perform on the member they have found *)
Definition restore_member (stored_role : option Role) (stored : StoredDrone.t)
    (member : Member) : M unit :=
  remove_roles member [stored_role] ;;
  guild <- gets (fun w => w) ;;
  add_roles member (get_roles_for_names guild (split bar (StoredDrone.roles stored))) ;;
  delete_stored_drone (StoredDrone.id stored).

(** [for member in self.bot.guilds[0].members], left by [break] *)
Fixpoint release_search (cfg : Config) (stored_role : option Role) (stored : StoredDrone.t)
    (members : list Member) : M unit :=
  match members with
  | [] => ret tt
  | member :: rest =>
      if option_string_eqb (get_id cfg (display_name member)) (Some (StoredDrone.target_id stored))
      then restore_member stored_role stored member
      else release_search cfg stored_role stored rest
  end.

(** the body of [for stored in stored_drones] *)
Definition release_if_due (cfg : Config) (stored_role : option Role) (now : Z)
    (stored : StoredDrone.t) : M unit :=
  if StoredDrone.release_time stored <? now then
    members <- gets guild_members ;;
    release_search cfg stored_role stored members
  else ret tt.

Definition scan_storage (cfg : Config) (stored_role : option Role) : M unit :=
  now <- datetime_now ;;
  stored_drones <- get_stored_drones ;;
  for_each stored_drones (release_if_due cfg stored_role now).

Definition release_tick (cfg : Config) (stored_role : option Role) : M unit :=
  sleep RELEASE_INTERVAL_SECONDS ;;
  scan_storage cfg stored_role.

Definition release_timed (cfg : Config) (ticks : nat) : M Outcome :=
  started <- gets release_started ;;
  if started then ret Returned
  else
    modify (set_release_started true) ;;
    guild_roles <- gets guild_roles ;;
    let stored_role := get_role guild_roles (STORED cfg) in
    forever (release_tick cfg stored_role) ticks ;;
    ret Running.

Definition report_text (cfg : Config) (stored : StoredDrone.t) (now : Z) : string :=
  "`Drone #" ++ StoredDrone.target_id stored ++ "`, stored away by `Drone #"
  ++ StoredDrone.drone_id stored ++ "`. Remaining time in storage: "
  ++ hours_text cfg (StoredDrone.release_time stored - now) ++ " hours".

Definition scan_report (cfg : Config) (storage_channel : option string) : M unit :=
  stored_drones <- get_stored_drones ;;
  if (List.length stored_drones =? 0)%nat then send storage_channel "No drones in storage."
  else
    for_each stored_drones (fun stored =>
      now <- datetime_now ;;
      send storage_channel (report_text cfg stored now)).

Definition report_tick (cfg : Config) (storage_channel : option string) : M unit :=
  sleep REPORT_INTERVAL_SECONDS ;;
  scan_report cfg storage_channel.

Definition report_storage (cfg : Config) (ticks : nat) : M Outcome :=
  started <- gets reporter_started ;;
  if started then ret Returned
  else
    modify (set_reporter_started true) ;;
    channels <- gets guild_channels ;;
    let storage_channel := get_channel channels (STORAGE_CHAMBERS cfg) in
    forever (report_tick cfg storage_channel) ticks ;;
    ret Running.

(** [for drone in get_stored_drones()] of [release] *)
Fixpoint release_first (stored_role : option Role) (member : Member)
    (to_release_id : option string) (drones : list StoredDrone.t) : M bool :=
  match drones with
  | [] => ret true
  | drone :: rest =>
      if option_string_eqb (Some (StoredDrone.target_id drone)) to_release_id then
        restore_member stored_role drone member ;;
        ret true
      else release_first stored_role member to_release_id rest
  end.

Definition release (cfg : Config) (message : Message) : M bool :=
  if negb (startswith (lower (content message)) "release") then ret false
  else if negb (has_role (author message) (HIVE_MXTRESS cfg)) then ret false
  else
    guild_roles <- gets guild_roles ;;
    let stored_role := get_role guild_roles (STORED cfg) in
    match mentions message with
    | [] => raise IndexError
    | member :: _ =>
        let to_release_id := get_id cfg (display_name member) in
        drones <- get_stored_drones ;;
        release_first stored_role member to_release_id drones
    end.

(** Modelled from the spec: the dispatcher that hands a message to the
    handlers of [self.on_message = [self.release, self.store]], which
    [src/] does not hold; the handlers are tried in the order of the list
    and the first that returns [True] ends the chain. *)
Definition on_message (cfg : Config) (message : Message) : M bool :=
  handled <- release cfg message ;;
  if handled then ret true else store cfg message.

(** ** The process: entry points called from startup hooks

    The bot runs every coroutine on one thread.  A call of an entry point
    runs up to the first [await] of its loop without yielding, so the test
    of a started flag and its assignment are one step.  A process is the
    world and the loops that are running, each with the local it computed
    before its [while True]. *)

Inductive Loop := OrderExpiry | StorageRelease | StorageReport.

Inductive Task :=
| OrderLoop (ORDERS_REPORTING_CHANNEL : option string)
| ReleaseLoop (stored_role : option Role)
| ReportLoop (storage_channel : option string).

Definition loop_of (t : Task) : Loop :=
  match t with
  | OrderLoop _ => OrderExpiry
  | ReleaseLoop _ => StorageRelease
  | ReportLoop _ => StorageReport
  end.

Definition Loop_eqb (a b : Loop) : bool :=
  match a, b with
  | OrderExpiry, OrderExpiry | StorageRelease, StorageRelease
  | StorageReport, StorageReport => true
  | _, _ => false
  end.

(** the entry point of a loop, by the number of turns its loop is given *)
Definition entry (cfg : Config) (l : Loop) : nat -> M Outcome :=
  match l with
  | OrderExpiry => check_for_completed_orders cfg
  | StorageRelease => release_timed cfg
  | StorageReport => report_storage cfg
  end.

(** the loop a call leaves running, with the local it read from the world *)
Definition spawn (cfg : Config) (l : Loop) (w : World) : Task :=
  match l with
  | OrderExpiry => OrderLoop (get_channel (guild_channels w) (ORDERS_REPORTING cfg))
  | StorageRelease => ReleaseLoop (get_role (guild_roles w) (STORED cfg))
  | StorageReport => ReportLoop (get_channel (guild_channels w) (STORAGE_CHAMBERS cfg))
  end.

(** the scan a running loop performs when its sleep is over *)
Definition turn (cfg : Config) (t : Task) : M unit :=
  match t with
  | OrderLoop ch => scan_orders cfg ch
  | ReleaseLoop r => scan_storage cfg r
  | ReportLoop ch => scan_report cfg ch
  end.

(** what reaches the handlers from outside *)
Inductive Command :=
| StoreMessage (message : Message)
| ReleaseMessage (message : Message)
| ReportOrder (context : Context) (protocol_name : string) (protocol_time : Z).

Definition handle (cfg : Config) (c : Command) : M unit :=
  match c with
  | StoreMessage m => store cfg m ;; ret tt
  | ReleaseMessage m => release cfg m ;; ret tt
  | ReportOrder ctx n t => report_order cfg ctx n t
  end.

Record Process := { world : World; tasks : list Task }.

Fixpoint remove_task (n : nat) (ts : list Task) : list Task :=
  match n, ts with
  | _, [] => []
  | O, _ :: rest => rest
  | S k, t :: rest => t :: remove_task k rest
  end.

Inductive step (cfg : Config) : Process -> Process -> Prop :=
| step_call_starts l p w' :
    entry cfg l 0 (world p) = Ok Running w' ->
    step cfg p {| world := w'; tasks := tasks p ++ [spawn cfg l (world p)] |}
| step_call_returns l p w' :
    entry cfg l 0 (world p) = Ok Returned w' ->
    step cfg p {| world := w'; tasks := tasks p |}
| step_turn n t p w' :
    nth_error (tasks p) n = Some t ->
    turn cfg t (world p) = Ok tt w' ->
    step cfg p {| world := w'; tasks := tasks p |}
| step_turn_raises n t p e w' :
    nth_error (tasks p) n = Some t ->
    turn cfg t (world p) = Raised e w' ->
    step cfg p {| world := w'; tasks := remove_task n (tasks p) |}
| step_command c p :
    step cfg p {| world := world_of (handle cfg c (world p)); tasks := tasks p |}
| step_time d p :
    0 <= d ->
    step cfg p {| world := set_clock (clock (world p) + d) (world p); tasks := tasks p |}.

Inductive reachable (cfg : Config) (p0 : Process) : Process -> Prop :=
| reach_refl : reachable cfg p0 p0
| reach_step p q : reachable cfg p0 p -> step cfg p q -> reachable cfg p0 q.

(** the running copies of a loop *)
Definition copies (l : Loop) (ts : list Task) : nat :=
  List.length (filter (fun t => Loop_eqb (loop_of t) l) ts).

(** a process as [Storage.__init__] and the start of the bot leave it *)
Definition fresh (p : Process) : Prop :=
  tasks p = [] /\ reporter_started (world p) = false /\ release_started (world p) = false.

(** the entry point of [l] is guarded: however it is called, at most one copy
    of its loop runs. *)
Definition at_most_one_copy (cfg : Config) (l : Loop) : Prop :=
  forall p0 p, fresh p0 -> reachable cfg p0 p -> (copies l (tasks p) <= 1)%nat.

(** ** What isolation of a failing row would be *)

(** a scan with body [body] isolates failures when a row whose body raises
    is passed over: the scan goes on with the rows after it, from the world
    the failure left. *)
Definition isolates_failures {A} (body : A -> M unit) : Prop :=
  forall (row : A) (rest : list A) (w : World) (e : exn) (w1 : World),
    body row w = Raised e w1 ->
    for_each (row :: rest) body w = for_each rest body w1.

(** a loop that no failure ends: whatever the world, it is still running
    after any number of turns. *)
Definition never_ends (tick : M unit) : Prop :=
  forall (n : nat) (w : World), exists w', forever tick n w = Ok tt w'.

(** ** Vocabulary of the properties *)

(** some member of [ms] carries the participant identifier of [o] *)
Definition matched (cfg : Config) (ms : list Member) (o : ActiveOrder.t) : bool :=
  existsb (fun m => option_string_eqb (get_id cfg (display_name m))
                                      (Some (ActiveOrder.drone_id o))) ms.

(** the scan over [os] at time [now] deletes the rows of [o]'s id *)
Definition removed (cfg : Config) (now : Z) (ms : list Member) (os : list ActiveOrder.t)
    (o : ActiveOrder.t) : bool :=
  existsb (fun o2 => (ActiveOrder.finish_time o2 <? now) && matched cfg ms o2
                     && String.eqb (ActiveOrder.id o) (ActiveOrder.id o2)) os.

Definition flags (w : World) : bool * bool := (reporter_started w, release_started w).

Definition keeps_flags {A} (c : M A) : Prop :=
  forall w, flags (world_of (c w)) = flags w.

(** the started flag of a guarded loop; the expiry loop of the orders has
    none *)
Definition started (l : Loop) (w : World) : bool :=
  match l with
  | OrderExpiry => false
  | StorageRelease => release_started w
  | StorageReport => reporter_started w
  end.

(** what the flag of a guarded loop records: a running copy means the flag
    is up, and there is never a second copy *)
Definition guard_invariant (l : Loop) (p : Process) : Prop :=
  (copies l (tasks p) <= 1)%nat
  /\ (copies l (tasks p) = 1%nat -> started l (world p) = true).

(** [c] occurs in [s] *)
Fixpoint occurs (c : ascii) (s : string) : bool :=
  match s with
  | EmptyString => false
  | String a r => Ascii.eqb a c || occurs c r
  end.

(** the byte a digit starts with: an ASCII digit, or a byte beyond ASCII *)
Definition digit_start (c : ascii) : Prop :=
  is_digit c = true \/ (nat_of_ascii c <? 128)%nat = false.

(** [d] is [n] decimal digits, one after the other *)
Inductive decimal_run (decimal : string -> option Z) : nat -> string -> Prop :=
| run_done : decimal_run decimal 0 ""
| run_more (ch : string) (v : Z) (n : nat) (d : string) :
    digit_at decimal ch = Some (ch, v, "") ->
    decimal_run decimal n d ->
    decimal_run decimal (S n) (ch ++ d).

(** a string of ASCII digits *)
Fixpoint all_digits (s : string) : bool :=
  match s with
  | EmptyString => true
  | String c r => is_digit c && all_digits r
  end.

(** what may follow the last group of the store pattern: nothing, or a line
    feed and anything *)
Definition line_end (tail : string) : Prop :=
  tail = "" \/ exists r, tail = String newline r.

(** the text of a store command *)
Definition store_text (drone_id target_id time purpose : string) : string :=
  drone_id ++ " :: " ++ target_id ++ " :: " ++ time ++ " :: " ++ purpose.

(** [c] leaves the world in relation [R] with the one it found, whether it
    returns or raises *)
Definition respects (R : World -> World -> Prop) {A} (c : M A) : Prop :=
  forall w, R w (world_of (c w)).

(** [c] leaves the part [part] of the world as it was *)
Definition preserves {B} (part : World -> B) {A} (c : M A) : Prop :=
  respects (fun w w' => part w' = part w) c.

(** the roles of the members of id [mid] changed by [f] *)
Definition change_roles (mid : Z) (f : list Role -> list Role) (m : Member) : Member :=
  if member_id m =? mid then with_roles m (f (roles m)) else m.

(** the roles left by [remove_roles] of [gone], one after the other *)
Definition drop_all (gone : list Role) (rs : list Role) : list Role :=
  fold_left (fun acc r => drop_role r acc) gone rs.

(** the roles left by [add_roles] of [back], one after the other *)
Definition grant_all (back : list Role) (rs : list Role) : list Role :=
  fold_left (fun acc r => grant_role r acc) back rs.


(** the row [store] writes for a member *)
Definition stored_row (cfg : Config) (w : World) (drone_id target_id time purpose : string)
    (member : Member) : StoredDrone.t :=
  {| StoredDrone.id := uuid_stream cfg (uuid_calls w);
     StoredDrone.drone_id := drone_id;
     StoredDrone.target_id := target_id;
     StoredDrone.purpose := purpose;
     StoredDrone.roles :=
       join "|" (get_names_for_roles (filter_out_non_removable_roles cfg (roles member)));
     StoredDrone.release_time := clock w + hours (int (decimal cfg) time) |}.

(** the roles of a member in storage: what it held less the roles taken
    from it, and the stored role *)
Definition roles_in_storage (stored : Role) (former_roles : list Role) (rs : list Role)
    : list Role :=
  grant_role stored (drop_all former_roles rs).

(** the world [store] leaves when it has stored [member]: roles changed, one
    row more, one message to the chambers *)
Definition world_after_store (cfg : Config) (w : World) (stored : Role) (c : string)
    (drone_id target_id time purpose : string) (member : Member) : World :=
  let former_roles := filter_out_non_removable_roles cfg (roles member) in
  set_outbox
    (outbox w ++
     [(c, greetings_text member
            (if String.eqb drone_id target_id then "yourself" else drone_id)
            time (if int (decimal cfg) time =? 1 then "hour" else "hours") purpose)])
    (set_storage (storage w ++ [stored_row cfg w drone_id target_id time purpose member])
       (set_uuid_calls (S (uuid_calls w))
          (set_members
             (map (change_roles (member_id member) (roles_in_storage stored former_roles))
                  (guild_members w)) w))).

(** in [universe] a role is known by its id, as in a guild *)
Definition ids_faithful (universe : list Role) : Prop :=
  forall a b, In a universe -> In b universe -> role_id a = role_id b -> a = b.

(** what the manual release of a stored member does to roles it held when
    it was stored *)
Definition roles_after_release (stored : Role) (former_roles : list Role) (rs : list Role)
    : list Role :=
  grant_all former_roles (drop_all [stored] (roles_in_storage stored former_roles rs)).

(** the member [store] picks: of the id, and holding the drone role *)
Definition storable (cfg : Config) (drone_role : option Role) (target_id : string)
    (member : Member) : bool :=
  option_string_eqb (get_id cfg (display_name member)) (Some target_id)
  && role_in drone_role (roles member).

(** an order is due at [now] and some member carries its identifier *)
Definition due_and_matched (cfg : Config) (now : Z) (ms : list Member)
    (o : ActiveOrder.t) : bool :=
  (ActiveOrder.finish_time o <? now) && matched cfg ms o.

(** the notices one scan of the orders sends *)
Definition notices (cfg : Config) (c : string) (now : Z) (ms : list Member)
    (os : list ActiveOrder.t) : list (string * string) :=
  flat_map (fun o =>
      if ActiveOrder.finish_time o <? now then
        map (fun m => (c, deactivate_text m o))
            (filter (fun m => option_string_eqb (get_id cfg (display_name m))
                                                (Some (ActiveOrder.drone_id o))) ms)
      else []) os.

(** a stored row is due at [now] and some member carries its target *)
Definition releasable (cfg : Config) (now : Z) (ms : list Member)
    (s : StoredDrone.t) : bool :=
  (StoredDrone.release_time s <? now)
  && existsb (fun m => option_string_eqb (get_id cfg (display_name m))
                                         (Some (StoredDrone.target_id s))) ms.

(** between [w] and [w'] no time has passed and the table has only lost
    rows *)
Definition only_deletes {Row} (table : World -> list Row) (w w' : World) : Prop :=
  clock w' = clock w /\ exists keep, table w' = filter keep (table w).

(** the invariants of the two tables *)
Definition one_order_each (w : World) : Prop :=
  NoDup (map ActiveOrder.drone_id (orders w)).

Definition one_row_each (w : World) : Prop :=
  NoDup (map StoredDrone.target_id (storage w)).

Definition orders_within (w : World) : Prop :=
  forall o, In o (orders w) -> ActiveOrder.finish_time o <= clock w + minutes 120.

Definition storage_within (w : World) : Prop :=
  forall s, In s (storage w) -> StoredDrone.release_time s <= clock w + hours 24.

(** ** A concrete guild, for running the definitions *)

Module Sample.

(** the Arabic-Indic digits, U+0660 to U+0669: bytes 217 and 160 to 169 *)
Definition arabic_indic (ch : string) : option Z :=
  match ch with
  | String a (String b EmptyString) =>
      let n := nat_of_ascii b in
      if ((nat_of_ascii a =? 217) && (160 <=? n) && (n <=? 169))%nat
      then Some (Z.of_nat n - 160)
      else None
  | _ => None
  end.

(** the Arabic-Indic digit of value [k] *)
Definition arabic (k : nat) : string :=
  String (ascii_of_nat 217) (String (ascii_of_nat (160 + k)) "").

(** a [get_id] to run with: the first four digits in a row *)
Fixpoint four_digits (s : string) : option string :=
  match take_digits arabic_indic 4 s with
  | Some (d, _) => Some d
  | None =>
      match s with
      | EmptyString => None
      | String _ r => four_digits r
      end
  end.

Fixpoint tally (n : nat) : string :=
  match n with
  | O => ""
  | S k => String "i" (tally k)
  end.

Definition cfg : Config :=
  {| get_id := four_digits;
     STORED := "Stored";
     DRONE := "Drone";
     HIVE_MXTRESS := "Hive Mxtress";
     EVERYONE := "@everyone";
     NITRO_BOOSTER := "Nitro Booster";
     PATREON_SUPPORTER := "Patreon Supporter";
     MODERATION_ROLES := ["Moderator"];
     STORAGE_CHAMBERS := "storage-chambers";
     STORAGE_FACILITY := "storage-facility";
     ORDERS_REPORTING := "orders-reporting";
     decimal := arabic_indic;
     uuid_stream := fun n => "uuid-" ++ tally n;
     hours_text := fun d => tally (Z.to_nat (d / hours 1)) |}.

Definition everyone : Role := {| role_id := 1; role_name := "@everyone" |}.
Definition drone : Role := {| role_id := 2; role_name := "Drone" |}.
Definition stored : Role := {| role_id := 3; role_name := "Stored" |}.
Definition mxtress : Role := {| role_id := 4; role_name := "Hive Mxtress" |}.
Definition hexie : Role := {| role_id := 5; role_name := "Hexie" |}.
Definition moderator : Role := {| role_id := 6; role_name := "Moderator" |}.

Definition drone1234 : Member :=
  {| member_id := 100; display_name := "Drone #1234"; mention := "<@100>";
     roles := [everyone; drone; hexie; moderator] |}.

Definition drone5678 : Member :=
  {| member_id := 101; display_name := "Drone #5678"; mention := "<@101>";
     roles := [everyone; drone] |}.

Definition the_mxtress : Member :=
  {| member_id := 200; display_name := "Hive Mxtress"; mention := "<@200>";
     roles := [everyone; mxtress] |}.

Definition guild : World :=
  {| clock := 0;
     guild_roles := [everyone; drone; stored; mxtress; hexie; moderator];
     guild_members := [the_mxtress; drone1234; drone5678];
     guild_channels := ["orders-reporting"; "storage-chambers"; "storage-facility"];
     orders := []; storage := []; outbox := []; uuid_calls := 0;
     reporter_started := false; release_started := false |}.

Definition facility_message (text : string) (who : Member) (mentioned : list Member) : Message :=
  {| content := text; author := who; mentions := mentioned; channel := "storage-facility" |}.

Definition order_context (who : Member) : Context :=
  {| ctx_author := who; ctx_channel := "orders-reporting" |}.

(** an order of a participant who is no longer in the guild, long expired *)
Definition orphan_order : ActiveOrder.t :=
  {| ActiveOrder.id := "uuid-orphan"; ActiveOrder.drone_id := "9999";
     ActiveOrder.protocol := "cleaning"; ActiveOrder.finish_time := 5 |}.

Definition order_of_1234 : ActiveOrder.t :=
  {| ActiveOrder.id := "uuid-a"; ActiveOrder.drone_id := "1234";
     ActiveOrder.protocol := "recharging"; ActiveOrder.finish_time := 5 |}.

Definition order_of_5678 : ActiveOrder.t :=
  {| ActiveOrder.id := "uuid-b"; ActiveOrder.drone_id := "5678";
     ActiveOrder.protocol := "polishing"; ActiveOrder.finish_time := 7 |}.

(** the guild without its reporting channel *)
Definition guild_without_reporting : World :=
  set_orders [order_of_1234; order_of_5678]
    {| clock := 0;
       guild_roles := guild_roles guild;
       guild_members := guild_members guild;
       guild_channels := ["storage-chambers"; "storage-facility"];
       orders := []; storage := []; outbox := []; uuid_calls := 0;
       reporter_started := false; release_started := false |}.

(** the guild after the role [Hexie] has been deleted from it *)
Definition without_hexie (w : World) : World :=
  {| clock := clock w;
     guild_roles := filter (fun r => negb (role_id r =? 5)) (guild_roles w);
     guild_members :=
       map (fun m => with_roles m (filter (fun r => negb (role_id r =? 5)) (roles m)))
           (guild_members w);
     guild_channels := guild_channels w; orders := orders w; storage := storage w;
     outbox := outbox w; uuid_calls := uuid_calls w;
     reporter_started := reporter_started w; release_started := release_started w |}.

(** a store command of 1234 on itself, and its release by the Mxtress *)
Definition store_1234 : Message :=
  facility_message "1234 :: 1234 :: 2 :: resting" drone1234 [].

Definition release_1234 : Message :=
  facility_message "release <@100>" the_mxtress [drone1234].

Definition stored_1234 : StoredDrone.t :=
  {| StoredDrone.id := "uuid-c"; StoredDrone.drone_id := "5678";
     StoredDrone.target_id := "1234"; StoredDrone.purpose := "resting";
     StoredDrone.roles := "Drone|Hexie"; StoredDrone.release_time := 5 |}.

Definition stored_5678 : StoredDrone.t :=
  {| StoredDrone.id := "uuid-d"; StoredDrone.drone_id := "5678";
     StoredDrone.target_id := "5678"; StoredDrone.purpose := "recharging";
     StoredDrone.roles := "Drone"; StoredDrone.release_time := 7 |}.

(** both drones stored and due, the role [Hexie] deleted in the meantime *)
Definition vault : World :=
  {| clock := 0;
     guild_roles := [everyone; drone; stored; mxtress; moderator];
     guild_members :=
       [the_mxtress;
        with_roles drone1234 [everyone; moderator; stored];
        with_roles drone5678 [everyone; stored]];
     guild_channels := ["orders-reporting"; "storage-chambers"; "storage-facility"];
     orders := []; storage := [stored_1234; stored_5678]; outbox := []; uuid_calls := 2;
     reporter_started := false; release_started := false |}.

Definition boot : Process := {| world := guild; tasks := [] |}.

End Sample.

(** * Properties *)

(** ** Strings and options *)

Lemma option_string_eqb_eq (a b : option string) :
  option_string_eqb a b = true <-> a = b.
Proof.
  destruct a as [x|], b as [y|]; simpl; try (split; congruence).
  rewrite String.eqb_eq. split; congruence.
Qed.

Lemma option_string_eqb_neq (a b : option string) :
  option_string_eqb a b = false <-> a <> b.
Proof.
  rewrite <- option_string_eqb_eq. destruct (option_string_eqb a b); split; congruence.
Qed.

Lemma digit_is_not_h (c : ascii) :
  digit_start c -> Ascii.eqb (lower_char c) "h" = false.
Proof.
  unfold digit_start. destruct c as [[] [] [] [] [] [] [] []]; vm_compute;
    intuition congruence.
Qed.

Lemma digit_at_head (decimal : string -> option Z) (s : string)
    (found : string * Z * string) :
  digit_at decimal s = Some found -> exists c r, s = String c r /\ digit_start c.
Proof.
  unfold digit_at, digit_start. destruct s as [|c r]; [discriminate|].
  destruct (is_digit c) eqn:D; [intros _; exists c, r; auto|].
  destruct (nat_of_ascii c <? 128)%nat eqn:L; [discriminate|].
  intros _. exists c, r. auto.
Qed.

Lemma take_digits_head (decimal : string -> option Z) (n : nat) (s d rest : string) :
  take_digits decimal (S n) s = Some (d, rest) ->
  exists c r, s = String c r /\ digit_start c.
Proof.
  cbn [take_digits]. destruct (digit_at decimal s) as [found|] eqn:D; [|discriminate].
  intros _. now apply (digit_at_head decimal s found).
Qed.

(** a text the pattern matches is not a call for help *)
Lemma match_format_not_help (decimal : string -> option Z) (s : string)
    (g : string * string * string * string) :
  match_format decimal s = Some g -> String.eqb (lower s) "help" = false.
Proof.
  unfold match_format.
  destruct (take_digits decimal 4 s) as [[d rest]|] eqn:T; [|discriminate].
  intros _. apply take_digits_head in T. destruct T as (c & r & -> & D).
  cbn [lower String.eqb]. now rewrite (digit_is_not_h c D).
Qed.

(** ** Loops *)

Lemma for_each_app {A} (body : A -> M unit) (pre post : list A) (w : World) :
  for_each (pre ++ post) body w =
  match for_each pre body w with
  | Ok _ w1 => for_each post body w1
  | Raised e w1 => Raised e w1
  end.
Proof.
  revert w. induction pre as [|x pre IH]; intro w; [reflexivity|].
  cbn [app for_each]. unfold bind. destruct (body x w); [apply IH|reflexivity].
Qed.

(** the row whose body raises is the last one the scan touches *)
Lemma for_each_raises {A} (body : A -> M unit) (pre : list A) (row : A) (rest : list A)
    (w w1 w2 : World) (e : exn) :
  for_each pre body w = Ok tt w1 ->
  body row w1 = Raised e w2 ->
  for_each (pre ++ row :: rest) body w = Raised e w2.
Proof.
  intros Hpre Hrow. rewrite for_each_app, Hpre.
  cbn [for_each]. unfold bind. now rewrite Hrow.
Qed.

(** an exception in a turn ends the loop for good *)
Lemma forever_raises (tick : M unit) (n : nat) (w w1 : World) (e : exn) :
  tick w = Raised e w1 -> forever tick (S n) w = Raised e w1.
Proof. intro H. cbn [forever]. unfold bind. now rewrite H. Qed.

Lemma filter_twice {A} (f g : A -> bool) (l : list A) :
  filter f (filter g l) = filter (fun x => g x && f x) l.
Proof.
  induction l as [|a l IH]; [reflexivity|]. simpl.
  destruct (g a); simpl; [destruct (f a)|]; now rewrite IH.
Qed.

(** deleting rows keeps a key of the table free of duplicates *)
Lemma distinct_keys_after_delete {Row Key : Type} (key : Row -> Key)
    (rows : list Row) (keep : Row -> bool) :
  NoDup (map key rows) -> NoDup (map key (filter keep rows)).
Proof.
  intro Hnd. induction rows as [|r rows IH]; [constructor|].
  cbn [map] in Hnd. apply NoDup_cons_iff in Hnd. destruct Hnd as [Hfresh Hnd].
  cbn [filter]. destruct (keep r); [|now apply IH].
  cbn [map]. apply NoDup_cons; [|now apply IH].
  rewrite in_map_iff. intros (x & Hkey & Hx). apply filter_In in Hx.
  apply Hfresh. rewrite <- Hkey. apply in_map. tauto.
Qed.

Lemma NoDup_map_inj {A B} (f : A -> B) (l : list A) (a b : A) :
  NoDup (map f l) -> In a l -> In b l -> f a = f b -> a = b.
Proof.
  induction l as [|x l IH]; simpl; [tauto|].
  intros H Ha Hb Hf. inversion H as [|? ? Hn Hd]; subst.
  destruct Ha as [->|Ha], Hb as [->|Hb]; auto.
  - exfalso. apply Hn. rewrite Hf. now apply in_map.
  - exfalso. apply Hn. rewrite <- Hf. now apply in_map.
Qed.

(** ** Orders: one per participant, and the duration bound *)

Lemma find_order_of (d : string) (l : list ActiveOrder.t) (cur : ActiveOrder.t) :
  NoDup (map ActiveOrder.drone_id l) -> In cur l -> ActiveOrder.drone_id cur = d ->
  find (fun o => String.eqb (ActiveOrder.drone_id o) d) l = Some cur.
Proof.
  intros Hnd Hin Hd.
  destruct (find (fun o => String.eqb (ActiveOrder.drone_id o) d) l) as [o|] eqn:F.
  - apply find_some in F. destruct F as [Ho E]. apply String.eqb_eq in E.
    f_equal. apply (NoDup_map_inj ActiveOrder.drone_id l); congruence.
  - exfalso. apply (find_none _ _ F) in Hin. rewrite Hd, String.eqb_refl in Hin. discriminate.
Qed.

Lemma find_none_not_in (d : string) (l : list ActiveOrder.t) :
  find (fun o => String.eqb (ActiveOrder.drone_id o) d) l = None ->
  ~ In d (map ActiveOrder.drone_id l).
Proof.
  intros F Hin. apply in_map_iff in Hin. destruct Hin as (o & Ho & Hin).
  apply (find_none _ _ F) in Hin. rewrite Ho, String.eqb_refl in Hin. discriminate.
Qed.

Lemma NoDup_snoc {A} (l : list A) (a : A) :
  NoDup l -> ~ In a l -> NoDup (l ++ [a]).
Proof.
  induction l as [|x l IH]; simpl; intros H Hn.
  - constructor; [tauto|constructor].
  - inversion H; subst. constructor.
    + rewrite in_app_iff. simpl. intuition congruence.
    + apply IH; tauto.
Qed.

(** X24. A call of [report_order] that runs from end to end with no other
    handler in between keeps the participant identifiers of the [orders]
    table pairwise distinct, and when its invoker already has an active
    order it sends the "already undertaking" message naming that order's
    protocol and changes nothing else: no row is inserted and the existing
    row stays as it was. *)
Theorem report_order_one_per_participant
    (cfg : Config) (context : Context) (protocol_name : string) (protocol_time : Z)
    (w : World) :
  NoDup (map ActiveOrder.drone_id (orders w)) ->
  NoDup (map ActiveOrder.drone_id
           (orders (world_of (report_order cfg context protocol_name protocol_time w))))
  /\ forall (drone_id : string) (current_order : ActiveOrder.t),
       get_id cfg (display_name (ctx_author context)) = Some drone_id ->
       In current_order (orders w) ->
       ActiveOrder.drone_id current_order = drone_id ->
       report_order cfg context protocol_name protocol_time w
       = Ok tt (set_outbox
                  (outbox w ++ [(ctx_channel context,
                                 already_undertaking_text drone_id current_order)]) w).
Proof.
  intro Hnd. split.
  - unfold report_order.
    destruct (get_id cfg (display_name (ctx_author context))) as [d|]; [|exact Hnd].
    unfold bind, get_order_by_drone_id, gets.
    destruct (find _ (orders w)) as [cur|] eqn:F; [exact Hnd|].
    destruct ((protocol_time >? 120) || (protocol_time <? 1)); [exact Hnd|].
    cbn. rewrite map_app. apply NoDup_snoc; [exact Hnd|].
    cbn. now apply find_none_not_in.
  - intros d cur Hid Hin Hd. unfold report_order. rewrite Hid.
    unfold bind, get_order_by_drone_id, gets.
    now rewrite (find_order_of d (orders w) cur Hnd Hin Hd).
Qed.

(** C6. For an invoker with a participant identifier and no active order:
    a [protocol_time] below 1 or above 120 gets the rejection message and
    nothing is inserted; a [protocol_time] from 1 to 120 gets the
    acknowledgement, and one order is inserted for the invoker with
    [finish_time] the current time plus [protocol_time] minutes. *)
Theorem report_order_duration_bound
    (cfg : Config) (context : Context) (protocol_name : string) (protocol_time : Z)
    (w : World) (drone_id : string) :
  get_id cfg (display_name (ctx_author context)) = Some drone_id ->
  find (fun o => String.eqb (ActiveOrder.drone_id o) drone_id) (orders w) = None ->
  (protocol_time < 1 \/ 120 < protocol_time ->
   report_order cfg context protocol_name protocol_time w
   = Ok tt (set_outbox (outbox w ++ [(ctx_channel context, not_authorized_text)]) w))
  /\
  (1 <= protocol_time <= 120 ->
   report_order cfg context protocol_name protocol_time w
   = Ok tt
       (set_orders
          (orders w ++
           [{| ActiveOrder.id := uuid_stream cfg (uuid_calls w);
               ActiveOrder.drone_id := drone_id;
               ActiveOrder.protocol := protocol_name;
               ActiveOrder.finish_time := clock w + minutes protocol_time |}])
          (set_uuid_calls (S (uuid_calls w))
             (set_outbox (outbox w ++ [(ctx_channel context, activate_text drone_id)]) w)))).
Proof.
  intros Hid Hnone. unfold report_order. rewrite Hid.
  unfold bind, get_order_by_drone_id, gets. rewrite Hnone.
  split; intro H.
  - replace ((protocol_time >? 120) || (protocol_time <? 1)) with true; [reflexivity|].
    symmetry. apply orb_true_iff. rewrite Z.gtb_ltb, !Z.ltb_lt. lia.
  - replace ((protocol_time >? 120) || (protocol_time <? 1)) with false; [reflexivity|].
    symmetry. apply orb_false_iff. rewrite Z.gtb_ltb, !Z.ltb_ge. lia.
Qed.

(** ** The order expiry scan *)


Lemma deactivate_members (cfg : Config) (c : string) (order : ActiveOrder.t)
    (ms : list Member) (w : World) :
  exists w',
    for_each ms (deactivate_if_member cfg (Some c) order) w = Ok tt w'
    /\ clock w' = clock w /\ guild_members w' = guild_members w
    /\ orders w' =
       if matched cfg ms order
       then filter (fun o => negb (String.eqb (ActiveOrder.id o) (ActiveOrder.id order)))
                   (orders w)
       else orders w.
Proof.
  revert w. induction ms as [|m ms IH]; intro w.
  - exists w. now cbn.
  - cbn [for_each matched existsb]. unfold bind, deactivate_if_member at 1.
    destruct (option_string_eqb (get_id cfg (display_name m))
                                (Some (ActiveOrder.drone_id order))) eqn:E.
    + cbv [send bind modify delete_drone_order].
      match goal with |- context [for_each ms _ ?w1] =>
        destruct (IH w1) as (w' & Hrun & Hc & Hm & Ho) end.
      exists w'. rewrite Hrun, Hc, Hm, Ho. cbn [orb].
      repeat split; try reflexivity.
      fold (matched cfg ms order). cbn [orders set_orders set_outbox].
      destruct (matched cfg ms order); [|reflexivity].
      rewrite filter_twice. apply filter_ext. intro a. now rewrite andb_diag.
    + unfold ret. destruct (IH w) as (w' & Hrun & Hc & Hm & Ho).
      exists w'. now rewrite Hrun, Hc, Hm, Ho.
Qed.

Lemma scan_orders_rows (cfg : Config) (c : string) (os : list ActiveOrder.t) (w : World) :
  exists w',
    for_each os (check_order cfg (Some c)) w = Ok tt w'
    /\ clock w' = clock w /\ guild_members w' = guild_members w
    /\ orders w' =
       filter (fun o => negb (removed cfg (clock w) (guild_members w) os o)) (orders w).
Proof.
  revert w. induction os as [|o2 os IH]; intro w.
  - exists w. cbn. repeat split; try reflexivity.
    symmetry. apply forallb_filter_id. now apply forallb_forall.
  - cbn [for_each]. unfold bind, check_order at 1, datetime_now, gets. unfold bind.
    destruct (ActiveOrder.finish_time o2 <? clock w) eqn:Due.
    + destruct (deactivate_members cfg c o2 (guild_members w) w)
        as (w1 & Hrun1 & Hc1 & Hm1 & Ho1).
      rewrite Hrun1. destruct (IH w1) as (w' & Hrun & Hc & Hm & Ho).
      exists w'. rewrite Hrun, Hc, Hm, Ho, Hc1, Hm1, Ho1.
      repeat split; try reflexivity.
      unfold removed. cbn [existsb]. rewrite Due. cbn [andb].
      destruct (matched cfg (guild_members w) o2).
      * rewrite filter_twice. apply filter_ext. intro a. cbn [andb].
        now rewrite negb_orb.
      * reflexivity.
    + unfold ret. destruct (IH w) as (w' & Hrun & Hc & Hm & Ho).
      exists w'. rewrite Hrun, Hc, Hm, Ho. repeat split; try reflexivity.
      unfold removed. cbn [existsb]. now rewrite Due.
Qed.

(** the scan deletes and never inserts: it keeps one order per participant *)
Lemma scan_orders_one_per_participant (cfg : Config) (c : string) (w : World) :
  NoDup (map ActiveOrder.drone_id (orders w)) ->
  exists w',
    scan_orders cfg (Some c) w = Ok tt w'
    /\ NoDup (map ActiveOrder.drone_id (orders w')).
Proof.
  intro Hnd. destruct (scan_orders_rows cfg c (orders w) w) as (w' & Hrun & _ & _ & Ho).
  exists w'. split; [exact Hrun|].
  rewrite Ho. now apply distinct_keys_after_delete.
Qed.

(** with the reporting channel in place and the ids of the rows pairwise
    distinct, a scan returns, and a row past its finish time is still there
    afterwards exactly when no member carries its participant identifier *)
Lemma expired_row_kept_iff_no_member
    (cfg : Config) (c : string) (w : World) (order : ActiveOrder.t) :
  NoDup (map ActiveOrder.id (orders w)) ->
  In order (orders w) ->
  ActiveOrder.finish_time order < clock w ->
  exists w',
    scan_orders cfg (Some c) w = Ok tt w'
    /\ (In order (orders w') <->
        forall member, In member (guild_members w) ->
          get_id cfg (display_name member) <> Some (ActiveOrder.drone_id order)).
Proof.
  intros Hnd Hin Hdue.
  destruct (scan_orders_rows cfg c (orders w) w) as (w' & Hrun & _ & _ & Ho).
  exists w'. split.
  - unfold scan_orders, bind, fetch_all_drone_orders, gets. exact Hrun.
  - rewrite Ho, filter_In, negb_true_iff. split.
    + intros [_ Hrem] member Hmem Hid.
      assert (removed cfg (clock w) (guild_members w) (orders w) order = true) as Ht;
        [|congruence].
      unfold removed. apply existsb_exists. exists order. split; [assumption|].
      rewrite String.eqb_refl, andb_true_r. apply andb_true_iff. split.
      * now apply Z.ltb_lt.
      * unfold matched. apply existsb_exists. exists member. split; [assumption|].
        now apply option_string_eqb_eq.
    + intro Hno. split; [assumption|].
      destruct (removed cfg (clock w) (guild_members w) (orders w) order) eqn:R;
        [|reflexivity].
      exfalso. unfold removed in R. apply existsb_exists in R.
      destruct R as (o2 & Hin2 & R).
      rewrite !andb_true_iff, String.eqb_eq in R. destruct R as [[_ Hm] Hid].
      assert (order = o2) as <- by (apply (NoDup_map_inj ActiveOrder.id (orders w)); auto).
      unfold matched in Hm. apply existsb_exists in Hm. destruct Hm as (m & Hmem & Hm).
      apply option_string_eqb_eq in Hm. exact (Hno m Hmem Hm).
Qed.

(** ** The store handler *)

(** C8. A message whose content, lowered, is [help] gets no response from
    the store handler, which reports it as not handled and leaves the
    world as it was; every other message that the pattern does not match
    gets the literal [REJECT_MESSAGE] on its channel, changes nothing else
    and is reported as handled. *)
Theorem store_help_or_reject (cfg : Config) (message : Message) (w : World) :
  (lower (content message) = "help" -> store cfg message w = Ok false w)
  /\ (lower (content message) <> "help" ->
      match_format (decimal cfg) (content message) = None ->
      store cfg message w
      = Ok true (set_outbox (outbox w ++ [(channel message, REJECT_MESSAGE)]) w)).
Proof.
  split.
  - intro H. unfold store, bind, gets. now rewrite H.
  - intros Hh Hm. unfold store, bind, gets.
    destruct (String.eqb (lower (content message)) "help") eqn:E.
    + apply String.eqb_eq in E. contradiction.
    + now rewrite Hm.
Qed.

(** C7. For a message that the pattern matches and whose target has no row
    in [storage]: when the hours are not above 0 or are above 24 the
    handler sends the "not between" message on the channel, reports the
    message handled and touches neither a role nor the table; when they
    are above 0 and at most 24 it goes on to the search for the target
    among the members, which stores the member it finds. *)
Theorem store_hours_bound
    (cfg : Config) (message : Message) (w : World)
    (drone_id target_id time purpose : string) :
  match_format (decimal cfg) (content message) = Some (drone_id, target_id, time, purpose) ->
  existsb (fun stored => String.eqb (StoredDrone.target_id stored) target_id) (storage w)
  = false ->
  (~ 0 < int (decimal cfg) time <= 24 ->
   store cfg message w
   = Ok true (set_outbox (outbox w ++ [(channel message, not_between_text time)]) w))
  /\
  (0 < int (decimal cfg) time <= 24 ->
   store cfg message w
   = store_search cfg message
       (get_role (guild_roles w) (STORED cfg)) (get_role (guild_roles w) (DRONE cfg))
       drone_id target_id time purpose (guild_members w) w).
Proof.
  intros Hm Hfree. unfold store, bind, gets, get_stored_drones, gets.
  rewrite (match_format_not_help _ _ _ Hm), Hm, Hfree.
  split; intro H.
  - replace ((0 <? int (decimal cfg) time) && (int (decimal cfg) time <=? 24)) with false; [reflexivity|].
    symmetry. apply andb_false_iff. rewrite Z.ltb_ge, Z.leb_gt. lia.
  - replace ((0 <? int (decimal cfg) time) && (int (decimal cfg) time <=? 24)) with true; [reflexivity|].
    symmetry. apply andb_true_iff. rewrite Z.ltb_lt, Z.leb_le. lia.
Qed.

(** ** The manual release *)

Lemma release_first_no_match (stored_role : option Role) (member : Member)
    (to_release_id : option string) (drones : list StoredDrone.t) (w : World) :
  (forall drone, In drone drones -> Some (StoredDrone.target_id drone) <> to_release_id) ->
  release_first stored_role member to_release_id drones w = Ok true w.
Proof.
  induction drones as [|d drones IH]; intro H; [reflexivity|].
  cbn [release_first].
  replace (option_string_eqb (Some (StoredDrone.target_id d)) to_release_id) with false.
  - apply IH. intros x Hx. apply H. now right.
  - symmetry. apply option_string_eqb_neq. apply H. now left.
Qed.

(** the release handler on its own: without the elevated role, or for a
    mention that matches no stored row, it returns and leaves the world as
    it found it *)
Lemma release_handler_leaves_world (cfg : Config) (message : Message) (w : World) :
  has_role (author message) (HIVE_MXTRESS cfg) = false
  \/ (exists member others,
        mentions message = member :: others
        /\ forall drone, In drone (storage w) ->
             Some (StoredDrone.target_id drone) <> get_id cfg (display_name member)) ->
  exists handled, release cfg message w = Ok handled w.
Proof.
  intro H. unfold release.
  destruct (negb (startswith (lower (content message)) "release")); [now exists false|].
  destruct H as [H | (member & others & Hmen & Hno)].
  - rewrite H. now exists false.
  - destruct (negb (has_role (author message) (HIVE_MXTRESS cfg))); [now exists false|].
    exists true. unfold bind, gets, get_stored_drones, gets. rewrite Hmen.
    now apply release_first_no_match.
Qed.

(** C10. A message that starts with [release] once lowered, sent by a
    holder of the elevated role and mentioning nobody, makes the handler
    index an empty list: it ends with [IndexError], neither completing nor
    dropping the message. *)
Theorem release_without_mention_raises (cfg : Config) (message : Message) (w : World) :
  startswith (lower (content message)) "release" = true ->
  has_role (author message) (HIVE_MXTRESS cfg) = true ->
  mentions message = [] ->
  release cfg message w = Raised IndexError w.
Proof.
  intros Hs Hr Hm. unfold release. rewrite Hs, Hr, Hm. reflexivity.
Qed.

(** ** A failing row *)

(** C4, as the code has it.  Neither scan catches anything: when the rows
    before a row have been treated and the body raises on that row, the
    scan ends there with that exception, in the world the failure left (no
    later row is looked at), and the loop that ran the scan ends with it,
    whatever the number of turns it still had. *)
Theorem failing_row_ends_scan_and_loop (cfg : Config) :
  (forall (ch : option string) (pre : list ActiveOrder.t) (row : ActiveOrder.t)
          (rest : list ActiveOrder.t) (w0 w w1 w2 : World) (e : exn) (n : nat),
      sleep 60 w0 = Ok tt w ->
      orders w = (pre ++ row :: rest)%list ->
      for_each pre (check_order cfg ch) w = Ok tt w1 ->
      check_order cfg ch row w1 = Raised e w2 ->
      scan_orders cfg ch w = Raised e w2
      /\ forever (order_tick cfg ch) (S n) w0 = Raised e w2)
  /\
  (forall (stored_role : option Role) (pre : list StoredDrone.t) (row : StoredDrone.t)
          (rest : list StoredDrone.t) (w0 w w1 w2 : World) (e : exn) (n : nat),
      sleep RELEASE_INTERVAL_SECONDS w0 = Ok tt w ->
      storage w = (pre ++ row :: rest)%list ->
      for_each pre (release_if_due cfg stored_role (clock w)) w = Ok tt w1 ->
      release_if_due cfg stored_role (clock w) row w1 = Raised e w2 ->
      scan_storage cfg stored_role w = Raised e w2
      /\ forever (release_tick cfg stored_role) (S n) w0 = Raised e w2).
Proof.
  split.
  - intros ch pre row rest w0 w w1 w2 e n Hs Hrows Hpre Hrow.
    assert (scan_orders cfg ch w = Raised e w2) as Hscan.
    { unfold scan_orders, bind, fetch_all_drone_orders, gets. rewrite Hrows.
      now apply for_each_raises with (w1 := w1). }
    split; [exact Hscan|].
    apply forever_raises. unfold order_tick, bind. now rewrite Hs.
  - intros r pre row rest w0 w w1 w2 e n Hs Hrows Hpre Hrow.
    assert (scan_storage cfg r w = Raised e w2) as Hscan.
    { unfold scan_storage, bind, datetime_now, get_stored_drones, gets. rewrite Hrows.
      now apply for_each_raises with (w1 := w1). }
    split; [exact Hscan|].
    apply forever_raises. unfold release_tick, bind. now rewrite Hs.
Qed.

(** ** The started flags

    Only the two guarded entry points write [reporter_started] and
    [release_started]; everything else leaves them as they are, whether it
    returns or raises. *)


Lemma keeps_ret {A} (a : A) : keeps_flags (ret a).
Proof. intro w. reflexivity. Qed.

Lemma keeps_raise {A} (e : exn) : keeps_flags (@raise A e).
Proof. intro w. reflexivity. Qed.

Lemma keeps_gets {A} (f : World -> A) : keeps_flags (gets f).
Proof. intro w. reflexivity. Qed.

Lemma keeps_modify (f : World -> World) :
  (forall w, flags (f w) = flags w) -> keeps_flags (modify f).
Proof. intros H w. apply H. Qed.

Lemma keeps_bind {A B} (c : M A) (k : A -> M B) :
  keeps_flags c -> (forall a, keeps_flags (k a)) -> keeps_flags (bind c k).
Proof.
  intros Hc Hk w. unfold bind. specialize (Hc w).
  destruct (c w) as [a w1|e w1]; cbn in *; [|assumption].
  now rewrite Hk.
Qed.

Lemma keeps_for_each {A} (xs : list A) (body : A -> M unit) :
  (forall x, keeps_flags (body x)) -> keeps_flags (for_each xs body).
Proof.
  intro H. induction xs as [|x xs IH]; cbn [for_each].
  - apply keeps_ret.
  - apply keeps_bind; auto.
Qed.

Lemma keeps_send (ch : option string) (text : string) : keeps_flags (send ch text).
Proof. destruct ch; [now apply keeps_modify|apply keeps_raise]. Qed.

Lemma keeps_uuid4 (cfg : Config) : keeps_flags (uuid4 cfg).
Proof. intro w. reflexivity. Qed.

Lemma keeps_remove_roles (member : Member) (rs : list (option Role)) :
  keeps_flags (remove_roles member rs).
Proof.
  induction rs as [|[r|] rs IH]; cbn [remove_roles].
  - apply keeps_ret.
  - apply keeps_bind; [now apply keeps_modify|auto].
  - apply keeps_raise.
Qed.

Lemma keeps_add_roles (member : Member) (rs : list (option Role)) :
  keeps_flags (add_roles member rs).
Proof.
  induction rs as [|[r|] rs IH]; cbn [add_roles].
  - apply keeps_ret.
  - apply keeps_bind; [now apply keeps_modify|auto].
  - apply keeps_raise.
Qed.

Create HintDb flags.
#[local] Hint Resolve keeps_send keeps_uuid4 keeps_remove_roles keeps_add_roles : flags.

Ltac keeps :=
  repeat first
    [ apply keeps_ret | apply keeps_raise | apply keeps_gets
    | apply keeps_modify; intro; reflexivity
    | apply keeps_bind; [|intro]
    | apply keeps_for_each; intro
    | solve [auto with flags]
    | match goal with
      | |- keeps_flags (if ?b then _ else _) => destruct b
      | |- keeps_flags (match ?x with _ => _ end) => destruct x
      end ].

Lemma keeps_scan_orders (cfg : Config) (ch : option string) :
  keeps_flags (scan_orders cfg ch).
Proof.
  unfold scan_orders, fetch_all_drone_orders, check_order, datetime_now,
    deactivate_if_member, delete_drone_order. keeps.
Qed.

Lemma keeps_restore_member (stored_role : option Role) (stored : StoredDrone.t)
    (member : Member) :
  keeps_flags (restore_member stored_role stored member).
Proof. unfold restore_member, delete_stored_drone. keeps. Qed.
#[local] Hint Resolve keeps_restore_member : flags.

Lemma keeps_release_search (cfg : Config) (stored_role : option Role)
    (stored : StoredDrone.t) (members : list Member) :
  keeps_flags (release_search cfg stored_role stored members).
Proof. induction members as [|m ms IH]; cbn [release_search]; keeps. Qed.
#[local] Hint Resolve keeps_release_search : flags.

Lemma keeps_scan_storage (cfg : Config) (stored_role : option Role) :
  keeps_flags (scan_storage cfg stored_role).
Proof.
  unfold scan_storage, datetime_now, get_stored_drones, release_if_due. keeps.
Qed.

Lemma keeps_scan_report (cfg : Config) (storage_channel : option string) :
  keeps_flags (scan_report cfg storage_channel).
Proof. unfold scan_report, datetime_now, get_stored_drones. keeps. Qed.

Lemma keeps_turn (cfg : Config) (t : Task) : keeps_flags (turn cfg t).
Proof.
  destruct t; cbn [turn];
    [apply keeps_scan_orders|apply keeps_scan_storage|apply keeps_scan_report].
Qed.

Lemma keeps_store_search (cfg : Config) (message : Message) (stored_role drone_role : option Role)
    (drone_id target_id time purpose : string) (members : list Member) :
  keeps_flags (store_search cfg message stored_role drone_role
                 drone_id target_id time purpose members).
Proof.
  induction members as [|m ms IH]; cbn [store_search];
    unfold store_member, insert_stored_drone, datetime_now; keeps.
Qed.
#[local] Hint Resolve keeps_store_search : flags.

Lemma keeps_release_first (stored_role : option Role) (member : Member)
    (to_release_id : option string) (drones : list StoredDrone.t) :
  keeps_flags (release_first stored_role member to_release_id drones).
Proof. induction drones as [|d ds IH]; cbn [release_first]; keeps. Qed.
#[local] Hint Resolve keeps_release_first : flags.

Lemma keeps_handle (cfg : Config) (c : Command) : keeps_flags (handle cfg c).
Proof.
  destruct c; cbn [handle].
  - unfold store, get_stored_drones. keeps.
  - unfold release, get_stored_drones. keeps.
  - unfold report_order, get_order_by_drone_id, datetime_now, insert_drone_order. keeps.
Qed.

(** ** Entry points and running copies *)


Lemma started_of_flags (l : Loop) (w w' : World) :
  flags w' = flags w -> started l w' = started l w.
Proof. unfold flags. intro H. injection H as H1 H2. destruct l; cbn; congruence. Qed.

Lemma check_for_completed_orders_enters (cfg : Config) (w : World) :
  check_for_completed_orders cfg 0 w = Ok Running w.
Proof. reflexivity. Qed.

Lemma release_timed_guard (cfg : Config) (n : nat) (w : World) :
  release_started w = true -> release_timed cfg n w = Ok Returned w.
Proof. intro H. unfold release_timed, bind, gets. now rewrite H. Qed.

Lemma report_storage_guard (cfg : Config) (n : nat) (w : World) :
  reporter_started w = true -> report_storage cfg n w = Ok Returned w.
Proof. intro H. unfold report_storage, bind, gets. now rewrite H. Qed.

(** a call that starts a guarded loop found its flag down and leaves it up;
    no call takes a flag down *)
Lemma entry_call (cfg : Config) (called l : Loop) (w w' : World) (o : Outcome) :
  entry cfg called 0 w = Ok o w' ->
  (started l w = true -> started l w' = true)
  /\ (o = Running -> called = l -> l <> OrderExpiry ->
      started l w = false /\ started l w' = true).
Proof.
  destruct called; cbn [entry].
  - rewrite check_for_completed_orders_enters. intro H. injection H as <- <-.
    split; [tauto|]. intros _ <- Hne. congruence.
  - unfold release_timed, bind, gets. destruct (release_started w) eqn:E.
    + intro H. injection H as <- <-. split; [tauto|]. discriminate.
    + cbn. intro H. injection H as <- <-. split.
      * destruct l; cbn; auto.
      * intros _ <- _. cbn. auto.
  - unfold report_storage, bind, gets. destruct (reporter_started w) eqn:E.
    + intro H. injection H as <- <-. split; [tauto|]. discriminate.
    + cbn. intro H. injection H as <- <-. split.
      * destruct l; cbn; auto.
      * intros _ <- _. cbn. auto.
Qed.

Lemma copies_snoc (l : Loop) (ts : list Task) (t : Task) :
  copies l (ts ++ [t]) = (copies l ts + (if Loop_eqb (loop_of t) l then 1 else 0))%nat.
Proof.
  unfold copies. rewrite filter_app, length_app. cbn [filter].
  now destruct (Loop_eqb (loop_of t) l).
Qed.

Lemma copies_remove_task (l : Loop) (n : nat) (ts : list Task) :
  (copies l (remove_task n ts) <= copies l ts)%nat.
Proof.
  revert n. induction ts as [|t ts IH]; intro n; [destruct n; cbn; lia|].
  destruct n as [|n]; unfold copies in *; cbn [remove_task filter].
  - destruct (Loop_eqb (loop_of t) l); cbn [List.length]; lia.
  - specialize (IH n). destruct (Loop_eqb (loop_of t) l); cbn [List.length]; lia.
Qed.

Lemma Loop_eqb_eq (a b : Loop) : Loop_eqb a b = true <-> a = b.
Proof. destruct a, b; cbn; split; congruence. Qed.

Lemma loop_of_spawn (cfg : Config) (l : Loop) (w : World) : loop_of (spawn cfg l w) = l.
Proof. now destruct l. Qed.


Lemma step_keeps_guard (cfg : Config) (l : Loop) (p q : Process) :
  l <> OrderExpiry -> step cfg p q -> guard_invariant l p -> guard_invariant l q.
Proof.
  intros Hl Hstep [Hle Hup]. unfold guard_invariant.
  destruct Hstep as [called p w' He | called p w' He | n t p w' Hn Ht
                    | n t p e w' Hn Ht | c p | d p Hd]; cbn [world tasks].
  - destruct (entry_call cfg called l _ _ _ He) as [Hmono Hstart].
    rewrite copies_snoc, loop_of_spawn.
    destruct (Loop_eqb called l) eqn:E.
    + apply Loop_eqb_eq in E. destruct (Hstart eq_refl E Hl) as [Hdown Hnow].
      assert (copies l (tasks p) = 0%nat) as Hz.
      { destruct (copies l (tasks p)) as [|[|k]]; [reflexivity| |lia].
        rewrite Hup in Hdown by reflexivity. discriminate. }
      rewrite Hz. cbn. auto.
    + rewrite Nat.add_0_r. auto.
  - destruct (entry_call cfg called l _ _ _ He) as [Hmono _]. auto.
  - split; [assumption|]. intro H.
    rewrite (started_of_flags l (world p) w'); [auto|].
    pose proof (keeps_turn cfg t (world p)) as K. now rewrite Ht in K.
  - pose proof (copies_remove_task l n (tasks p)) as Hrem.
    split; [lia|]. intro H.
    rewrite (started_of_flags l (world p) w'); [apply Hup; lia|].
    pose proof (keeps_turn cfg t (world p)) as K. now rewrite Ht in K.
  - split; [assumption|]. intro H.
    rewrite (started_of_flags l (world p)); [auto|]. apply keeps_handle.
  - split; [assumption|]. intro H. destruct l; cbn in *; auto.
Qed.

Lemma guarded_loop_runs_once (cfg : Config) (l : Loop) :
  l <> OrderExpiry -> at_most_one_copy cfg l.
Proof.
  intros Hl p0 p (Hts & _ & _) Hreach.
  assert (guard_invariant l p) as [H _]; [|exact H].
  induction Hreach as [|p q _ IH Hstep].
  - unfold guard_invariant. rewrite Hts. cbn. split; [lia|discriminate].
  - now apply (step_keeps_guard cfg l p q).
Qed.

(** C3, as the code has it.  The two loops of the storage are guarded by
    their flags: however their entry points, the handlers and the running
    loops are interleaved, at most one copy of the release loop and at most
    one copy of the report loop is running, and a call that finds the flag
    up returns at once and changes nothing.  [check_for_completed_orders]
    tests no flag: a call of it always enters its loop, one more running
    copy for each call. *)
Theorem storage_loops_start_once (cfg : Config) :
  at_most_one_copy cfg StorageRelease
  /\ at_most_one_copy cfg StorageReport
  /\ (forall (n : nat) (w : World),
        release_started w = true -> release_timed cfg n w = Ok Returned w)
  /\ (forall (n : nat) (w : World),
        reporter_started w = true -> report_storage cfg n w = Ok Returned w)
  /\ (forall (p : Process),
        step cfg p {| world := world p;
                      tasks := tasks p ++ [spawn cfg OrderExpiry (world p)] |}
        /\ copies OrderExpiry (tasks p ++ [spawn cfg OrderExpiry (world p)])
           = S (copies OrderExpiry (tasks p))).
Proof.
  repeat split.
  - apply guarded_loop_runs_once. discriminate.
  - apply guarded_loop_runs_once. discriminate.
  - intros n w. apply release_timed_guard.
  - intros n w. apply report_storage_guard.
  - apply (step_call_starts cfg OrderExpiry). apply check_for_completed_orders_enters.
  - rewrite copies_snoc. cbn. lia.
Qed.

(** ** Stored roles: what is kept and what comes back *)

(** the roles [store] strips and records are the member's roles whose name
    is not protected *)
Lemma filter_out_non_removable_roles_spec (cfg : Config) (rs : list Role) (r : Role) :
  In r (filter_out_non_removable_roles cfg rs)
  <-> In r rs /\ ~ In (role_name r) (protected_names cfg).
Proof.
  unfold filter_out_non_removable_roles. rewrite filter_In, negb_true_iff.
  assert (name_in (role_name r) (protected_names cfg) = false
          <-> ~ In (role_name r) (protected_names cfg)) as ->; [|reflexivity].
  unfold name_in. split.
  - intros H Hin. assert (existsb (String.eqb (role_name r)) (protected_names cfg) = true);
      [|congruence].
    apply existsb_exists. exists (role_name r). split; [assumption|apply String.eqb_refl].
  - intro H. destruct (existsb _ _) eqn:E; [|reflexivity].
    exfalso. apply H. apply existsb_exists in E. destruct E as (x & Hx & E).
    apply String.eqb_eq in E. now subst.
Qed.

Lemma split_no_bar (s : string) : occurs bar s = false -> split bar s = [s].
Proof.
  induction s as [|c s IH]; [reflexivity|]. cbn [occurs split].
  rewrite orb_false_iff. intros [Hc Hs]. now rewrite Hc, (IH Hs).
Qed.

Lemma split_cons_bar (x rest : string) :
  occurs bar x = false ->
  split bar (x ++ String bar rest) = x :: split bar rest.
Proof.
  induction x as [|c x IH]; cbn [occurs split append].
  - intros _. now rewrite Ascii.eqb_refl.
  - rewrite orb_false_iff. intros [Hc Hx]. now rewrite Hc, (IH Hx).
Qed.

(** the names written by [store] are read back by the releases, as long as
    there is one and none holds the separator *)
Lemma split_join (names : list string) :
  names <> [] ->
  (forall n, In n names -> occurs bar n = false) ->
  split bar (join "|" names) = names.
Proof.
  induction names as [|x names IH]; [congruence|]. intros _ H.
  destruct names as [|y names].
  - cbn [join]. apply split_no_bar. apply H. now left.
  - change (join "|" (x :: y :: names)) with (x ++ String bar (join "|" (y :: names))).
    rewrite split_cons_bar by (apply H; now left).
    f_equal. apply IH; [discriminate|]. intros n Hn. apply H. now right.
Qed.

(** every name becomes one entry handed to [add_roles]: the role of that
    name when the guild has one, [None] when it has none *)
Lemma get_roles_for_names_entries (guild : World) (names : list string) :
  List.length (get_roles_for_names guild names) = List.length names
  /\ forall n, In n names ->
       get_role (guild_roles guild) n = None ->
       In None (get_roles_for_names guild names).
Proof.
  unfold get_roles_for_names. split; [apply length_map|].
  intros n Hin Hnone. rewrite <- Hnone. now apply in_map.
Qed.

(** C2, on the code.  Drone 1234 is stored with the roles [Drone] and
    [Hexie] (and two protected ones); the row keeps exactly those two
    names.  Once the guild has lost [Hexie], the release hands [add_roles]
    a list with [None] in the place of that name: the manual release and
    the release loop both end with [AttributeError], the row stays in the
    table and of the saved roles only those before the lost one are back. *)
Theorem release_meets_vanished_role :
  let w1 := world_of (store Sample.cfg Sample.store_1234 Sample.guild) in
  let w2 := Sample.without_hexie w1 in
  map StoredDrone.roles (storage w1) = ["Drone|Hexie"]
  /\ get_roles_for_names w2 (split bar "Drone|Hexie") = [Some Sample.drone; None]
  /\ (exists w3,
        release Sample.cfg Sample.release_1234 w2 = Raised AttributeError w3
        /\ storage w3 = storage w2
        /\ map roles (guild_members w3)
           = [[Sample.everyone; Sample.mxtress];
              [Sample.everyone; Sample.moderator; Sample.drone];
              [Sample.everyone; Sample.drone]])
  /\ (exists w3,
        release_timed Sample.cfg 1 (set_clock (hours 3) w2) = Raised AttributeError w3
        /\ storage w3 = storage w2).
Proof.
  cbv zeta. repeat split.
  - eexists. split; [vm_compute; reflexivity|]. split; reflexivity.
  - eexists. split; [vm_compute; reflexivity|]. reflexivity.
Qed.

(** ** The properties at work on the sample guild *)

Ltac distinct := repeat constructor; cbn; intuition discriminate.

(** C1, the sentence of the specification on the sample guild.  The order
    of a participant who left is still in the table after the scan that
    found it expired: not every expired row is deleted by the tick that
    observes it. *)
Lemma order_of_absent_member_survives :
  ~ (forall (w w' : World) (order : ActiveOrder.t),
       In order (orders w) ->
       ActiveOrder.finish_time order < clock w ->
       scan_orders Sample.cfg (get_channel (guild_channels w) "orders-reporting") w
       = Ok tt w' ->
       ~ In order (orders w')).
Proof.
  intro H.
  apply (H (set_orders [Sample.orphan_order] (set_clock 10 Sample.guild))
           (set_orders [Sample.orphan_order] (set_clock 10 Sample.guild))
           Sample.orphan_order).
  - now left.
  - reflexivity.
  - reflexivity.
  - now left.
Qed.

(** C3, the sentence of the specification on the sample guild.  Two calls
    of [check_for_completed_orders] leave two copies of its loop running. *)
Lemma order_loop_starts_twice : ~ at_most_one_copy Sample.cfg OrderExpiry.
Proof.
  intro H.
  assert (reachable Sample.cfg Sample.boot
            {| world := Sample.guild;
               tasks := [] ++ [spawn Sample.cfg OrderExpiry Sample.guild] |}) as R1.
  { eapply reach_step; [apply reach_refl|].
    apply (step_call_starts Sample.cfg OrderExpiry Sample.boot). reflexivity. }
  assert (reachable Sample.cfg Sample.boot
            {| world := Sample.guild;
               tasks := ([] ++ [spawn Sample.cfg OrderExpiry Sample.guild])
                        ++ [spawn Sample.cfg OrderExpiry Sample.guild] |}) as R2.
  { eapply reach_step; [exact R1|].
    apply (step_call_starts Sample.cfg OrderExpiry
             {| world := Sample.guild;
                tasks := [] ++ [spawn Sample.cfg OrderExpiry Sample.guild] |}).
    reflexivity. }
  apply H in R2; [|repeat split].
  cbv in R2. lia.
Qed.

Lemma storage_loops_start_once_witness :
  let w1 := set_release_started true Sample.guild in
  (release_started w1 = true /\ release_timed Sample.cfg 3 w1 = Ok Returned w1)
  /\ (fresh Sample.boot
      /\ (copies StorageRelease [ReleaseLoop (Some Sample.stored)] <= 1)%nat).
Proof.
  destruct (storage_loops_start_once Sample.cfg) as (H1 & _ & H3 & _).
  split; [split; [reflexivity|apply H3; reflexivity]|].
  split; [repeat split|].
  apply (H1 Sample.boot
            {| world := set_release_started true Sample.guild;
               tasks := [] ++ [spawn Sample.cfg StorageRelease Sample.guild] |});
    [repeat split|].
  eapply reach_step.
  - eapply reach_step; [apply reach_refl|].
    apply (step_call_starts Sample.cfg StorageRelease Sample.boot
             (set_release_started true Sample.guild)). reflexivity.
  - apply (step_call_returns Sample.cfg StorageRelease
             {| world := set_release_started true Sample.guild;
                tasks := [] ++ [spawn Sample.cfg StorageRelease Sample.guild] |}
             (set_release_started true Sample.guild)). reflexivity.
Defined.

(** C4, the sentence of the specification on the sample guild.  A row that
    raises is the end of the scan and of the loop, in both loops: the rows
    after it are not treated, and the loop is not running any more. *)
Lemma failing_row_is_not_isolated :
  ~ isolates_failures (release_if_due Sample.cfg (Some Sample.stored) 60000000)
  /\ ~ never_ends (release_tick Sample.cfg (Some Sample.stored))
  /\ ~ isolates_failures (check_order Sample.cfg None)
  /\ ~ never_ends (order_tick Sample.cfg None).
Proof.
  repeat split.
  - intro H.
    specialize (H Sample.stored_1234 [Sample.stored_5678]
                  (set_clock 60000000 Sample.vault) AttributeError
                  (world_of (release_if_due Sample.cfg (Some Sample.stored) 60000000
                               Sample.stored_1234 (set_clock 60000000 Sample.vault)))
                  eq_refl).
    vm_compute in H. discriminate.
  - intro H. destruct (H 1%nat Sample.vault) as [w' Hw']. vm_compute in Hw'. discriminate.
  - intro H.
    specialize (H Sample.order_of_1234 [Sample.orphan_order]
                  (set_clock 60000000 Sample.guild_without_reporting) AttributeError
                  (set_clock 60000000 Sample.guild_without_reporting) eq_refl).
    vm_compute in H. discriminate.
  - intro H. destruct (H 1%nat Sample.guild_without_reporting) as [w' Hw'].
    vm_compute in Hw'. discriminate.
Qed.

Lemma failing_row_ends_scan_and_loop_witness :
  (scan_orders Sample.cfg None (set_clock 60000000 Sample.guild_without_reporting)
   = Raised AttributeError (set_clock 60000000 Sample.guild_without_reporting)
   /\ forever (order_tick Sample.cfg None) 5 Sample.guild_without_reporting
      = Raised AttributeError (set_clock 60000000 Sample.guild_without_reporting))
  /\
  (exists w2,
     In Sample.stored_5678 (storage w2)
     /\ scan_storage Sample.cfg (Some Sample.stored) (set_clock 60000000 Sample.vault)
        = Raised AttributeError w2
     /\ forever (release_tick Sample.cfg (Some Sample.stored)) 5 Sample.vault
        = Raised AttributeError w2).
Proof.
  destruct (failing_row_ends_scan_and_loop Sample.cfg) as [Ho Hs]. split.
  - apply (Ho None [] Sample.order_of_1234 [Sample.order_of_5678]
              Sample.guild_without_reporting
              (set_clock 60000000 Sample.guild_without_reporting)
              (set_clock 60000000 Sample.guild_without_reporting)
              (set_clock 60000000 Sample.guild_without_reporting)
              AttributeError 4%nat); reflexivity.
  - exists (world_of (release_if_due Sample.cfg (Some Sample.stored) 60000000
                        Sample.stored_1234 (set_clock 60000000 Sample.vault))).
    split; [right; now left|].
    apply (Hs (Some Sample.stored) [] Sample.stored_1234 [Sample.stored_5678]
              Sample.vault
              (set_clock 60000000 Sample.vault)
              (set_clock 60000000 Sample.vault)
              _ AttributeError 4%nat); reflexivity.
Defined.

Lemma report_order_one_per_participant_witness :
  let w := set_orders [Sample.order_of_1234] Sample.guild in
  NoDup (map ActiveOrder.drone_id (orders w))
  /\ report_order Sample.cfg (Sample.order_context Sample.drone1234) "polishing" 30 w
     = Ok tt (set_outbox
                [("orders-reporting",
                  "HexDrone #1234 is already undertaking the recharging protocol.")] w).
Proof.
  assert (NoDup (map ActiveOrder.drone_id
                   (orders (set_orders [Sample.order_of_1234] Sample.guild)))) as Hnd
    by distinct.
  split; [exact Hnd|].
  apply (proj2 (report_order_one_per_participant Sample.cfg
                  (Sample.order_context Sample.drone1234) "polishing" 30
                  (set_orders [Sample.order_of_1234] Sample.guild) Hnd)
               "1234" Sample.order_of_1234).
  - reflexivity.
  - now left.
  - reflexivity.
Defined.

(** the six durations of the specification *)
Lemma report_order_duration_bound_witness :
  let run t := report_order Sample.cfg (Sample.order_context Sample.drone1234)
                 "polishing" t Sample.guild in
  let rejected := Ok tt (set_outbox [("orders-reporting", not_authorized_text)]
                                    Sample.guild) in
  let accepted t :=
    Ok tt (set_orders
             [{| ActiveOrder.id := "uuid-"; ActiveOrder.drone_id := "1234";
                 ActiveOrder.protocol := "polishing";
                 ActiveOrder.finish_time := t * 60000000 |}]
             (set_uuid_calls 1
                (set_outbox [("orders-reporting", activate_text "1234")] Sample.guild))) in
  (run 0 = rejected /\ run 121 = rejected /\ run (-5) = rejected)
  /\ (run 1 = accepted 1 /\ run 60 = accepted 60 /\ run 120 = accepted 120).
Proof.
  cbv zeta.
  pose proof (fun t => report_order_duration_bound Sample.cfg
                         (Sample.order_context Sample.drone1234) "polishing" t
                         Sample.guild "1234" eq_refl eq_refl) as H.
  split; (split; [|split]).
  - apply (proj1 (H 0)). lia.
  - apply (proj1 (H 121)). lia.
  - apply (proj1 (H (-5))). lia.
  - apply (proj2 (H 1)). lia.
  - apply (proj2 (H 60)). lia.
  - apply (proj2 (H 120)). lia.
Defined.

(** the four hour values of the specification *)
Lemma store_hours_bound_witness :
  let msg h := Sample.facility_message ("1234 :: 1234 :: " ++ h ++ " :: resting")
                 Sample.drone1234 [] in
  let rejected h :=
    Ok true (set_outbox [("storage-facility", h ++ " is not between 0 and 24.")]
                        Sample.guild) in
  let stores h :=
    store_search Sample.cfg (msg h) (Some Sample.stored) (Some Sample.drone)
      "1234" "1234" h "resting" (guild_members Sample.guild) Sample.guild in
  (store Sample.cfg (msg "0") Sample.guild = rejected "0"
   /\ store Sample.cfg (msg "25") Sample.guild = rejected "25")
  /\ (store Sample.cfg (msg "1") Sample.guild = stores "1"
      /\ store Sample.cfg (msg "24") Sample.guild = stores "24")
  /\ (exists w1 w24,
        stores "1" = Ok false w1 /\ stores "24" = Ok false w24
        /\ map StoredDrone.release_time (storage w1) = [hours 1]
        /\ map StoredDrone.release_time (storage w24) = [hours 24]).
Proof.
  cbv zeta.
  pose proof (fun h H => store_hours_bound Sample.cfg
                (Sample.facility_message ("1234 :: 1234 :: " ++ h ++ " :: resting")
                   Sample.drone1234 [])
                Sample.guild "1234" "1234" h "resting" H eq_refl) as H.
  split; [split|split; [split|]].
  - apply (proj1 (H "0" eq_refl)). cbv. intros [? ?]. discriminate.
  - apply (proj1 (H "25" eq_refl)). cbv. intros [? ?]. congruence.
  - apply (proj2 (H "1" eq_refl)). cbv. split; congruence.
  - apply (proj2 (H "24" eq_refl)). cbv. split; congruence.
  - do 2 eexists. split; [vm_compute; reflexivity|].
    split; [vm_compute; reflexivity|]. split; reflexivity.
Defined.

Lemma store_help_or_reject_witness :
  store Sample.cfg (Sample.facility_message "HeLp" Sample.drone1234 []) Sample.guild
  = Ok false Sample.guild
  /\ store Sample.cfg (Sample.facility_message "12 :: 1234 :: 3 :: x" Sample.drone1234 [])
           Sample.guild
     = Ok true (set_outbox [("storage-facility", REJECT_MESSAGE)] Sample.guild).
Proof.
  split.
  - apply (proj1 (store_help_or_reject Sample.cfg
                    (Sample.facility_message "HeLp" Sample.drone1234 []) Sample.guild)).
    reflexivity.
  - apply (proj2 (store_help_or_reject Sample.cfg
                    (Sample.facility_message "12 :: 1234 :: 3 :: x" Sample.drone1234 [])
                    Sample.guild)).
    + cbv. discriminate.
    + reflexivity.
Defined.

Lemma release_without_mention_raises_witness :
  release Sample.cfg (Sample.facility_message "Release" Sample.the_mxtress []) Sample.guild
  = Raised IndexError Sample.guild.
Proof.
  apply release_without_mention_raises; reflexivity.
Defined.

(** * Further properties of the two modules *)

(** ** The store pattern, both ways *)

Lemma append_chain (a b c : string) : (a ++ b) ++ c = a ++ (b ++ c).
Proof. induction a as [|x a IH]; cbn; [reflexivity|now rewrite IH]. Qed.

Lemma split_at_whole (k : nat) (s : string) :
  fst (split_at k s) ++ snd (split_at k s) = s.
Proof.
  revert s. induction k as [|k IH]; intro s; [reflexivity|].
  destruct s as [|c r]; [reflexivity|]. cbn [split_at].
  specialize (IH r). destruct (split_at k r) as [a b]. cbn in *. now rewrite IH.
Qed.

Lemma split_at_again (k : nat) (s : string) :
  split_at k (fst (split_at k s)) = (fst (split_at k s), "").
Proof.
  revert s. induction k as [|k IH]; intro s; [reflexivity|].
  destruct s as [|c r]; [reflexivity|]. cbn [split_at].
  specialize (IH r). destruct (split_at k r) as [a b]. cbn in *. now rewrite IH.
Qed.

Lemma utf8_width_positive (c : ascii) : exists k, utf8_width c = S k.
Proof.
  unfold utf8_width. destruct (nat_of_ascii c <? 224)%nat; [now exists 1%nat|].
  destruct (nat_of_ascii c <? 240)%nat; [now exists 2%nat|now exists 3%nat].
Qed.

(** the digit found is a prefix of the text, and a digit on its own *)
Lemma digit_at_inv (decimal : string -> option Z) (s ch rest : string) (v : Z) :
  digit_at decimal s = Some (ch, v, rest) ->
  s = ch ++ rest /\ digit_at decimal ch = Some (ch, v, "").
Proof.
  destruct s as [|c r]; [discriminate|]. unfold digit_at at 1.
  destruct (is_digit c) eqn:D.
  - intro H. injection H as <- <- <-. split; [reflexivity|].
    unfold digit_at. now rewrite D.
  - destruct (nat_of_ascii c <? 128)%nat eqn:L; [discriminate|].
    destruct (utf8_width_positive c) as [k Hk].
    pose proof (split_at_whole (utf8_width c) (String c r)) as Hw.
    pose proof (split_at_again (utf8_width c) (String c r)) as Ha.
    destruct (split_at (utf8_width c) (String c r)) as [a b] eqn:E.
    cbn [fst snd] in Hw, Ha.
    destruct (decimal a) as [v'|] eqn:T; [|discriminate].
    intro H. injection H as <- <- <-. split; [now symmetry|].
    assert (exists a', a = String c a') as [a' ->].
    { rewrite Hk in E. cbn [split_at] in E. destruct (split_at k r) as [x y].
      injection E as <- <-. now eexists. }
    unfold digit_at. now rewrite D, L, Ha, T.
Qed.

Lemma take_digits_inv (decimal : string -> option Z) (n : nat) (s d rest : string) :
  take_digits decimal n s = Some (d, rest) ->
  s = d ++ rest /\ decimal_run decimal n d.
Proof.
  revert s d rest. induction n as [|n IH]; intros s d rest; cbn [take_digits].
  - intro H. injection H as <- <-. split; [reflexivity|constructor].
  - destruct (digit_at decimal s) as [[[ch v] r]|] eqn:D; [|discriminate].
    destruct (take_digits decimal n r) as [[d' rest']|] eqn:T; [|discriminate].
    intro H. injection H as <- <-. destruct (IH _ _ _ T) as [-> Hrun].
    apply digit_at_inv in D. destruct D as [-> Hch].
    split; [now rewrite append_chain|]. now apply (run_more decimal ch v).
Qed.

Lemma span_digits_upto_inv (decimal : string -> option Z) (fuel : nat) (s d rest : string) :
  span_digits_upto fuel decimal s = (d, rest) ->
  s = d ++ rest /\ exists n, decimal_run decimal n d.
Proof.
  revert s d rest. induction fuel as [|fuel IH]; intros s d rest; cbn [span_digits_upto].
  - intro H. injection H as <- <-. split; [reflexivity|]. exists 0%nat. constructor.
  - destruct (digit_at decimal s) as [[[ch v] r]|] eqn:D.
    + destruct (span_digits_upto fuel decimal r) as [d' rest'] eqn:T.
      intro H. injection H as <- <-. destruct (IH _ _ _ T) as [-> [n Hrun]].
      apply digit_at_inv in D. destruct D as [-> Hch].
      split; [now rewrite append_chain|]. exists (S n). now apply (run_more decimal ch v).
    + intro H. injection H as <- <-. split; [reflexivity|]. exists 0%nat. constructor.
Qed.

Lemma decimal_run_none (decimal : string -> option Z) (d : string) :
  decimal_run decimal 0 d -> d = "".
Proof. intro H. now inversion H. Qed.

Lemma expect_inv (lit s rest : string) : expect lit s = Some rest -> s = lit ++ rest.
Proof.
  revert s. induction lit as [|a lit IH]; intro s; cbn [expect].
  - intro H. now injection H as <-.
  - destruct s as [|c s]; [discriminate|].
    destruct (Ascii.eqb a c) eqn:E; [|discriminate].
    apply Ascii.eqb_eq in E. subst c. intro H. cbn. f_equal. now apply IH.
Qed.

Lemma until_newline_inv (s : string) :
  occurs newline (until_newline s) = false
  /\ exists tail, s = until_newline s ++ tail /\ line_end tail.
Proof.
  induction s as [|c s [IHo (tail & IHs & IHt)]]; cbn [until_newline].
  - split; [reflexivity|]. exists "". split; [reflexivity|now left].
  - destruct (Ascii.eqb c newline) eqn:E.
    + split; [reflexivity|]. apply Ascii.eqb_eq in E. subst c.
      exists (String newline s). split; [reflexivity|]. right. now exists s.
    + split; [cbn [occurs]; now rewrite E, IHo|].
      exists tail. split; [cbn; now rewrite <- IHs|assumption].
Qed.

(** X1. What the pattern lets through: the first two groups are four
    decimal digits each (ASCII or not), the third is a run of at least one
    digit, the fourth holds no line feed, and the text is these four joined
    by [ :: ], followed by nothing or by a line feed and an ignored rest. *)
Theorem match_format_sound (decimal : string -> option Z)
    (s drone_id target_id time purpose : string) :
  match_format decimal s = Some (drone_id, target_id, time, purpose) ->
  decimal_run decimal 4 drone_id
  /\ decimal_run decimal 4 target_id
  /\ (exists n, decimal_run decimal (S n) time)
  /\ occurs newline purpose = false
  /\ exists tail,
       s = store_text drone_id target_id time purpose ++ tail /\ line_end tail.
Proof.
  unfold match_format.
  destruct (take_digits decimal 4 s) as [[d s1]|] eqn:T1; [|discriminate].
  destruct (expect " :: " s1) as [s2|] eqn:E1; [|discriminate].
  destruct (take_digits decimal 4 s2) as [[t s3]|] eqn:T2; [|discriminate].
  destruct (expect " :: " s3) as [s4|] eqn:E2; [|discriminate].
  destruct (span_digits decimal s4) as [h s5] eqn:Sp.
  assert (h <> "" ->
          match expect " :: " s5 with
          | Some s6 => Some (d, t, h, until_newline s6)
          | None => None
          end = Some (drone_id, target_id, time, purpose) ->
          decimal_run decimal 4 drone_id
          /\ decimal_run decimal 4 target_id
          /\ (exists n, decimal_run decimal (S n) time)
          /\ occurs newline purpose = false
          /\ exists tail,
               s = store_text drone_id target_id time purpose ++ tail /\ line_end tail) as K.
  { intro Hne. destruct (expect " :: " s5) as [s6|] eqn:E3; [|discriminate].
    intro H. injection H as <- <- <- <-.
    apply take_digits_inv in T1, T2. apply expect_inv in E1, E2, E3.
    apply span_digits_upto_inv in Sp.
    destruct T1 as (-> & R1), T2 as (-> & R2), Sp as (-> & [n R3]).
    destruct (until_newline_inv s6) as (Hp & tail & Hs6 & Htail).
    do 2 (split; [assumption|]).
    split.
    { destruct n as [|n]; [|now exists n].
      apply decimal_run_none in R3. contradiction. }
    split; [assumption|].
    exists tail. split; [|assumption].
    subst s1 s3 s5. rewrite Hs6 at 1. unfold store_text.
    rewrite !append_chain. reflexivity. }
  destruct h as [|c h]; [discriminate|]. apply K. discriminate.
Qed.

Lemma length_of_append (a b : string) :
  String.length (a ++ b) = (String.length a + String.length b)%nat.
Proof. induction a as [|c a IH]; cbn; [reflexivity|now rewrite IH]. Qed.

Lemma digit_at_ascii (decimal : string -> option Z) (c : ascii) (r : string) :
  is_digit c = true ->
  digit_at decimal (String c r) = Some (String c "", digit_value c, r).
Proof. intro D. unfold digit_at. now rewrite D. Qed.

Lemma take_digits_app (decimal : string -> option Z) (d s : string) :
  all_digits d = true -> take_digits decimal (String.length d) (d ++ s) = Some (d, s).
Proof.
  induction d as [|c d IH]; cbn [String.length append all_digits take_digits];
    [reflexivity|].
  rewrite andb_true_iff. intros [Hc Hd].
  now rewrite (digit_at_ascii decimal c _ Hc), (IH Hd).
Qed.

Lemma expect_app (lit s : string) : expect lit (lit ++ s) = Some s.
Proof.
  induction lit as [|a lit IH]; cbn [append expect]; [reflexivity|].
  now rewrite Ascii.eqb_refl.
Qed.

Lemma span_digits_upto_app (decimal : string -> option Z) (fuel : nat) (h s : string) :
  all_digits h = true ->
  (String.length h <= fuel)%nat ->
  span_digits_upto fuel decimal (h ++ String " " s) = (h, String " " s).
Proof.
  revert fuel. induction h as [|c h IH]; intros fuel Hd Hfuel; cbn [append].
  - destruct fuel; reflexivity.
  - cbn [all_digits] in Hd. apply andb_true_iff in Hd. destruct Hd as [Hc Hh].
    cbn [String.length] in Hfuel. destruct fuel as [|fuel]; [lia|].
    cbn [span_digits_upto]. rewrite (digit_at_ascii decimal c _ Hc), IH; [reflexivity|assumption|lia].
Qed.

Lemma span_digits_app (decimal : string -> option Z) (h s : string) :
  all_digits h = true ->
  span_digits decimal (h ++ String " " s) = (h, String " " s).
Proof.
  intro Hd. unfold span_digits. apply span_digits_upto_app; [assumption|].
  rewrite length_of_append. lia.
Qed.

Lemma until_newline_app (p tail : string) :
  occurs newline p = false -> line_end tail -> until_newline (p ++ tail) = p.
Proof.
  intros Hp Htail. induction p as [|c p IH]; cbn [append].
  - destruct Htail as [->|(r & ->)]; [reflexivity|].
    cbn [until_newline]. now rewrite Ascii.eqb_refl.
  - cbn [occurs] in Hp. apply orb_false_iff in Hp. destruct Hp as [Hc Hp].
    cbn [until_newline]. now rewrite Hc, (IH Hp).
Qed.

(** X2. The pattern reads back what was written in its format: two
    identifiers of four digits, a non-empty run of digits and a purpose
    without line feed, joined by [ :: ] and followed by nothing or by
    further lines, are matched, and the four groups are the four parts. *)
Theorem match_format_complete (decimal : string -> option Z)
    (drone_id target_id time purpose tail : string) :
  String.length drone_id = 4%nat -> all_digits drone_id = true ->
  String.length target_id = 4%nat -> all_digits target_id = true ->
  time <> "" -> all_digits time = true ->
  occurs newline purpose = false ->
  line_end tail ->
  match_format decimal (store_text drone_id target_id time purpose ++ tail)
  = Some (drone_id, target_id, time, purpose).
Proof.
  intros L1 D1 L2 D2 Hne D3 Hp Htail.
  unfold match_format, store_text. rewrite !append_chain.
  rewrite <- L1 at 1. rewrite (take_digits_app decimal drone_id _ D1), expect_app.
  rewrite <- L2 at 1. rewrite (take_digits_app decimal target_id _ D2), expect_app.
  change (" :: " ++ purpose ++ tail) with (String " " (":: " ++ purpose ++ tail)).
  rewrite (span_digits_app decimal time _ D3).
  destruct time as [|c time]; [congruence|].
  change (String " " (":: " ++ purpose ++ tail)) with (" :: " ++ purpose ++ tail).
  now rewrite expect_app, (until_newline_app purpose tail Hp Htail).
Qed.

Lemma match_format_complete_witness :
  match_format (decimal Sample.cfg) (store_text "1234" "5678" "007" "resting; see log"
                ++ String newline "second line")
  = Some ("1234", "5678", "007", "resting; see log").
Proof.
  apply match_format_complete; try reflexivity.
  - discriminate.
  - right. now exists "second line".
Defined.

(** a command in Arabic-Indic digits: target 1234, for 3 hours *)
Lemma match_format_sound_witness :
  let id := Sample.arabic 1 ++ Sample.arabic 2 ++ Sample.arabic 3 ++ Sample.arabic 4 in
  int (decimal Sample.cfg) (Sample.arabic 3) = 3
  /\ decimal_run (decimal Sample.cfg) 4 id
  /\ decimal_run (decimal Sample.cfg) 4 "5678"
  /\ (exists n, decimal_run (decimal Sample.cfg) (S n) (Sample.arabic 3))
  /\ occurs newline "a :: b" = false
  /\ exists tail,
       id ++ " :: 5678 :: " ++ Sample.arabic 3 ++ " :: a :: b"
       = store_text id "5678" (Sample.arabic 3) "a :: b" ++ tail
       /\ line_end tail.
Proof.
  cbv zeta. split; [reflexivity|].
  apply (match_format_sound (decimal Sample.cfg)
           (Sample.arabic 1 ++ Sample.arabic 2 ++ Sample.arabic 3 ++ Sample.arabic 4
            ++ " :: 5678 :: " ++ Sample.arabic 3 ++ " :: a :: b")).
  reflexivity.
Defined.

(** ** What a coroutine leaves in relation *)

Section Respects.

Variable R : World -> World -> Prop.
Hypothesis R_refl : forall w, R w w.
Hypothesis R_trans : forall a b c, R a b -> R b c -> R a c.

Lemma respects_ret {A} (a : A) : respects R (ret a).
Proof. intro w. apply R_refl. Qed.

Lemma respects_raise {A} (e : exn) : respects R (@raise A e).
Proof. intro w. apply R_refl. Qed.

Lemma respects_gets {A} (f : World -> A) : respects R (gets f).
Proof. intro w. apply R_refl. Qed.

Lemma respects_modify (f : World -> World) :
  (forall w, R w (f w)) -> respects R (modify f).
Proof. intros H w. apply H. Qed.

Lemma respects_bind {A B} (c : M A) (k : A -> M B) :
  respects R c -> (forall a, respects R (k a)) -> respects R (bind c k).
Proof.
  intros Hc Hk w. unfold bind. specialize (Hc w).
  destruct (c w) as [a w1|e w1]; cbn in *; [|assumption].
  apply (R_trans _ w1); [assumption|apply Hk].
Qed.

Lemma respects_for_each {A} (xs : list A) (body : A -> M unit) :
  (forall x, respects R (body x)) -> respects R (for_each xs body).
Proof.
  intro H. induction xs as [|x xs IH]; cbn [for_each].
  - apply respects_ret.
  - apply respects_bind; auto.
Qed.

Lemma respects_forever (tick : M unit) (n : nat) :
  respects R tick -> respects R (forever tick n).
Proof.
  intro H. induction n as [|n IH]; cbn [forever].
  - apply respects_ret.
  - apply respects_bind; auto.
Qed.

(** the chat client's calls, for a relation that does not look at what
    they write *)
Hypothesis R_outbox : forall w ob, R w (set_outbox ob w).
Hypothesis R_members : forall w ms, R w (set_members ms w).
Hypothesis R_uuid : forall w n, R w (set_uuid_calls n w).

Lemma respects_send (ch : option string) (text : string) : respects R (send ch text).
Proof.
  destruct ch; [|apply respects_raise]. apply respects_modify. intro w. apply R_outbox.
Qed.

Lemma respects_uuid4 (cfg : Config) : respects R (uuid4 cfg).
Proof. intro w. apply R_uuid. Qed.

Lemma respects_remove_roles (member : Member) (rs : list (option Role)) :
  respects R (remove_roles member rs).
Proof.
  induction rs as [|[r|] rs IH]; cbn [remove_roles].
  - apply respects_ret.
  - apply respects_bind; [|auto]. apply respects_modify. intro w. apply R_members.
  - apply respects_raise.
Qed.

Lemma respects_add_roles (member : Member) (rs : list (option Role)) :
  respects R (add_roles member rs).
Proof.
  induction rs as [|[r|] rs IH]; cbn [add_roles].
  - apply respects_ret.
  - apply respects_bind; [|auto]. apply respects_modify. intro w. apply R_members.
  - apply respects_raise.
Qed.

End Respects.

Lemma respects_weaken (R1 R2 : World -> World -> Prop) {A} (c : M A) :
  (forall w w', R1 w w' -> R2 w w') -> respects R1 c -> respects R2 c.
Proof. intros H Hc w. apply H, Hc. Qed.

(** [respecting refl trans base]: the relation goes through the binds, the
    loops and the branches; [base] closes what is left at the leaves *)
Ltac respecting refl trans base :=
  repeat first
    [ solve [base]
    | apply (respects_ret _ refl)
    | apply (respects_raise _ refl)
    | apply (respects_gets _ refl)
    | apply (respects_bind _ trans); [|intro]
    | apply (respects_for_each _ refl trans); intro
    | apply respects_modify; intro; solve [base]
    | match goal with
      | |- respects _ (if ?b then _ else _) => destruct b
      | |- respects _ (match ?x with _ => _ end) => destruct x
      end ].

(** ** The part of the world each module leaves alone *)

Lemma same_refl {B} (part : World -> B) (w : World) : part w = part w.
Proof. reflexivity. Qed.

Lemma same_trans {B} (part : World -> B) (a b c : World) :
  part b = part a -> part c = part b -> part c = part a.
Proof. congruence. Qed.

Ltac framing part :=
  unfold preserves;
  respecting (same_refl part) (same_trans part)
    ltac:(first
      [ reflexivity
      | apply (respects_send _ (same_refl part)); intros; reflexivity
      | apply (respects_uuid4 _ (same_refl part)); intros; reflexivity
      | apply (respects_remove_roles _ (same_refl part) (same_trans part)); intros; reflexivity
      | apply (respects_add_roles _ (same_refl part) (same_trans part)); intros; reflexivity
      | assumption
      | match goal with H : _ |- _ => apply H end ]).

Lemma store_search_leaves_orders (cfg : Config) (message : Message)
    (stored_role drone_role : option Role) (drone_id target_id time purpose : string)
    (members : list Member) :
  preserves orders (store_search cfg message stored_role drone_role
                      drone_id target_id time purpose members).
Proof.
  induction members as [|m ms IH]; cbn [store_search];
    unfold store_member, insert_stored_drone, datetime_now; framing orders.
Qed.

Lemma restore_member_leaves_orders (stored_role : option Role) (stored : StoredDrone.t)
    (member : Member) :
  preserves orders (restore_member stored_role stored member).
Proof. unfold restore_member, delete_stored_drone. framing orders. Qed.

Lemma release_search_leaves_orders (cfg : Config) (stored_role : option Role)
    (stored : StoredDrone.t) (members : list Member) :
  preserves orders (release_search cfg stored_role stored members).
Proof.
  induction members as [|m ms IH]; cbn [release_search]; framing orders.
Qed.

Lemma release_first_leaves_orders (stored_role : option Role) (member : Member)
    (to_release_id : option string) (drones : list StoredDrone.t) :
  preserves orders (release_first stored_role member to_release_id drones).
Proof.
  induction drones as [|d ds IH]; cbn [release_first]; framing orders.
Qed.

Lemma forever_leaves {B} (part : World -> B) (tick : M unit) (n : nat) :
  preserves part tick -> preserves part (forever tick n).
Proof. apply (respects_forever _ (same_refl part) (same_trans part)). Qed.

(** X3. The storage module never writes the [orders] table: the store and
    release handlers, a scan of the release loop or of the report loop, and
    the two loops however long they run and however they end, leave it as
    they found it. *)
Theorem storage_module_leaves_orders (cfg : Config) :
  (forall message, preserves orders (store cfg message))
  /\ (forall message, preserves orders (release cfg message))
  /\ (forall stored_role, preserves orders (scan_storage cfg stored_role))
  /\ (forall storage_channel, preserves orders (scan_report cfg storage_channel))
  /\ (forall ticks, preserves orders (release_timed cfg ticks))
  /\ (forall ticks, preserves orders (report_storage cfg ticks)).
Proof.
  pose proof (store_search_leaves_orders cfg) as Hs.
  pose proof (release_search_leaves_orders cfg) as Hr.
  pose proof release_first_leaves_orders as Hf.
  assert (forall r, preserves orders (scan_storage cfg r)) as Hscan.
  { intro r. unfold scan_storage, datetime_now, get_stored_drones, release_if_due.
    framing orders. }
  assert (forall ch, preserves orders (scan_report cfg ch)) as Hrep.
  { intro ch. unfold scan_report, datetime_now, get_stored_drones. framing orders. }
  repeat split.
  - intro message. unfold store, get_stored_drones. framing orders.
  - intro message. unfold release, get_stored_drones. framing orders.
  - exact Hscan.
  - exact Hrep.
  - intro ticks. unfold release_timed.
    pose proof (fun r => forever_leaves orders (release_tick cfg r) ticks) as Hloop.
    framing orders. apply Hloop. unfold release_tick, sleep. framing orders.
  - intro ticks. unfold report_storage.
    pose proof (fun ch => forever_leaves orders (report_tick cfg ch) ticks) as Hloop.
    framing orders. apply Hloop. unfold report_tick, sleep. framing orders.
Qed.

(** X4. The orders module never writes the [storage] table and never
    changes a member or a role of a member: [report_order], a scan of the
    expiry loop and the loop itself leave both as they found them. *)
Theorem orders_module_leaves_storage (cfg : Config) :
  let part := fun w => (storage w, guild_members w) in
  (forall context protocol_name protocol_time,
      preserves part (report_order cfg context protocol_name protocol_time))
  /\ (forall ch, preserves part (scan_orders cfg ch))
  /\ (forall ticks, preserves part (check_for_completed_orders cfg ticks)).
Proof.
  intro part.
  assert (forall ch, preserves part (scan_orders cfg ch)) as Hscan.
  { intro ch. unfold scan_orders, fetch_all_drone_orders, check_order, datetime_now,
      deactivate_if_member, delete_drone_order. framing part. }
  repeat split.
  - intros context protocol_name protocol_time.
    unfold report_order, get_order_by_drone_id, datetime_now, insert_drone_order.
    framing part.
  - exact Hscan.
  - intro ticks. unfold check_for_completed_orders.
    pose proof (fun ch => forever_leaves part (order_tick cfg ch) ticks) as Hloop.
    framing part. apply Hloop. unfold order_tick, sleep. framing part.
Qed.

(** ** Role changes, run *)

Lemma with_roles_same (m : Member) : with_roles m (roles m) = m.
Proof. now destruct m. Qed.

Lemma set_members_same (w : World) : set_members (guild_members w) w = w.
Proof. now destruct w. Qed.

Lemma change_roles_same (mid : Z) (m : Member) : change_roles mid (fun rs => rs) m = m.
Proof. unfold change_roles. destruct (member_id m =? mid); [apply with_roles_same|reflexivity]. Qed.

Lemma change_roles_twice (mid : Z) (f g : list Role -> list Role) (m : Member) :
  change_roles mid f (change_roles mid g m) = change_roles mid (fun rs => f (g rs)) m.
Proof.
  unfold change_roles. destruct (member_id m =? mid) eqn:E; cbn; now rewrite E.
Qed.

Lemma update_member_twice (mid : Z) (f g : list Role -> list Role) (w : World) :
  set_members (map (change_roles mid f) (guild_members (update_member mid g w)))
              (update_member mid g w)
  = set_members (map (change_roles mid (fun rs => f (g rs))) (guild_members w)) w.
Proof.
  unfold update_member. cbn [guild_members set_members].
  change (fun m => if member_id m =? mid then with_roles m (g (roles m)) else m)
    with (change_roles mid g).
  rewrite map_map. unfold set_members. cbn. f_equal.
  apply map_ext. intro m. apply change_roles_twice.
Qed.

(** [remove_roles] of roles that are all there: it returns, and the members
    of that id have lost them *)
Lemma remove_roles_run (member : Member) (gone : list Role) (w : World) :
  remove_roles member (map Some gone) w
  = Ok tt (set_members (map (change_roles (member_id member) (drop_all gone))
                            (guild_members w)) w).
Proof.
  revert w. induction gone as [|r gone IH]; intro w; cbn [map remove_roles].
  - unfold ret. f_equal. cbn [drop_all fold_left].
    rewrite (map_ext _ (fun m => m)) by apply change_roles_same.
    now rewrite map_id, set_members_same.
  - unfold bind, modify. rewrite IH, update_member_twice. reflexivity.
Qed.

Lemma add_roles_run (member : Member) (back : list Role) (w : World) :
  add_roles member (map Some back) w
  = Ok tt (set_members (map (change_roles (member_id member) (grant_all back))
                            (guild_members w)) w).
Proof.
  revert w. induction back as [|r back IH]; intro w; cbn [map add_roles].
  - unfold ret. f_equal. cbn [grant_all fold_left].
    rewrite (map_ext _ (fun m => m)) by apply change_roles_same.
    now rewrite map_id, set_members_same.
  - unfold bind, modify. rewrite IH, update_member_twice. reflexivity.
Qed.

Lemma change_roles_again (mid : Z) (f g : list Role -> list Role) (w : World) :
  set_members
    (map (change_roles mid f)
         (guild_members (set_members (map (change_roles mid g) (guild_members w)) w)))
    (set_members (map (change_roles mid g) (guild_members w)) w)
  = set_members (map (change_roles mid (fun rs => f (g rs))) (guild_members w)) w.
Proof. apply update_member_twice. Qed.

(** ** The store handler, case by case *)

(** what [store] does with the member it picked, whatever the guild lacks *)
Lemma store_member_outcome (cfg : Config) (stored_role : option Role)
    (drone_id target_id time purpose : string) (member : Member) (w : World) :
  let former_roles := filter_out_non_removable_roles cfg (roles member) in
  store_member cfg stored_role drone_id target_id time purpose member w
  = match stored_role with
    | None =>
        Raised AttributeError
          (set_members (map (change_roles (member_id member) (drop_all former_roles))
                            (guild_members w)) w)
    | Some stored =>
        match get_channel (guild_channels w) (STORAGE_CHAMBERS cfg) with
        | Some c =>
            Ok false (world_after_store cfg w stored c drone_id target_id time purpose member)
        | None =>
            Raised AttributeError
              (set_storage
                 (storage w ++ [stored_row cfg w drone_id target_id time purpose member])
                 (set_uuid_calls (S (uuid_calls w))
                    (set_members
                       (map (change_roles (member_id member)
                               (roles_in_storage stored former_roles))
                            (guild_members w)) w)))
        end
    end.
Proof.
  intro former_roles. unfold store_member. fold former_roles.
  unfold bind at 1. rewrite remove_roles_run.
  destruct stored_role as [stored|]; [|reflexivity].
  unfold bind at 1.
  change [Some stored] with (map Some [stored]). rewrite add_roles_run, change_roles_again.
  cbv [bind datetime_now gets uuid4 insert_stored_drone modify].
  cbn [clock uuid_calls storage guild_channels set_members set_uuid_calls set_storage].
  destruct (get_channel (guild_channels w) (STORAGE_CHAMBERS cfg)) as [c|]; reflexivity.
Qed.

Lemma store_search_skips (cfg : Config) (message : Message) (stored_role drone_role : option Role)
    (drone_id target_id time purpose : string) (pre rest : list Member) (w : World) :
  (forall m, In m pre -> storable cfg drone_role target_id m = false) ->
  store_search cfg message stored_role drone_role drone_id target_id time purpose
    (pre ++ rest) w
  = store_search cfg message stored_role drone_role drone_id target_id time purpose rest w.
Proof.
  induction pre as [|m pre IH]; intro H; [reflexivity|].
  cbn [app store_search]. fold (storable cfg drone_role target_id m).
  rewrite (H m) by now left. apply IH. intros x Hx. apply H. now right.
Qed.

(** X5. A store command for a target that has a row already is answered
    with "is already in storage" and nothing else happens, whatever hours
    it asks for: the test of the hours comes after. *)
Theorem store_rejects_stored_target
    (cfg : Config) (message : Message) (w : World)
    (drone_id target_id time purpose : string) (row : StoredDrone.t) :
  match_format (decimal cfg) (content message) = Some (drone_id, target_id, time, purpose) ->
  In row (storage w) ->
  StoredDrone.target_id row = target_id ->
  store cfg message w
  = Ok true (set_outbox (outbox w ++ [(channel message, already_stored_text target_id)]) w).
Proof.
  intros Hm Hin Ht. unfold store, bind, gets, get_stored_drones, gets.
  rewrite (match_format_not_help _ _ _ Hm), Hm.
  replace (existsb _ (storage w)) with true; [reflexivity|].
  symmetry. apply existsb_exists. exists row. split; [assumption|].
  subst target_id. apply String.eqb_refl.
Qed.

(** X6. A store command in order whose target is carried by no member
    holding the drone role is answered with "could not be found", is
    reported as handled and changes nothing else: no role, no row. *)
Theorem store_reports_missing_target
    (cfg : Config) (message : Message) (w : World)
    (drone_id target_id time purpose : string) :
  match_format (decimal cfg) (content message) = Some (drone_id, target_id, time, purpose) ->
  (forall row, In row (storage w) -> StoredDrone.target_id row <> target_id) ->
  0 < int (decimal cfg) time <= 24 ->
  (forall m, In m (guild_members w) ->
     storable cfg (get_role (guild_roles w) (DRONE cfg)) target_id m = false) ->
  store cfg message w
  = Ok true (set_outbox (outbox w ++ [(channel message, not_found_text target_id)]) w).
Proof.
  intros Hm Hfree Hh Hnone. unfold store, bind, gets, get_stored_drones, gets.
  rewrite (match_format_not_help _ _ _ Hm), Hm.
  replace (existsb _ (storage w)) with false.
  - replace ((0 <? int (decimal cfg) time) && (int (decimal cfg) time <=? 24)) with true
      by (symmetry; apply andb_true_iff; rewrite Z.ltb_lt, Z.leb_le; lia).
    cbn [negb]. rewrite <- (app_nil_r (guild_members w)).
    rewrite store_search_skips by assumption. reflexivity.
  - symmetry. apply not_true_is_false. intro E. apply existsb_exists in E.
    destruct E as (row & Hin & E). apply String.eqb_eq in E. exact (Hfree row Hin E).
Qed.

(** the run of [store] on a command in order, up to the member stored *)
Lemma store_stores_first_match_run
    (cfg : Config) (message : Message) (w : World)
    (drone_id target_id time purpose : string)
    (stored : Role) (c : string) (pre post : list Member) (member : Member) :
  match_format (decimal cfg) (content message) = Some (drone_id, target_id, time, purpose) ->
  (forall row, In row (storage w) -> StoredDrone.target_id row <> target_id) ->
  0 < int (decimal cfg) time <= 24 ->
  get_role (guild_roles w) (STORED cfg) = Some stored ->
  get_channel (guild_channels w) (STORAGE_CHAMBERS cfg) = Some c ->
  guild_members w = (pre ++ member :: post)%list ->
  (forall m, In m pre ->
     storable cfg (get_role (guild_roles w) (DRONE cfg)) target_id m = false) ->
  storable cfg (get_role (guild_roles w) (DRONE cfg)) target_id member = true ->
  store cfg message w
  = Ok false (world_after_store cfg w stored c drone_id target_id time purpose member).
Proof.
  intros Hm Hfree Hh Hs Hc Hms Hpre Hmem.
  unfold store, bind, gets, get_stored_drones, gets.
  rewrite (match_format_not_help _ _ _ Hm), Hm.
  replace (existsb _ (storage w)) with false.
  - replace ((0 <? int (decimal cfg) time) && (int (decimal cfg) time <=? 24)) with true
      by (symmetry; apply andb_true_iff; rewrite Z.ltb_lt, Z.leb_le; lia).
    cbn [negb]. rewrite Hms, store_search_skips by assumption.
    cbn [store_search].
    fold (storable cfg (get_role (guild_roles w) (DRONE cfg)) target_id member).
    rewrite Hmem, store_member_outcome, Hs, Hc. reflexivity.
  - symmetry. apply not_true_is_false. intro E. apply existsb_exists in E.
    destruct E as (row & Hin & E). apply String.eqb_eq in E. exact (Hfree row Hin E).
Qed.

(** X7. A store command in order, in a guild that has the stored role and
    the chambers channel, stores the first member that carries the target
    identifier and holds the drone role: the member loses its removable
    roles and is given the stored role, one row is appended with the
    command's parts, the names of the roles taken, joined by a bar, and the
    release time [now] plus the hours, one message goes to the chambers, and
    the handler returns [False]. *)
Theorem store_stores_first_match
    (cfg : Config) (message : Message) (w : World)
    (drone_id target_id time purpose : string)
    (stored : Role) (c : string) (pre post : list Member) (member : Member) :
  match_format (decimal cfg) (content message) = Some (drone_id, target_id, time, purpose) ->
  (forall row, In row (storage w) -> StoredDrone.target_id row <> target_id) ->
  0 < int (decimal cfg) time <= 24 ->
  get_role (guild_roles w) (STORED cfg) = Some stored ->
  get_channel (guild_channels w) (STORAGE_CHAMBERS cfg) = Some c ->
  guild_members w = (pre ++ member :: post)%list ->
  (forall m, In m pre ->
     storable cfg (get_role (guild_roles w) (DRONE cfg)) target_id m = false) ->
  storable cfg (get_role (guild_roles w) (DRONE cfg)) target_id member = true ->
  store cfg message w
  = Ok false (world_after_store cfg w stored c drone_id target_id time purpose member).
Proof.
  intros. now apply (store_stores_first_match_run cfg message w drone_id target_id time
                       purpose stored c pre post member).
Qed.

(** ** Roles as sets *)

Lemma drop_role_In (r x : Role) (rs : list Role) :
  In x (drop_role r rs) <-> In x rs /\ role_id x <> role_id r.
Proof.
  unfold drop_role. rewrite filter_In, negb_true_iff, Z.eqb_neq. reflexivity.
Qed.

Lemma drop_all_In (gone : list Role) (x : Role) (rs : list Role) :
  In x (drop_all gone rs)
  <-> In x rs /\ forall r, In r gone -> role_id x <> role_id r.
Proof.
  revert rs. induction gone as [|g gone IH]; intro rs; cbn [drop_all fold_left].
  - cbn. tauto.
  - fold (drop_all gone (drop_role g rs)). rewrite IH, drop_role_In. cbn [In].
    split.
    + intros [[Hx Hg] Hrest]. split; [assumption|]. intros r [<-|Hr]; auto.
    + intros [Hx H]. repeat split; auto.
Qed.

Lemma grant_role_In (universe : list Role) (r x : Role) (rs : list Role) :
  ids_faithful universe -> In r universe -> incl rs universe ->
  (In x (grant_role r rs) <-> In x rs \/ x = r).
Proof.
  intros Hf Hr Hrs. unfold grant_role.
  destruct (existsb (fun y => role_id y =? role_id r) rs) eqn:E.
  - apply existsb_exists in E. destruct E as (y & Hy & E). apply Z.eqb_eq in E.
    assert (y = r) as -> by (apply Hf; auto).
    split; [tauto|]. intros [H| ->]; assumption.
  - rewrite in_app_iff. cbn. intuition congruence.
Qed.

Lemma grant_role_incl (universe : list Role) (r : Role) (rs : list Role) :
  In r universe -> incl rs universe -> incl (grant_role r rs) universe.
Proof.
  intros Hr Hrs. unfold grant_role.
  destruct (existsb _ rs); [assumption|].
  apply incl_app; [assumption|]. intros y [<-|[]]. assumption.
Qed.

Lemma grant_all_In (universe : list Role) (back : list Role) (x : Role) (rs : list Role) :
  ids_faithful universe -> incl back universe -> incl rs universe ->
  (In x (grant_all back rs) <-> In x rs \/ In x back).
Proof.
  intros Hf. revert rs. induction back as [|b back IH]; intros rs Hb Hrs;
    cbn [grant_all fold_left].
  - cbn. tauto.
  - fold (grant_all back (grant_role b rs)).
    assert (In b universe) as Hbu by (apply Hb; now left).
    rewrite IH.
    + rewrite (grant_role_In universe) by assumption. cbn [In]. intuition congruence.
    + intros y Hy. apply Hb. now right.
    + now apply grant_role_incl.
Qed.

Lemma drop_all_incl (gone rs : list Role) : incl (drop_all gone rs) rs.
Proof. intros x Hx. apply drop_all_In in Hx. tauto. Qed.

(** the roles of a member in storage are its protected roles and the
    stored role *)
Lemma roles_in_storage_In (cfg : Config) (universe : list Role) (stored x : Role)
    (rs : list Role) :
  ids_faithful universe -> In stored universe -> incl rs universe ->
  (In x (roles_in_storage stored (filter_out_non_removable_roles cfg rs) rs)
   <-> (In x rs /\ In (role_name x) (protected_names cfg)) \/ x = stored).
Proof.
  intros Hf Hs Hrs. unfold roles_in_storage.
  rewrite (grant_role_In universe) by
    (auto; intros y Hy; apply Hrs;
     now apply (drop_all_incl (filter_out_non_removable_roles cfg rs) rs)).
  rewrite drop_all_In.
  assert (In x rs ->
          ((forall r, In r (filter_out_non_removable_roles cfg rs) -> role_id x <> role_id r)
           <-> In (role_name x) (protected_names cfg))) as K.
  { intro Hx. split.
    - intro H. destruct (name_in (role_name x) (protected_names cfg)) eqn:E.
      + unfold name_in in E. apply existsb_exists in E. destruct E as (n & Hn & E).
        apply String.eqb_eq in E. now subst.
      + exfalso. apply (H x); [|reflexivity].
        unfold filter_out_non_removable_roles. apply filter_In. now rewrite E.
    - intros Hp r Hr Hid. apply filter_out_non_removable_roles_spec in Hr.
      destruct Hr as [Hr Hnp]. apply Hnp.
      assert (x = r) as <- by (apply Hf; auto). assumption. }
  split.
  - intros [[Hx H]| ->]; [left|now right]. split; [assumption|]. now apply K.
  - intros [[Hx H]| ->]; [left|now right]. split; [assumption|]. now apply K.
Qed.

(** taken and given back, the roles of a member are those it had *)
Lemma roles_after_release_In (cfg : Config) (universe : list Role) (stored x : Role)
    (rs : list Role) :
  ids_faithful universe -> In stored universe -> incl rs universe -> ~ In stored rs ->
  (In x (roles_after_release stored (filter_out_non_removable_roles cfg rs) rs)
   <-> In x rs).
Proof.
  intros Hf Hs Hrs Hns. unfold roles_after_release.
  set (former := filter_out_non_removable_roles cfg rs).
  assert (incl former universe) as Hfu.
  { intros y Hy. apply Hrs. unfold former in Hy.
    apply filter_out_non_removable_roles_spec in Hy. tauto. }
  assert (incl (roles_in_storage stored former rs) universe) as Hin.
  { unfold roles_in_storage. apply grant_role_incl; [assumption|].
    intros y Hy. apply Hrs. now apply (drop_all_incl former rs). }
  rewrite (grant_all_In universe); auto.
  2:{ intros y Hy. apply Hin. now apply (drop_all_incl [stored]). }
  rewrite drop_all_In. unfold former at 1.
  rewrite (roles_in_storage_In cfg universe) by assumption.
  unfold former. rewrite filter_out_non_removable_roles_spec.
  split.
  - intros [[[[Hx _]| ->] H]|[Hx _]]; auto.
    exfalso. apply (H stored); [now left|reflexivity].
  - intro Hx. destruct (name_in (role_name x) (protected_names cfg)) eqn:E.
    + left. split.
      * left. split; [assumption|].
        unfold name_in in E. apply existsb_exists in E. destruct E as (n & Hn & E).
        apply String.eqb_eq in E. now subst.
      * intros r [<-|[]] Hid. apply Hns.
        assert (x = stored) as <- by (apply Hf; auto). assumption.
    + right. split; [assumption|]. intro Hp.
      assert (name_in (role_name x) (protected_names cfg) = true); [|congruence].
      unfold name_in. apply existsb_exists. exists (role_name x).
      split; [assumption|apply String.eqb_refl].
Qed.

(** ** Names back to roles *)

Lemma get_role_of_member (groles : list Role) (r : Role) :
  NoDup (map role_name groles) -> In r groles -> get_role groles (role_name r) = Some r.
Proof.
  intros Hnd Hin. unfold get_role.
  destruct (find (fun y => String.eqb (role_name y) (role_name r)) groles) as [y|] eqn:F.
  - apply find_some in F. destruct F as [Hy E]. apply String.eqb_eq in E.
    f_equal. now apply (NoDup_map_inj role_name groles).
  - apply (find_none _ _ F) in Hin. rewrite String.eqb_refl in Hin. discriminate.
Qed.

Lemma get_roles_for_names_of_roles (guild : World) (rs : list Role) :
  NoDup (map role_name (guild_roles guild)) ->
  incl rs (guild_roles guild) ->
  get_roles_for_names guild (map role_name rs) = map Some rs.
Proof.
  intros Hnd Hin. unfold get_roles_for_names. rewrite map_map. apply map_ext_in.
  intros r Hr. apply get_role_of_member; auto.
Qed.

(** X8. The names [store] writes in a row come back as the roles they
    name: for roles of a guild whose role names are pairwise distinct, at
    least one role, none with a bar in its name, splitting the joined names
    and resolving each in the guild gives these roles, in order, each found. *)
Theorem saved_roles_resolve_back (guild : World) (former_roles : list Role) :
  NoDup (map role_name (guild_roles guild)) ->
  incl former_roles (guild_roles guild) ->
  former_roles <> [] ->
  (forall r, In r former_roles -> occurs bar (role_name r) = false) ->
  get_roles_for_names guild (split bar (join "|" (get_names_for_roles former_roles)))
  = map Some former_roles.
Proof.
  intros Hnd Hin Hne Hbar. unfold get_names_for_roles.
  rewrite split_join.
  - now apply get_roles_for_names_of_roles.
  - destruct former_roles; [congruence|discriminate].
  - intros n Hn. apply in_map_iff in Hn. destruct Hn as (r & <- & Hr). auto.
Qed.

(** ** Out of storage *)

(** the reversal, when the stored role is there and every saved name
    resolves: it returns, the member is rid of the stored role and has the
    saved roles, the row is gone *)
Lemma restore_member_run (stored : Role) (row : StoredDrone.t) (member : Member)
    (former_roles : list Role) (w : World) :
  get_roles_for_names w (split bar (StoredDrone.roles row)) = map Some former_roles ->
  restore_member (Some stored) row member w
  = Ok tt
      (set_storage
         (filter (fun s => negb (String.eqb (StoredDrone.id s) (StoredDrone.id row)))
                 (storage w))
         (set_members
            (map (change_roles (member_id member)
                    (fun rs => grant_all former_roles (drop_all [stored] rs)))
                 (guild_members w)) w)).
Proof.
  intro Hnames. unfold restore_member.
  change [Some stored] with (map Some [stored]).
  unfold bind at 1. rewrite remove_roles_run.
  unfold bind at 1. unfold gets at 1.
  change (get_roles_for_names
            (set_members (map (change_roles (member_id member) (drop_all [stored]))
                              (guild_members w)) w)
            (split bar (StoredDrone.roles row)))
    with (get_roles_for_names w (split bar (StoredDrone.roles row))).
  rewrite Hnames. unfold bind. rewrite add_roles_run, change_roles_again.
  reflexivity.
Qed.

Lemma release_first_skips (stored_role : option Role) (member : Member)
    (target_id : string) (pre rest : list StoredDrone.t) (w : World) :
  (forall row, In row pre -> StoredDrone.target_id row <> target_id) ->
  release_first stored_role member (Some target_id) (pre ++ rest) w
  = release_first stored_role member (Some target_id) rest w.
Proof.
  induction pre as [|d pre IH]; intro H; [reflexivity|].
  cbn [app release_first option_string_eqb].
  replace (String.eqb (StoredDrone.target_id d) target_id) with false.
  - apply IH. intros x Hx. apply H. now right.
  - symmetry. apply String.eqb_neq. apply H. now left.
Qed.

Lemma filter_keeps_all {A} (keep : A -> bool) (l : list A) :
  (forall x, In x l -> keep x = true) -> filter keep l = l.
Proof.
  intro H. induction l as [|a l IH]; [reflexivity|]. cbn [filter].
  rewrite (H a) by now left. f_equal. apply IH. intros x Hx. apply H. now right.
Qed.

(** X9. Stored and released by hand, a member is back where it was.  In a
    guild whose roles are known by their ids and by their names, whose
    members have distinct ids, and which has the stored role and the
    chambers channel, take a store command in order: it stores the first
    member carrying the target and holding the drone role.  If that member
    did not hold the stored role, had a removable role, none with a bar in
    its name, and the id drawn for the row is new, then a release message of
    an elevated member that mentions the stored member returns [True] at
    once, whatever the release time: the row is gone, the table is as it
    was before the store, the other members are untouched and the member
    holds exactly the roles it held. *)
Theorem store_then_release_restores
    (cfg : Config) (message released : Message) (w : World)
    (drone_id target_id time purpose : string)
    (stored : Role) (c : string) (pre post : list Member) (member mentioned : Member)
    (others : list Member) :
  match_format (decimal cfg) (content message) = Some (drone_id, target_id, time, purpose) ->
  (forall row, In row (storage w) -> StoredDrone.target_id row <> target_id) ->
  0 < int (decimal cfg) time <= 24 ->
  get_role (guild_roles w) (STORED cfg) = Some stored ->
  get_channel (guild_channels w) (STORAGE_CHAMBERS cfg) = Some c ->
  guild_members w = (pre ++ member :: post)%list ->
  (forall m, In m pre ->
     storable cfg (get_role (guild_roles w) (DRONE cfg)) target_id m = false) ->
  storable cfg (get_role (guild_roles w) (DRONE cfg)) target_id member = true ->
  ids_faithful (guild_roles w) ->
  NoDup (map role_name (guild_roles w)) ->
  NoDup (map member_id (guild_members w)) ->
  incl (roles member) (guild_roles w) ->
  ~ In stored (roles member) ->
  filter_out_non_removable_roles cfg (roles member) <> [] ->
  (forall r, In r (filter_out_non_removable_roles cfg (roles member)) ->
     occurs bar (role_name r) = false) ->
  (forall row, In row (storage w) ->
     StoredDrone.id row <> uuid_stream cfg (uuid_calls w)) ->
  startswith (lower (content released)) "release" = true ->
  has_role (author released) (HIVE_MXTRESS cfg) = true ->
  mentions released = mentioned :: others ->
  member_id mentioned = member_id member ->
  get_id cfg (display_name mentioned) = Some target_id ->
  exists w1 w2 rs',
    store cfg message w = Ok false w1
    /\ release cfg released w1 = Ok true w2
    /\ storage w2 = storage w
    /\ guild_members w2
       = map (fun m => if member_id m =? member_id member then with_roles m rs' else m)
             (guild_members w)
    /\ forall r, In r rs' <-> In r (roles member).
Proof.
  intros Hm Hfree Hh Hs Hc Hms Hpre Hmem Hf Hnames Hids Hincl Hns Hne Hbar Hfresh
         Hstart Hrole Hmen Hmid Hgid.
  set (former := filter_out_non_removable_roles cfg (roles member)) in *.
  set (w1 := world_after_store cfg w stored c drone_id target_id time purpose member).
  set (row := stored_row cfg w drone_id target_id time purpose member).
  assert (incl former (guild_roles w)) as Hfin.
  { intros y Hy. apply Hincl. unfold former in Hy.
    apply filter_out_non_removable_roles_spec in Hy. tauto. }
  assert (In stored (guild_roles w)) as Hsin.
  { unfold get_role in Hs. apply find_some in Hs. tauto. }
  assert (get_roles_for_names w1 (split bar (StoredDrone.roles row)) = map Some former)
    as Hback.
  { change (StoredDrone.roles row) with (join "|" (get_names_for_roles former)).
    unfold get_names_for_roles. rewrite split_join.
    - now apply get_roles_for_names_of_roles.
    - destruct former; [congruence|discriminate].
    - intros n Hn. apply in_map_iff in Hn. destruct Hn as (r & <- & Hr). auto. }
  exists w1.
  eexists. exists (roles_after_release stored former (roles member)).
  split; [now apply (store_stores_first_match_run cfg message w drone_id target_id time
                       purpose stored c pre post member)|].
  split; [|split; [|split]].
  - unfold release. rewrite Hstart, Hrole. cbn [negb]. unfold bind, gets.
    rewrite Hmen, Hgid. unfold get_stored_drones, gets.
    change (storage w1) with (storage w ++ [row])%list.
    rewrite release_first_skips by assumption.
    cbn [release_first option_string_eqb].
    change (StoredDrone.target_id row) with target_id. rewrite String.eqb_refl.
    unfold bind. change (get_role (guild_roles w1) (STORED cfg))
      with (get_role (guild_roles w) (STORED cfg)).
    rewrite Hs, (restore_member_run stored row mentioned former w1 Hback).
    reflexivity.
  - cbn [storage set_storage]. change (storage w1) with (storage w ++ [row])%list.
    rewrite filter_app. cbn [filter]. rewrite String.eqb_refl. cbn [negb].
    rewrite app_nil_r. apply filter_keeps_all. intros x Hx.
    apply negb_true_iff, String.eqb_neq. now apply Hfresh.
  - cbn [guild_members set_storage set_members].
    change (guild_members w1)
      with (map (change_roles (member_id member) (roles_in_storage stored former))
                (guild_members w)).
    rewrite Hmid, map_map. apply map_ext_in. intros m Hin.
    rewrite change_roles_twice. unfold change_roles.
    destruct (member_id m =? member_id member) eqn:E; [|reflexivity].
    apply Z.eqb_eq in E.
    assert (m = member) as ->.
    { apply (NoDup_map_inj member_id (guild_members w)); auto.
      rewrite Hms. apply in_elt. }
    reflexivity.
  - intro r. apply (roles_after_release_In cfg (guild_roles w)); assumption.
Qed.

(** ** What a handler or a scan can do to a table *)

Lemma only_deletes_refl {Row} (table : World -> list Row) (w : World) :
  only_deletes table w w.
Proof.
  split; [reflexivity|]. exists (fun _ => true). symmetry. now apply filter_keeps_all.
Qed.

Lemma only_deletes_trans {Row} (table : World -> list Row) (a b c : World) :
  only_deletes table a b -> only_deletes table b c -> only_deletes table a c.
Proof.
  intros [Hc1 (k1 & H1)] [Hc2 (k2 & H2)]. split; [congruence|].
  exists (fun x => k1 x && k2 x). now rewrite H2, H1, filter_twice.
Qed.

Lemma only_deletes_same {Row} (table : World -> list Row) (w w' : World) :
  clock w' = clock w -> table w' = table w -> only_deletes table w w'.
Proof.
  intros Hc Ht. split; [assumption|]. exists (fun _ => true).
  rewrite Ht. symmetry. now apply filter_keeps_all.
Qed.

Ltac deleting table :=
  respecting (only_deletes_refl table) (only_deletes_trans table)
    ltac:(first
      [ apply only_deletes_same; reflexivity
      | split; [reflexivity|eexists; reflexivity]
      | apply (respects_send _ (only_deletes_refl table));
        intros; apply only_deletes_same; reflexivity
      | apply (respects_remove_roles _ (only_deletes_refl table) (only_deletes_trans table));
        intros; apply only_deletes_same; reflexivity
      | apply (respects_add_roles _ (only_deletes_refl table) (only_deletes_trans table));
        intros; apply only_deletes_same; reflexivity
      | assumption
      | match goal with H : _ |- _ => apply H end ]).

Lemma scan_orders_only_deletes (cfg : Config) (ch : option string) :
  respects (only_deletes orders) (scan_orders cfg ch).
Proof.
  unfold scan_orders, fetch_all_drone_orders, check_order, datetime_now,
    deactivate_if_member, delete_drone_order. deleting orders.
Qed.

Lemma release_search_only_deletes (cfg : Config) (stored_role : option Role)
    (stored : StoredDrone.t) (members : list Member) :
  respects (only_deletes storage) (release_search cfg stored_role stored members).
Proof.
  induction members as [|m ms IH]; cbn [release_search];
    unfold restore_member, delete_stored_drone; deleting storage.
Qed.

Lemma scan_storage_only_deletes (cfg : Config) (stored_role : option Role) :
  respects (only_deletes storage) (scan_storage cfg stored_role).
Proof.
  pose proof (release_search_only_deletes cfg) as H.
  unfold scan_storage, datetime_now, get_stored_drones, release_if_due. deleting storage.
Qed.

Lemma release_first_only_deletes (stored_role : option Role) (member : Member)
    (to_release_id : option string) (drones : list StoredDrone.t) :
  respects (only_deletes storage) (release_first stored_role member to_release_id drones).
Proof.
  induction drones as [|d ds IH]; cbn [release_first];
    unfold restore_member, delete_stored_drone; deleting storage.
Qed.

Lemma release_only_deletes (cfg : Config) (message : Message) :
  respects (only_deletes storage) (release cfg message).
Proof.
  pose proof release_first_only_deletes as H.
  unfold release, get_stored_drones. deleting storage.
Qed.

(** X10. The releases never write a row: after the manual release, and
    after a scan of the release loop, however they end, no time has passed
    and the [storage] table is what it was less the rows deleted; the same
    holds of the [orders] table after a scan of the expiry loop. *)
Theorem releases_only_delete (cfg : Config) :
  (forall message w,
      only_deletes storage w (world_of (release cfg message w)))
  /\ (forall stored_role w,
        only_deletes storage w (world_of (scan_storage cfg stored_role w)))
  /\ (forall ch w,
        only_deletes orders w (world_of (scan_orders cfg ch w))).
Proof.
  split; [|split].
  - intros message w. apply release_only_deletes.
  - intros stored_role w. apply scan_storage_only_deletes.
  - intros ch w. apply scan_orders_only_deletes.
Qed.

Lemma store_search_table (cfg : Config) (message : Message)
    (stored_role drone_role : option Role) (drone_id target_id time purpose : string)
    (members : list Member) (w : World) :
  let w' := world_of (store_search cfg message stored_role drone_role
                        drone_id target_id time purpose members w) in
  clock w' = clock w /\ orders w' = orders w
  /\ (storage w' = storage w
      \/ exists member,
           In member members
           /\ storage w'
              = (storage w ++ [stored_row cfg w drone_id target_id time purpose member])%list).
Proof.
  induction members as [|m ms IH]; cbn [store_search].
  - cbn. auto.
  - destruct (option_string_eqb (get_id cfg (display_name m)) (Some target_id)
              && role_in drone_role (roles m)).
    + rewrite store_member_outcome.
      destruct stored_role as [stored|]; [|cbn; auto].
      destruct (get_channel (guild_channels w) (STORAGE_CHAMBERS cfg)) as [c|];
        cbn; (split; [reflexivity|]); (split; [reflexivity|]); right; exists m;
        (split; [now left|reflexivity]).
    + destruct IH as (Hc & Ho & [Hs|(member & Hin & Hs)]); cbv zeta.
      * auto.
      * split; [assumption|]. split; [assumption|]. right. exists member.
        split; [now right|assumption].
Qed.

(** the whole of what [store] can do to the tables and the clock *)
Lemma store_table (cfg : Config) (message : Message) (w : World) :
  let w' := world_of (store cfg message w) in
  clock w' = clock w /\ orders w' = orders w
  /\ (storage w' = storage w
      \/ exists drone_id target_id time purpose member,
           match_format (decimal cfg) (content message) = Some (drone_id, target_id, time, purpose)
           /\ (forall row, In row (storage w) -> StoredDrone.target_id row <> target_id)
           /\ 0 < int (decimal cfg) time <= 24
           /\ In member (guild_members w)
           /\ storage w'
              = (storage w ++ [stored_row cfg w drone_id target_id time purpose member])%list).
Proof.
  unfold store, bind, gets, get_stored_drones, gets.
  destruct (String.eqb (lower (content message)) "help"); [cbn; auto|].
  destruct (match_format (decimal cfg) (content message)) as [[[[d t] h] p]|] eqn:Hm; [|cbn; auto].
  destruct (existsb _ (storage w)) eqn:Hex; [cbn; auto|].
  destruct ((0 <? int (decimal cfg) h) && (int (decimal cfg) h <=? 24)) eqn:Hh; [|cbn; auto].
  cbn [negb].
  destruct (store_search_table cfg message (get_role (guild_roles w) (STORED cfg))
              (get_role (guild_roles w) (DRONE cfg)) d t h p (guild_members w) w)
    as (Hc & Ho & [Hs|(member & Hin & Hs)]); cbv zeta.
  - auto.
  - split; [assumption|]. split; [assumption|]. right. exists d, t, h, p, member.
    split; [reflexivity|]. split; [|split; [|split; assumption]].
    + intros row Hrow E.
      assert (existsb (fun stored => String.eqb (StoredDrone.target_id stored) t) (storage w)
              = true); [|congruence].
      apply existsb_exists. exists row. split; [assumption|]. now apply String.eqb_eq.
    + apply andb_true_iff in Hh. rewrite Z.ltb_lt, Z.leb_le in Hh. exact Hh.
Qed.

Lemma hours_mono (a b : Z) : a <= b -> hours a <= hours b.
Proof. unfold hours, minutes, seconds. lia. Qed.

Lemma hours_positive (a : Z) : 0 < a -> 0 < hours a.
Proof. unfold hours, minutes, seconds. lia. Qed.

Lemma minutes_mono (a b : Z) : a <= b -> minutes a <= minutes b.
Proof. unfold minutes, seconds. lia. Qed.

Lemma minutes_positive (a : Z) : 0 < a -> 0 < minutes a.
Proof. unfold minutes, seconds. lia. Qed.

(** X11. Whatever the message and however the handler ends, [store]
    deletes and rewrites no row: the [storage] table afterwards is the table
    before, or the table before with one row appended.  That row is for a
    target that had none, carries the parts of the command, and its release
    time lies after the time of the call and at most 24 hours after it. *)
Theorem store_appends_at_most_one_row (cfg : Config) (message : Message) (w : World) :
  let w' := world_of (store cfg message w) in
  storage w' = storage w
  \/ exists row drone_id target_id time purpose,
       storage w' = (storage w ++ [row])%list
       /\ match_format (decimal cfg) (content message) = Some (drone_id, target_id, time, purpose)
       /\ StoredDrone.drone_id row = drone_id
       /\ StoredDrone.target_id row = target_id
       /\ StoredDrone.purpose row = purpose
       /\ (forall old, In old (storage w) -> StoredDrone.target_id old <> target_id)
       /\ clock w < StoredDrone.release_time row <= clock w + hours 24.
Proof.
  destruct (store_table cfg message w)
    as (_ & _ & [Hs|(d & t & h & p & member & Hm & Hfree & Hh & _ & Hs)]); cbv zeta.
  - now left.
  - right. exists (stored_row cfg w d t h p member), d, t, h, p.
    repeat (split; [first [assumption|reflexivity]|]).
    cbn [stored_row StoredDrone.release_time].
    pose proof (hours_positive (int (decimal cfg) h) (proj1 Hh)).
    pose proof (hours_mono (int (decimal cfg) h) 24 (proj2 Hh)). lia.
Qed.

(** the whole of what [report_order] can do to the tables and the clock *)
Lemma report_order_table (cfg : Config) (context : Context)
    (protocol_name : string) (protocol_time : Z) (w : World) :
  let w' := world_of (report_order cfg context protocol_name protocol_time w) in
  clock w' = clock w /\ storage w' = storage w
  /\ (orders w' = orders w
      \/ exists drone_id,
           get_id cfg (display_name (ctx_author context)) = Some drone_id
           /\ ~ In drone_id (map ActiveOrder.drone_id (orders w))
           /\ 1 <= protocol_time <= 120
           /\ orders w'
              = (orders w ++
                 [{| ActiveOrder.id := uuid_stream cfg (uuid_calls w);
                     ActiveOrder.drone_id := drone_id;
                     ActiveOrder.protocol := protocol_name;
                     ActiveOrder.finish_time := clock w + minutes protocol_time |}])%list).
Proof.
  unfold report_order.
  destruct (get_id cfg (display_name (ctx_author context))) as [d|]; [|cbn; auto].
  unfold bind, get_order_by_drone_id, gets.
  destruct (find _ (orders w)) as [cur|] eqn:F; [cbn; auto|].
  destruct ((protocol_time >? 120) || (protocol_time <? 1)) eqn:E; [cbn; auto|].
  cbn. split; [reflexivity|]. split; [reflexivity|]. right. exists d.
  split; [reflexivity|]. split; [now apply find_none_not_in|]. split; [|reflexivity].
  apply orb_false_iff in E. rewrite Z.gtb_ltb, !Z.ltb_ge in E. lia.
Qed.

(** X12. Whatever its arguments, [report_order] deletes and rewrites no
    order: the [orders] table afterwards is the table before, or the table
    before with one order appended.  That order is for the invoker, who had
    none, under the protocol named, and its finish time lies after the time
    of the call and at most 120 minutes after it. *)
Theorem report_order_appends_at_most_one_order
    (cfg : Config) (context : Context) (protocol_name : string) (protocol_time : Z)
    (w : World) :
  let w' := world_of (report_order cfg context protocol_name protocol_time w) in
  orders w' = orders w
  \/ exists order,
       orders w' = (orders w ++ [order])%list
       /\ get_id cfg (display_name (ctx_author context))
          = Some (ActiveOrder.drone_id order)
       /\ ActiveOrder.protocol order = protocol_name
       /\ (forall old, In old (orders w) ->
             ActiveOrder.drone_id old <> ActiveOrder.drone_id order)
       /\ clock w < ActiveOrder.finish_time order <= clock w + minutes 120.
Proof.
  destruct (report_order_table cfg context protocol_name protocol_time w)
    as (_ & _ & [Ho|(d & Hid & Hnew & Ht & Ho)]); cbv zeta.
  - now left.
  - right. eexists. split; [exact Ho|].
    cbn [ActiveOrder.drone_id ActiveOrder.protocol ActiveOrder.finish_time].
    split; [assumption|]. split; [reflexivity|]. split.
    + intros old Hold E. apply Hnew. rewrite <- E. now apply in_map.
    + assert (0 < minutes protocol_time) by (apply minutes_positive; lia).
      assert (minutes protocol_time <= minutes 120) by (apply minutes_mono; lia).
      lia.
Qed.

(** ** Frames, for any part of the world a module does not write *)

Ltac framing_with part :=
  unfold preserves;
  respecting (same_refl part) (same_trans part)
    ltac:(first
      [ reflexivity
      | solve [auto]
      | apply (respects_send _ (same_refl part)); solve [auto]
      | apply (respects_uuid4 _ (same_refl part)); solve [auto]
      | apply (respects_remove_roles _ (same_refl part) (same_trans part)); solve [auto]
      | apply (respects_add_roles _ (same_refl part) (same_trans part)); solve [auto]
      | match goal with H : _ |- _ => apply H end ]).

Section StorageFrame.

Variable B : Type.
Variable part : World -> B.
Hypothesis part_outbox : forall w ob, part (set_outbox ob w) = part w.
Hypothesis part_members : forall w ms, part (set_members ms w) = part w.
Hypothesis part_storage : forall w ss, part (set_storage ss w) = part w.
Hypothesis part_uuid : forall w n, part (set_uuid_calls n w) = part w.
Variable cfg : Config.

Lemma release_search_frame (stored_role : option Role) (stored : StoredDrone.t)
    (members : list Member) :
  preserves part (release_search cfg stored_role stored members).
Proof.
  induction members as [|m ms IH]; cbn [release_search];
    unfold restore_member, delete_stored_drone; framing_with part.
Qed.

Lemma release_first_frame (stored_role : option Role) (member : Member)
    (to_release_id : option string) (drones : list StoredDrone.t) :
  preserves part (release_first stored_role member to_release_id drones).
Proof.
  induction drones as [|d ds IH]; cbn [release_first];
    unfold restore_member, delete_stored_drone; framing_with part.
Qed.

Lemma release_frame (message : Message) : preserves part (release cfg message).
Proof.
  pose proof release_first_frame as H.
  unfold release, get_stored_drones. framing_with part.
Qed.

Lemma scan_storage_frame (stored_role : option Role) :
  preserves part (scan_storage cfg stored_role).
Proof.
  pose proof release_search_frame as H.
  unfold scan_storage, datetime_now, get_stored_drones, release_if_due. framing_with part.
Qed.

Lemma scan_report_frame (storage_channel : option string) :
  preserves part (scan_report cfg storage_channel).
Proof. unfold scan_report, datetime_now, get_stored_drones. framing_with part. Qed.

End StorageFrame.

Section OrdersFrame.

Variable B : Type.
Variable part : World -> B.
Hypothesis part_outbox : forall w ob, part (set_outbox ob w) = part w.
Hypothesis part_orders : forall w os, part (set_orders os w) = part w.
Hypothesis part_uuid : forall w n, part (set_uuid_calls n w) = part w.
Variable cfg : Config.

Lemma scan_orders_frame (ch : option string) : preserves part (scan_orders cfg ch).
Proof.
  unfold scan_orders, fetch_all_drone_orders, check_order, datetime_now,
    deactivate_if_member, delete_drone_order. framing_with part.
Qed.

End OrdersFrame.

(** ** Invariants of the running bot *)

(** a call of an entry point, up to its loop, writes nothing but a flag *)
Lemma entry_call_tables (cfg : Config) (l : Loop) (w w' : World) (o : Outcome) :
  entry cfg l 0 w = Ok o w' ->
  clock w' = clock w /\ orders w' = orders w /\ storage w' = storage w.
Proof.
  destruct l; cbn [entry].
  - rewrite check_for_completed_orders_enters. intro H. injection H as <- <-. auto.
  - unfold release_timed, bind, gets. destruct (release_started w);
      cbn; intro H; injection H as <- <-; auto.
  - unfold report_storage, bind, gets. destruct (reporter_started w);
      cbn; intro H; injection H as <- <-; auto.
Qed.

(** a property of the world that the handlers, the scans, the calls of the
    entry points and the passing of time keep holds of the bot for good *)
Lemma reachable_invariant (cfg : Config) (P : World -> Prop) :
  (forall c w, P w -> P (world_of (handle cfg c w))) ->
  (forall t w, P w -> P (world_of (turn cfg t w))) ->
  (forall l w o w', entry cfg l 0 w = Ok o w' -> P w -> P w') ->
  (forall d w, 0 <= d -> P w -> P (set_clock (clock w + d) w)) ->
  forall p0 p, reachable cfg p0 p -> P (world p0) -> P (world p).
Proof.
  intros Hh Ht He Hd p0 p Hreach H0.
  induction Hreach as [|p q _ IH Hstep]; [assumption|].
  destruct Hstep as [l p w' E | l p w' E | n t p w' Hn E | n t p e w' Hn E | c p | d p Hpos];
    cbn [world].
  - exact (He _ _ _ _ E IH).
  - exact (He _ _ _ _ E IH).
  - specialize (Ht t (world p) IH). now rewrite E in Ht.
  - specialize (Ht t (world p) IH). now rewrite E in Ht.
  - now apply Hh.
  - now apply Hd.
Qed.

Lemma handle_tables (cfg : Config) (c : Command) (w : World) :
  let w' := world_of (handle cfg c w) in
  clock w' = clock w
  /\ (orders w' = orders w
      \/ exists order,
           orders w' = (orders w ++ [order])%list
           /\ ~ In (ActiveOrder.drone_id order) (map ActiveOrder.drone_id (orders w))
           /\ ActiveOrder.finish_time order <= clock w + minutes 120)
  /\ ((exists keep, storage w' = filter keep (storage w))
      \/ exists row,
           storage w' = (storage w ++ [row])%list
           /\ ~ In (StoredDrone.target_id row) (map StoredDrone.target_id (storage w))
           /\ StoredDrone.release_time row <= clock w + hours 24).
Proof.
  assert (forall A (c : M A), world_of (bind c (fun _ => ret tt) w) = world_of (c w))
    as Hbind by (intros A c0; unfold bind; now destruct (c0 w)).
  destruct c as [message|message|context name time]; cbn [handle].
  - rewrite (Hbind _ (store cfg message)).
    destruct (store_table cfg message w)
      as (Hc & Ho & [Hs|(d & t & h & p & member & Hm & Hfree & Hh & _ & Hs)]); cbv zeta.
    + split; [assumption|]. split; [now left|]. left. exists (fun _ => true).
      rewrite Hs. symmetry. now apply filter_keeps_all.
    + split; [assumption|]. split; [now left|]. right. eexists. split; [exact Hs|].
      cbn [stored_row StoredDrone.target_id StoredDrone.release_time]. split.
      * intro Hin. apply in_map_iff in Hin. destruct Hin as (row & E & Hin).
        exact (Hfree row Hin E).
      * pose proof (hours_mono (int (decimal cfg) h) 24 (proj2 Hh)). lia.
  - rewrite (Hbind _ (release cfg message)).
    destruct (release_only_deletes cfg message w) as [Hc Hk].
    split; [assumption|]. split; [|now left]. left.
    assert (preserves orders (release cfg message)) as H
      by (apply release_frame; intros; reflexivity).
    exact (H w).
  - destruct (report_order_table cfg context name time w)
      as (Hc & Hs & [Ho|(d & Hid & Hnew & Ht & Ho)]); cbv zeta.
    + split; [assumption|]. split; [now left|]. left. exists (fun _ => true).
      rewrite Hs. symmetry. now apply filter_keeps_all.
    + split; [assumption|]. split.
      * right. eexists. split; [exact Ho|].
        cbn [ActiveOrder.drone_id ActiveOrder.finish_time]. split; [assumption|].
        pose proof (minutes_mono time 120 (proj2 Ht)). lia.
      * left. exists (fun _ => true). rewrite Hs. symmetry. now apply filter_keeps_all.
Qed.

Lemma turn_tables (cfg : Config) (t : Task) (w : World) :
  let w' := world_of (turn cfg t w) in
  clock w' = clock w
  /\ (exists keep, orders w' = filter keep (orders w))
  /\ (exists keep, storage w' = filter keep (storage w)).
Proof.
  assert (forall A (l l' : list A), l' = l -> exists keep, l' = filter keep l) as Hsame.
  { intros A l l' ->. exists (fun _ => true). symmetry. now apply filter_keeps_all. }
  destruct t as [ch|r|ch]; cbn [turn]; cbv zeta.
  - destruct (scan_orders_only_deletes cfg ch w) as [Hc Hk].
    split; [assumption|]. split; [assumption|]. apply Hsame.
    assert (preserves storage (scan_orders cfg ch)) as H
      by (apply scan_orders_frame; intros; reflexivity).
    exact (H w).
  - destruct (scan_storage_only_deletes cfg r w) as [Hc Hk].
    split; [assumption|]. split; [|assumption]. apply Hsame.
    assert (preserves orders (scan_storage cfg r)) as H
      by (apply scan_storage_frame; intros; reflexivity).
    exact (H w).
  - assert (preserves (fun w => (clock w, orders w, storage w)) (scan_report cfg ch)) as H
      by (apply scan_report_frame; intros; reflexivity).
    specialize (H w). cbv beta in H. injection H as H1 H2 H3.
    split; [assumption|]. split; now apply Hsame.
Qed.

(** X13. One order per participant, as long as the handlers and the scans
    run one at a time, each to its end before the next: if no two orders of
    the table are of the same participant, this stays so whatever commands
    arrive, whichever entry points are called, whichever loops take their
    turn or die, and however time passes. *)
Theorem one_order_each_always (cfg : Config) (p0 p : Process) :
  reachable cfg p0 p -> one_order_each (world p0) -> one_order_each (world p).
Proof.
  apply (reachable_invariant cfg one_order_each); unfold one_order_each.
  - intros c w H. destruct (handle_tables cfg c w) as (_ & [Ho|(o & Ho & Hnew & _)] & _);
      rewrite Ho; [assumption|].
    rewrite map_app. now apply NoDup_snoc.
  - intros t w H. destruct (turn_tables cfg t w) as (_ & (keep & Ho) & _).
    rewrite Ho. now apply distinct_keys_after_delete.
  - intros l w o w' E H. destruct (entry_call_tables cfg l w w' o E) as (_ & Ho & _).
    now rewrite Ho.
  - intros d w _ H. exact H.
Qed.

(** X14. One stored row per target, as long as the handlers and the scans
    run one at a time, each to its end before the next: if no two rows of
    the [storage] table are of the same target, this stays so whatever
    commands arrive, whichever entry points are called, whichever loops take
    their turn or die, and however time passes. *)
Theorem one_row_each_always (cfg : Config) (p0 p : Process) :
  reachable cfg p0 p -> one_row_each (world p0) -> one_row_each (world p).
Proof.
  apply (reachable_invariant cfg one_row_each); unfold one_row_each.
  - intros c w H.
    destruct (handle_tables cfg c w) as (_ & _ & [(keep & Hs)|(row & Hs & Hnew & _)]);
      rewrite Hs.
    + now apply distinct_keys_after_delete.
    + rewrite map_app. now apply NoDup_snoc.
  - intros t w H. destruct (turn_tables cfg t w) as (_ & _ & (keep & Hs)).
    rewrite Hs. now apply distinct_keys_after_delete.
  - intros l w o w' E H. destruct (entry_call_tables cfg l w w' o E) as (_ & _ & Hs).
    now rewrite Hs.
  - intros d w _ H. exact H.
Qed.

(** X15. No order lies more than 120 minutes ahead: if every order of the
    table finishes at most 120 minutes after the clock, this stays so in
    every state the bot reaches by handlers and scans run one at a time. *)
Theorem orders_within_always (cfg : Config) (p0 p : Process) :
  reachable cfg p0 p -> orders_within (world p0) -> orders_within (world p).
Proof.
  apply (reachable_invariant cfg orders_within); unfold orders_within.
  - intros c w H o Hin.
    destruct (handle_tables cfg c w) as (Hc & [Ho|(new & Ho & _ & Hnew)] & _);
      rewrite Ho in Hin; rewrite Hc.
    + now apply H.
    + apply in_app_iff in Hin. destruct Hin as [Hin|[<-|[]]]; [now apply H|assumption].
  - intros t w H o Hin. destruct (turn_tables cfg t w) as (Hc & (keep & Ho) & _).
    rewrite Ho in Hin. apply filter_In in Hin. rewrite Hc. apply H. tauto.
  - intros l w o w' E H x Hin.
    destruct (entry_call_tables cfg l w w' o E) as (Hc & Ho & _).
    rewrite Ho in Hin. rewrite Hc. now apply H.
  - intros d w Hd H o Hin. cbn [orders clock set_clock] in *. specialize (H o Hin). lia.
Qed.

(** X16. No stored row lies more than 24 hours ahead: if every row of the
    [storage] table is to be released at most 24 hours after the clock, this
    stays so in every state the bot reaches by handlers and scans run one at
    a time. *)
Theorem storage_within_always (cfg : Config) (p0 p : Process) :
  reachable cfg p0 p -> storage_within (world p0) -> storage_within (world p).
Proof.
  apply (reachable_invariant cfg storage_within); unfold storage_within.
  - intros c w H s Hin.
    destruct (handle_tables cfg c w) as (Hc & _ & [(keep & Hs)|(row & Hs & _ & Hnew)]);
      rewrite Hs in Hin; rewrite Hc.
    + apply filter_In in Hin. apply H. tauto.
    + apply in_app_iff in Hin. destruct Hin as [Hin|[<-|[]]]; [now apply H|assumption].
  - intros t w H s Hin. destruct (turn_tables cfg t w) as (Hc & _ & (keep & Hs)).
    rewrite Hs in Hin. apply filter_In in Hin. rewrite Hc. apply H. tauto.
  - intros l w o w' E H x Hin.
    destruct (entry_call_tables cfg l w w' o E) as (Hc & _ & Hs).
    rewrite Hs in Hin. rewrite Hc. now apply H.
  - intros d w Hd H s Hin. cbn [storage clock set_clock] in *. specialize (H s Hin). lia.
Qed.

(** ** The scans, in full *)

Lemma set_orders_outbox_same (w : World) :
  set_orders (orders w) (set_outbox (outbox w ++ []) w) = w.
Proof. destruct w. unfold set_orders, set_outbox. cbn. now rewrite app_nil_r. Qed.

Lemma deactivate_members_run (cfg : Config) (c : string) (order : ActiveOrder.t)
    (ms : list Member) (w : World) :
  for_each ms (deactivate_if_member cfg (Some c) order) w
  = Ok tt
      (set_orders
         (if matched cfg ms order
          then filter (fun o => negb (String.eqb (ActiveOrder.id o) (ActiveOrder.id order)))
                      (orders w)
          else orders w)
         (set_outbox
            (outbox w ++
             map (fun m => (c, deactivate_text m order))
                 (filter (fun m => option_string_eqb (get_id cfg (display_name m))
                                                     (Some (ActiveOrder.drone_id order))) ms))
            w)).
Proof.
  revert w. induction ms as [|m ms IH]; intro w.
  - cbn. unfold ret. now rewrite set_orders_outbox_same.
  - cbn [for_each matched existsb filter]. unfold bind, deactivate_if_member at 1.
    destruct (option_string_eqb (get_id cfg (display_name m))
                                (Some (ActiveOrder.drone_id order))) eqn:E.
    + cbv [send bind modify delete_drone_order]. rewrite IH.
      fold (matched cfg ms order). cbn [orb map].
      f_equal. unfold set_orders, set_outbox. cbn. f_equal.
      * destruct (matched cfg ms order); [|reflexivity].
        rewrite filter_twice. apply filter_ext. intro a. now rewrite andb_diag.
      * now rewrite <- app_assoc.
    + unfold ret. rewrite IH. reflexivity.
Qed.

Lemma scan_orders_run (cfg : Config) (c : string) (os : list ActiveOrder.t) (w : World) :
  for_each os (check_order cfg (Some c)) w
  = Ok tt
      (set_orders
         (filter (fun o => negb (removed cfg (clock w) (guild_members w) os o)) (orders w))
         (set_outbox (outbox w ++ notices cfg c (clock w) (guild_members w) os) w)).
Proof.
  revert w. induction os as [|o2 os IH]; intro w.
  - cbn. unfold ret. rewrite <- (set_orders_outbox_same w) at 1. f_equal. f_equal.
    symmetry. now apply filter_keeps_all.
  - cbn [for_each]. unfold bind, check_order at 1, datetime_now, gets. unfold bind.
    unfold removed, notices. cbn [existsb flat_map].
    fold (removed cfg (clock w) (guild_members w) os).
    fold (notices cfg c (clock w) (guild_members w) os).
    destruct (ActiveOrder.finish_time o2 <? clock w) eqn:Due.
    + rewrite deactivate_members_run, IH. cbn [andb].
      f_equal. unfold set_orders, set_outbox. cbn. f_equal.
      * destruct (matched cfg (guild_members w) o2).
        -- rewrite filter_twice. apply filter_ext. intro a. cbn [andb].
           now rewrite negb_orb.
        -- reflexivity.
      * now rewrite <- app_assoc.
    + unfold ret. rewrite IH. reflexivity.
Qed.

(** X17. A scan of the orders, with the reporting channel in place, in
    full: it returns; it has sent, in the order of the table and of the
    member list, one deactivation notice for every order past its finish
    time and every member carrying that order's participant identifier;
    it has deleted the rows that share the id of an order so noticed; and
    it has changed nothing else. *)
Theorem scan_orders_in_full (cfg : Config) (c : string) (w : World) :
  scan_orders cfg (Some c) w
  = Ok tt
      (set_orders
         (filter (fun o => negb (removed cfg (clock w) (guild_members w) (orders w) o))
                 (orders w))
         (set_outbox
            (outbox w ++ notices cfg c (clock w) (guild_members w) (orders w)) w)).
Proof.
  unfold scan_orders, bind, fetch_all_drone_orders, gets. apply scan_orders_run.
Qed.

Lemma deactivate_nobody (cfg : Config) (ch : option string) (order : ActiveOrder.t)
    (ms : list Member) (w : World) :
  matched cfg ms order = false ->
  for_each ms (deactivate_if_member cfg ch order) w = Ok tt w.
Proof.
  induction ms as [|m ms IH]; [reflexivity|].
  cbn [matched existsb]. rewrite orb_false_iff. intros [Hm Hms].
  cbn [for_each]. unfold bind, deactivate_if_member at 1. rewrite Hm. unfold ret.
  now apply IH.
Qed.

Lemma scan_orders_idle (cfg : Config) (ch : option string) (os : list ActiveOrder.t)
    (w : World) :
  (forall o, In o os -> due_and_matched cfg (clock w) (guild_members w) o = false) ->
  for_each os (check_order cfg ch) w = Ok tt w.
Proof.
  induction os as [|o os IH]; intro H; [reflexivity|].
  cbn [for_each]. unfold bind, check_order at 1, datetime_now, gets. unfold bind.
  assert (due_and_matched cfg (clock w) (guild_members w) o = false) as Ho
    by (apply H; now left).
  unfold due_and_matched in Ho.
  destruct (ActiveOrder.finish_time o <? clock w).
  - cbn [andb] in Ho. rewrite (deactivate_nobody cfg ch o _ w Ho).
    apply IH. intros x Hx. apply H. now right.
  - unfold ret. apply IH. intros x Hx. apply H. now right.
Qed.

(** X18. A scan of the orders that finds no order both past its finish
    time and carried by a member does nothing at all: it returns and the
    world is untouched, and this with or without the reporting channel.
    Orders not yet due, and due orders of members who left, are what such
    a scan passes over. *)
Theorem scan_orders_nothing_to_do (cfg : Config) (ch : option string) (w : World) :
  (forall o, In o (orders w) ->
     due_and_matched cfg (clock w) (guild_members w) o = false) ->
  scan_orders cfg ch w = Ok tt w.
Proof.
  intro H. unfold scan_orders, bind, fetch_all_drone_orders, gets.
  now apply scan_orders_idle.
Qed.

(** X19. Scanning again at once is a no-op: in the world a scan of the
    orders has left, a second scan at the same time returns and changes
    nothing: no row is deleted twice and no notice is sent twice. *)
Theorem scan_orders_twice (cfg : Config) (c : string) (w w' : World) :
  scan_orders cfg (Some c) w = Ok tt w' ->
  scan_orders cfg (Some c) w' = Ok tt w'.
Proof.
  intro H. unfold scan_orders, bind, fetch_all_drone_orders, gets in *.
  rewrite scan_orders_run in H. injection H as <-.
  apply scan_orders_idle. cbn [orders clock guild_members set_orders set_outbox].
  intros o Hin. apply filter_In in Hin. destruct Hin as [Hin Hrem].
  apply negb_true_iff in Hrem. unfold due_and_matched.
  destruct ((ActiveOrder.finish_time o <? clock w) && matched cfg (guild_members w) o) eqn:E;
    [|reflexivity].
  exfalso. assert (removed cfg (clock w) (guild_members w) (orders w) o = true);
    [|congruence].
  unfold removed. apply existsb_exists. exists o. split; [assumption|].
  now rewrite E, String.eqb_refl.
Qed.

Lemma release_nobody (cfg : Config) (stored_role : option Role) (stored : StoredDrone.t)
    (ms : list Member) (w : World) :
  existsb (fun m => option_string_eqb (get_id cfg (display_name m))
                                      (Some (StoredDrone.target_id stored))) ms = false ->
  release_search cfg stored_role stored ms w = Ok tt w.
Proof.
  induction ms as [|m ms IH]; [reflexivity|].
  cbn [existsb]. rewrite orb_false_iff. intros [Hm Hms].
  cbn [release_search]. rewrite Hm. now apply IH.
Qed.

Lemma scan_storage_idle (cfg : Config) (stored_role : option Role) (now : Z)
    (rows : list StoredDrone.t) (w : World) :
  (forall s, In s rows -> releasable cfg now (guild_members w) s = false) ->
  for_each rows (release_if_due cfg stored_role now) w = Ok tt w.
Proof.
  induction rows as [|s rows IH]; intro H; [reflexivity|].
  cbn [for_each]. unfold bind, release_if_due at 1.
  assert (releasable cfg now (guild_members w) s = false) as Hs by (apply H; now left).
  unfold releasable in Hs.
  destruct (StoredDrone.release_time s <? now).
  - cbn [andb] in Hs. unfold bind, gets. rewrite (release_nobody cfg stored_role s _ w Hs).
    apply IH. intros x Hx. apply H. now right.
  - unfold ret. apply IH. intros x Hx. apply H. now right.
Qed.

(** X20. A scan of the release loop that finds no row both past its
    release time and carried by a member does nothing at all: it returns
    and the world is untouched, whether or not the guild has the stored
    role.  A row not yet due stays, and so does a due row whose target is
    carried by no member: it is looked at again by the next scan. *)
Theorem scan_storage_nothing_to_do (cfg : Config) (stored_role : option Role) (w : World) :
  (forall s, In s (storage w) ->
     releasable cfg (clock w) (guild_members w) s = false) ->
  scan_storage cfg stored_role w = Ok tt w.
Proof.
  intro H. unfold scan_storage, bind, datetime_now, get_stored_drones, gets.
  now apply scan_storage_idle.
Qed.

Lemma report_rows_run (cfg : Config) (c : string) (rows : list StoredDrone.t) (w : World) :
  for_each rows (fun stored => now <- datetime_now ;;
                               send (Some c) (report_text cfg stored now)) w
  = Ok tt (set_outbox
             (outbox w ++ map (fun s => (c, report_text cfg s (clock w))) rows) w).
Proof.
  revert w. induction rows as [|s rows IH]; intro w.
  - cbn. unfold ret. f_equal. destruct w. unfold set_outbox. cbn. now rewrite app_nil_r.
  - cbn [for_each map]. cbv [bind datetime_now gets send modify]. rewrite IH.
    f_equal. unfold set_outbox. cbn. f_equal. now rewrite <- app_assoc.
Qed.

(** X21. A scan of the report loop: with the chambers channel and an empty
    table it sends the one notice "No drones in storage."; with rows it
    sends one line per row, in the order of the table, due or not, each
    with the hours left at the time of the scan; in both cases it changes
    nothing but the outbox.  Without the channel it raises before anything
    is sent, rows or no rows. *)
Theorem scan_report_in_full (cfg : Config) (w : World) :
  (forall c,
      scan_report cfg (Some c) w
      = Ok tt (set_outbox
                 (outbox w ++
                  match storage w with
                  | [] => [(c, "No drones in storage.")]
                  | rows => map (fun s => (c, report_text cfg s (clock w))) rows
                  end) w))
  /\ scan_report cfg None w = Raised AttributeError w.
Proof.
  unfold scan_report, bind, get_stored_drones, gets. split.
  - intro c. destruct (storage w) as [|s rows] eqn:E; [reflexivity|].
    cbn [List.length Nat.eqb]. apply report_rows_run.
  - destruct (storage w) as [|s rows]; reflexivity.
Qed.

(** ** The release loop at work *)

Lemma release_search_skips (cfg : Config) (stored_role : option Role)
    (stored : StoredDrone.t) (pre rest : list Member) (w : World) :
  (forall m, In m pre ->
     get_id cfg (display_name m) <> Some (StoredDrone.target_id stored)) ->
  release_search cfg stored_role stored (pre ++ rest) w
  = release_search cfg stored_role stored rest w.
Proof.
  induction pre as [|m pre IH]; intro H; [reflexivity|].
  cbn [app release_search].
  replace (option_string_eqb (get_id cfg (display_name m))
                             (Some (StoredDrone.target_id stored))) with false.
  - apply IH. intros x Hx. apply H. now right.
  - symmetry. apply option_string_eqb_neq. apply H. now left.
Qed.

(** X23. What [store] takes from a member and what it leaves.  In a guild
    whose roles are known by their ids, a store command in order leaves the
    member it stores with exactly the roles of a protected name that the
    member held, and the stored role; the members of another id keep their
    roles. *)
Theorem store_strips_removable_roles
    (cfg : Config) (message : Message) (w : World)
    (drone_id target_id time purpose : string)
    (stored : Role) (c : string) (pre post : list Member) (member : Member) :
  match_format (decimal cfg) (content message) = Some (drone_id, target_id, time, purpose) ->
  (forall row, In row (storage w) -> StoredDrone.target_id row <> target_id) ->
  0 < int (decimal cfg) time <= 24 ->
  get_role (guild_roles w) (STORED cfg) = Some stored ->
  get_channel (guild_channels w) (STORAGE_CHAMBERS cfg) = Some c ->
  guild_members w = (pre ++ member :: post)%list ->
  (forall m, In m pre ->
     storable cfg (get_role (guild_roles w) (DRONE cfg)) target_id m = false) ->
  storable cfg (get_role (guild_roles w) (DRONE cfg)) target_id member = true ->
  ids_faithful (guild_roles w) ->
  incl (roles member) (guild_roles w) ->
  exists w1 rs',
    store cfg message w = Ok false w1
    /\ In (with_roles member rs') (guild_members w1)
    /\ (forall x, In x rs' <->
          (In x (roles member) /\ In (role_name x) (protected_names cfg)) \/ x = stored)
    /\ (forall m, In m (guild_members w) -> member_id m <> member_id member ->
          In m (guild_members w1)).
Proof.
  intros Hm Hfree Hh Hs Hc Hms Hpre Hmem Hf Hincl.
  assert (In stored (guild_roles w)) as Hsin.
  { unfold get_role in Hs. apply find_some in Hs. tauto. }
  exists (world_after_store cfg w stored c drone_id target_id time purpose member).
  exists (roles_in_storage stored (filter_out_non_removable_roles cfg (roles member))
            (roles member)).
  split; [now apply (store_stores_first_match_run cfg message w drone_id target_id time
                       purpose stored c pre post member)|].
  unfold world_after_store. cbn [guild_members set_outbox set_storage set_uuid_calls set_members].
  split; [|split].
  - apply in_map_iff. exists member. split.
    + unfold change_roles. now rewrite Z.eqb_refl.
    + rewrite Hms. apply in_elt.
  - intro x. now apply (roles_in_storage_In cfg (guild_roles w)).
  - intros m Hin Hne. apply in_map_iff. exists m. split; [|assumption].
    unfold change_roles. apply Z.eqb_neq in Hne. now rewrite Hne.
Qed.

(** ** The further properties on the sample guild *)

Lemma sample_ids_faithful : ids_faithful (guild_roles Sample.guild).
Proof.
  intros a b Ha Hb E. cbn in Ha, Hb.
  repeat (destruct Ha as [<-|Ha]; [|]); try contradiction;
    repeat (destruct Hb as [<-|Hb]; [|]); try contradiction;
    first [reflexivity|discriminate].
Defined.

Lemma store_rejects_stored_target_witness :
  store Sample.cfg
    (Sample.facility_message "5678 :: 1234 :: 99 :: again" Sample.drone5678 [])
    Sample.vault
  = Ok true (set_outbox [("storage-facility", "1234 is already in storage.")] Sample.vault).
Proof.
  apply (store_rejects_stored_target Sample.cfg
           (Sample.facility_message "5678 :: 1234 :: 99 :: again" Sample.drone5678 [])
           Sample.vault "5678" "1234" "99" "again" Sample.stored_1234).
  - reflexivity.
  - now left.
  - reflexivity.
Defined.

Lemma store_reports_missing_target_witness :
  store Sample.cfg
    (Sample.facility_message "1234 :: 4321 :: 2 :: resting" Sample.drone1234 [])
    Sample.guild
  = Ok true (set_outbox [("storage-facility", "Drone with ID 4321 could not be found.")]
                        Sample.guild).
Proof.
  apply (store_reports_missing_target Sample.cfg
           (Sample.facility_message "1234 :: 4321 :: 2 :: resting" Sample.drone1234 [])
           Sample.guild "1234" "4321" "2" "resting").
  - reflexivity.
  - intros row [].
  - cbv. split; congruence.
  - intros m [<-|[<-|[<-|[]]]]; reflexivity.
Defined.

Lemma store_stores_first_match_witness :
  store Sample.cfg Sample.store_1234 Sample.guild
  = Ok false (world_after_store Sample.cfg Sample.guild Sample.stored "storage-chambers"
                "1234" "1234" "2" "resting" Sample.drone1234).
Proof.
  apply (store_stores_first_match Sample.cfg Sample.store_1234 Sample.guild
           "1234" "1234" "2" "resting" Sample.stored "storage-chambers"
           [Sample.the_mxtress] [Sample.drone5678] Sample.drone1234).
  - reflexivity.
  - intros row [].
  - cbv. split; congruence.
  - reflexivity.
  - reflexivity.
  - reflexivity.
  - intros m [<-|[]]. reflexivity.
  - reflexivity.
Defined.

Lemma saved_roles_resolve_back_witness :
  get_roles_for_names Sample.guild
    (split bar (join "|" (get_names_for_roles [Sample.drone; Sample.hexie])))
  = [Some Sample.drone; Some Sample.hexie].
Proof.
  apply (saved_roles_resolve_back Sample.guild [Sample.drone; Sample.hexie]).
  - distinct.
  - intros x [<-|[<-|[]]]; cbn; tauto.
  - discriminate.
  - intros r [<-|[<-|[]]]; reflexivity.
Defined.

Lemma store_then_release_restores_witness :
  exists w1 w2 rs',
    store Sample.cfg Sample.store_1234 Sample.guild = Ok false w1
    /\ release Sample.cfg Sample.release_1234 w1 = Ok true w2
    /\ storage w2 = storage Sample.guild
    /\ guild_members w2
       = map (fun m => if member_id m =? 100 then with_roles m rs' else m)
             (guild_members Sample.guild)
    /\ forall r, In r rs' <-> In r (roles Sample.drone1234).
Proof.
  apply (store_then_release_restores Sample.cfg Sample.store_1234 Sample.release_1234
           Sample.guild "1234" "1234" "2" "resting" Sample.stored "storage-chambers"
           [Sample.the_mxtress] [Sample.drone5678] Sample.drone1234 Sample.drone1234 []).
  - reflexivity.
  - intros row [].
  - cbv. split; congruence.
  - reflexivity.
  - reflexivity.
  - reflexivity.
  - intros m [<-|[]]. reflexivity.
  - reflexivity.
  - exact sample_ids_faithful.
  - distinct.
  - distinct.
  - intros x Hx. cbn in *. tauto.
  - cbn. intuition discriminate.
  - discriminate.
  - intros r [<-|[<-|[]]]; reflexivity.
  - intros row [].
  - reflexivity.
  - reflexivity.
  - reflexivity.
  - reflexivity.
  - reflexivity.
Defined.

Lemma store_strips_removable_roles_witness :
  exists w1 rs',
    store Sample.cfg Sample.store_1234 Sample.guild = Ok false w1
    /\ In (with_roles Sample.drone1234 rs') (guild_members w1)
    /\ (forall x, In x rs' <->
          (In x (roles Sample.drone1234)
           /\ In (role_name x) (protected_names Sample.cfg)) \/ x = Sample.stored)
    /\ (forall m, In m (guild_members Sample.guild) -> member_id m <> 100 ->
          In m (guild_members w1)).
Proof.
  apply (store_strips_removable_roles Sample.cfg Sample.store_1234 Sample.guild
           "1234" "1234" "2" "resting" Sample.stored "storage-chambers"
           [Sample.the_mxtress] [Sample.drone5678] Sample.drone1234).
  - reflexivity.
  - intros row [].
  - cbv. split; congruence.
  - reflexivity.
  - reflexivity.
  - reflexivity.
  - intros m [<-|[]]. reflexivity.
  - reflexivity.
  - exact sample_ids_faithful.
  - intros x Hx. cbn in *. tauto.
Defined.

Lemma scan_orders_nothing_to_do_witness :
  scan_orders Sample.cfg None (set_orders [Sample.orphan_order] (set_clock 10 Sample.guild))
  = Ok tt (set_orders [Sample.orphan_order] (set_clock 10 Sample.guild)).
Proof.
  apply scan_orders_nothing_to_do. intros o [<-|[]]. reflexivity.
Defined.

Lemma scan_orders_twice_witness :
  let w := set_orders [Sample.orphan_order; Sample.order_of_1234]
                      (set_clock 10 Sample.guild) in
  let w' := world_of (scan_orders Sample.cfg (Some "orders-reporting") w) in
  orders w' = [Sample.orphan_order]
  /\ scan_orders Sample.cfg (Some "orders-reporting") w' = Ok tt w'.
Proof.
  cbv zeta. split; [reflexivity|].
  apply (scan_orders_twice Sample.cfg "orders-reporting"
           (set_orders [Sample.orphan_order; Sample.order_of_1234]
                       (set_clock 10 Sample.guild))).
  reflexivity.
Defined.

Lemma scan_storage_nothing_to_do_witness :
  scan_storage Sample.cfg None Sample.vault = Ok tt Sample.vault.
Proof.
  apply scan_storage_nothing_to_do. intros s [<-|[<-|[]]]; reflexivity.
Defined.

(** the bot after an order of 1234 and a store command on 5678 *)
Lemma sample_run :
  reachable Sample.cfg Sample.boot
    {| world :=
         world_of (handle Sample.cfg
                     (StoreMessage (Sample.facility_message "1234 :: 5678 :: 24 :: late"
                                      Sample.drone1234 []))
                     (world_of (handle Sample.cfg
                                  (ReportOrder (Sample.order_context Sample.drone1234)
                                     "polishing" 120)
                                  Sample.guild)));
       tasks := [] |}.
Proof.
  eapply reach_step.
  - eapply reach_step; [apply reach_refl|].
    apply (step_command Sample.cfg
             (ReportOrder (Sample.order_context Sample.drone1234) "polishing" 120)
             Sample.boot).
  - apply (step_command Sample.cfg
             (StoreMessage (Sample.facility_message "1234 :: 5678 :: 24 :: late"
                              Sample.drone1234 []))
             {| world := world_of (handle Sample.cfg
                                     (ReportOrder (Sample.order_context Sample.drone1234)
                                        "polishing" 120)
                                     Sample.guild);
                tasks := [] |}).
Defined.

Lemma one_order_each_always_witness :
  exists p, reachable Sample.cfg Sample.boot p
            /\ List.length (orders (world p)) = 1%nat
            /\ one_order_each (world p).
Proof.
  eexists. split; [exact sample_run|]. split; [reflexivity|].
  apply (one_order_each_always Sample.cfg Sample.boot _ sample_run). constructor.
Defined.

Lemma one_row_each_always_witness :
  exists p, reachable Sample.cfg Sample.boot p
            /\ List.length (storage (world p)) = 1%nat
            /\ one_row_each (world p).
Proof.
  eexists. split; [exact sample_run|]. split; [reflexivity|].
  apply (one_row_each_always Sample.cfg Sample.boot _ sample_run). constructor.
Defined.

Lemma orders_within_always_witness :
  exists p, reachable Sample.cfg Sample.boot p
            /\ map ActiveOrder.finish_time (orders (world p)) = [minutes 120]
            /\ orders_within (world p).
Proof.
  eexists. split; [exact sample_run|]. split; [reflexivity|].
  apply (orders_within_always Sample.cfg Sample.boot _ sample_run). intros o [].
Defined.

Lemma storage_within_always_witness :
  exists p, reachable Sample.cfg Sample.boot p
            /\ map StoredDrone.release_time (storage (world p)) = [hours 24]
            /\ storage_within (world p).
Proof.
  eexists. split; [exact sample_run|]. split; [reflexivity|].
  apply (storage_within_always Sample.cfg Sample.boot _ sample_run). intros s [].
Defined.

(** ** The expiry scan and the reporting channel *)

Lemma deactivate_without_channel (cfg : Config) (order : ActiveOrder.t)
    (ms : list Member) (w : World) :
  matched cfg ms order = true ->
  for_each ms (deactivate_if_member cfg None order) w = Raised AttributeError w.
Proof.
  induction ms as [|m ms IH]; [discriminate|].
  cbn [matched existsb for_each]. unfold bind, deactivate_if_member at 1.
  destruct (option_string_eqb (get_id cfg (display_name m))
                              (Some (ActiveOrder.drone_id order))).
  - reflexivity.
  - cbn [orb]. unfold ret. exact IH.
Qed.

(** without the channel a scan gets as far as the first order that is due
    and carried by a member, and raises there, the world untouched *)
Lemma scan_orders_without_channel (cfg : Config) (os : list ActiveOrder.t) (w : World) :
  for_each os (check_order cfg None) w
  = if existsb (due_and_matched cfg (clock w) (guild_members w)) os
    then Raised AttributeError w
    else Ok tt w.
Proof.
  induction os as [|o os IH]; [reflexivity|].
  cbn [for_each existsb]. unfold bind, check_order at 1, datetime_now, gets. unfold bind.
  unfold due_and_matched at 1.
  destruct (ActiveOrder.finish_time o <? clock w); cbn [andb].
  - destruct (matched cfg (guild_members w) o) eqn:E.
    + now rewrite (deactivate_without_channel cfg o _ w E).
    + rewrite (deactivate_nobody cfg None o _ w E). exact IH.
  - unfold ret. exact IH.
Qed.

Lemma filter_keeps_none {A} (keep : A -> bool) (l : list A) :
  (forall x, In x l -> keep x = false) -> filter keep l = [].
Proof.
  intro H. induction l as [|a l IH]; [reflexivity|]. cbn [filter].
  rewrite (H a) by now left. apply IH. intros x Hx. apply H. now right.
Qed.

(** C1, as the code has it.  Take a row of the [orders] table whose
    [finish_time] is strictly before the time of a scan, the ids of the
    rows being pairwise distinct.  With the reporting channel in place the
    scan returns; the row is deleted by it exactly when some member of the
    guild carries the row's participant identifier, and every such member
    is named in a deactivation notice on the channel; the notices of the
    scan are one for each due order and each member carrying it, and no
    more, so that a row carried by no member gets none and stays in the
    table for the next scan.  Without the reporting channel the scan
    deletes no row and sends nothing: it returns if no due order is carried
    by a member, and raises at the first that is. *)
Theorem expired_order_deleted_iff_member
    (cfg : Config) (w : World) (order : ActiveOrder.t) :
  NoDup (map ActiveOrder.id (orders w)) ->
  In order (orders w) ->
  ActiveOrder.finish_time order < clock w ->
  (forall c, exists w',
      scan_orders cfg (Some c) w = Ok tt w'
      /\ (In order (orders w') <->
          forall member, In member (guild_members w) ->
            get_id cfg (display_name member) <> Some (ActiveOrder.drone_id order))
      /\ outbox w' = (outbox w ++ notices cfg c (clock w) (guild_members w) (orders w))%list
      /\ (forall member, In member (guild_members w) ->
            get_id cfg (display_name member) = Some (ActiveOrder.drone_id order) ->
            In (c, deactivate_text member order) (outbox w'))
      /\ ((forall member, In member (guild_members w) ->
             get_id cfg (display_name member) <> Some (ActiveOrder.drone_id order)) ->
          notices cfg c (clock w) (guild_members w) [order] = []))
  /\ scan_orders cfg None w
     = (if existsb (due_and_matched cfg (clock w) (guild_members w)) (orders w)
        then Raised AttributeError w
        else Ok tt w).
Proof.
  intros Hnd Hin Hdue. split.
  - intro c.
    destruct (expired_row_kept_iff_no_member cfg c w order Hnd Hin Hdue)
      as (w' & Hrun & Hiff).
    exists w'. split; [exact Hrun|]. split; [exact Hiff|].
    assert (outbox w'
            = (outbox w ++ notices cfg c (clock w) (guild_members w) (orders w))%list)
      as Hout.
    { unfold scan_orders, bind, fetch_all_drone_orders, gets in Hrun.
      rewrite scan_orders_run in Hrun. injection Hrun as <-. reflexivity. }
    split; [exact Hout|]. apply Z.ltb_lt in Hdue. split.
    + intros member Hmem Hid. rewrite Hout. apply in_or_app. right.
      unfold notices. apply in_flat_map. exists order. split; [assumption|].
      rewrite Hdue. apply (in_map (fun m => (c, deactivate_text m order))).
      apply filter_In. split; [assumption|].
      now apply option_string_eqb_eq.
    + intro Hno. unfold notices. cbn [flat_map]. rewrite Hdue, app_nil_r.
      rewrite filter_keeps_none; [reflexivity|].
      intros m Hm. apply option_string_eqb_neq. now apply Hno.
  - unfold scan_orders, bind, fetch_all_drone_orders, gets.
    apply scan_orders_without_channel.
Qed.

Lemma expired_order_deleted_iff_member_witness :
  let w := set_orders [Sample.orphan_order; Sample.order_of_1234]
                      (set_clock 10 Sample.guild) in
  (exists w',
     scan_orders Sample.cfg (Some "orders-reporting") w = Ok tt w'
     /\ orders w' = [Sample.orphan_order]
     /\ outbox w' = [("orders-reporting",
                      deactivate_text Sample.drone1234 Sample.order_of_1234)]
     /\ In ("orders-reporting", deactivate_text Sample.drone1234 Sample.order_of_1234)
           (outbox w'))
  /\ scan_orders Sample.cfg None w = Raised AttributeError w.
Proof.
  cbv zeta.
  destruct (expired_order_deleted_iff_member Sample.cfg
              (set_orders [Sample.orphan_order; Sample.order_of_1234]
                          (set_clock 10 Sample.guild))
              Sample.order_of_1234) as [Hc Hnone].
  - distinct.
  - right. now left.
  - reflexivity.
  - split; [|exact Hnone].
    destruct (Hc "orders-reporting") as (w' & Hrun & _ & Hout & Hsent & _).
    exists w'. split; [exact Hrun|].
    split; [injection Hrun as <-; reflexivity|].
    split; [exact Hout|].
    apply (Hsent Sample.drone1234); [right; now left|reflexivity].
Defined.

(** ** Two orders in flight *)

(** a call of [report_order] with nothing in between is its two parts, one
    after the other *)
Lemma report_order_in_two (cfg : Config) (context : Context)
    (protocol_name : string) (protocol_time : Z) (w : World) :
  report_order cfg context protocol_name protocol_time w
  = (going <- report_order_until_await cfg context protocol_name protocol_time ;;
     match going with
     | Some drone_id => report_order_after_await cfg drone_id protocol_name protocol_time
     | None => ret tt
     end) w.
Proof.
  unfold report_order, report_order_until_await, report_order_after_await.
  destruct (get_id cfg (display_name (ctx_author context))) as [d|]; [|reflexivity].
  unfold bind, get_order_by_drone_id, gets, send, modify, ret.
  destruct (find _ (orders w)) as [cur|]; [reflexivity|].
  destruct ((protocol_time >? 120) || (protocol_time <? 1)); reflexivity.
Qed.

(** C5, on the code.  Drone 1234 has no order and reports two, the second
    while the first call is suspended at its [await]: both calls have
    passed the test for an order of 1234 before either inserts, no
    "already undertaking" message is sent, and the table ends with two
    orders of 1234. *)
Theorem two_orders_in_flight :
  let context := Sample.order_context Sample.drone1234 in
  exists w1 w2 w3 w4,
    report_order_until_await Sample.cfg context "polishing" 30 Sample.guild
    = Ok (Some "1234") w1
    /\ report_order_until_await Sample.cfg context "cleaning" 40 w1 = Ok (Some "1234") w2
    /\ report_order_after_await Sample.cfg "1234" "polishing" 30 w2 = Ok tt w3
    /\ report_order_after_await Sample.cfg "1234" "cleaning" 40 w3 = Ok tt w4
    /\ map ActiveOrder.drone_id (orders w4) = ["1234"; "1234"]
    /\ map ActiveOrder.protocol (orders w4) = ["polishing"; "cleaning"]
    /\ map fst (outbox w4) = ["orders-reporting"; "orders-reporting"]
    /\ map snd (outbox w4) = [activate_text "1234"; activate_text "1234"].
Proof.
  cbv zeta. do 4 eexists.
  split; [vm_compute; reflexivity|].
  split; [vm_compute; reflexivity|].
  split; [vm_compute; reflexivity|].
  split; [vm_compute; reflexivity|].
  split; [reflexivity|]. split; [reflexivity|]. split; reflexivity.
Qed.

(** ** A release command on its way through the handlers *)

Lemma lowered_r (c : ascii) :
  lower_char c = "r"%char ->
  is_digit c = false /\ (nat_of_ascii c <? 128)%nat = true.
Proof.
  destruct c as [[] [] [] [] [] [] [] []]; vm_compute; intuition congruence.
Qed.

(** a text that starts with [release] once lowered is no call for help and
    no store command *)
Lemma release_text_is_no_store_text (decimal : string -> option Z) (s : string) :
  startswith (lower s) "release" = true ->
  String.eqb (lower s) "help" = false /\ match_format decimal s = None.
Proof.
  unfold startswith. destruct s as [|c r]; [discriminate|].
  cbn [lower String.prefix].
  destruct (ascii_dec "r" (lower_char c)) as [E|]; [|discriminate].
  intros _. split.
  - cbn [String.eqb]. now rewrite <- E.
  - symmetry in E. apply lowered_r in E. destruct E as [D L].
    unfold match_format. cbn [take_digits]. unfold digit_at. now rewrite D, L.
Qed.

(** C9, as the code has it.  Take a message that starts with [release]
    once lowered.  If its author holds the elevated role and it mentions a
    member whose derived identifier is the target of no stored row, the
    release handler reports it handled and the chain of handlers ends
    there: nothing is sent and nothing changes.  If its author does not
    hold the elevated role, the release handler sends nothing and changes
    nothing either, but returns [False]: the message goes on to the store
    handler, next in [on_message], which answers it with the literal
    format-rejection message and changes nothing else. *)
Theorem release_silent_or_passed_on (cfg : Config) (message : Message) (w : World) :
  startswith (lower (content message)) "release" = true ->
  (has_role (author message) (HIVE_MXTRESS cfg) = true ->
   forall member others,
     mentions message = member :: others ->
     (forall drone, In drone (storage w) ->
        Some (StoredDrone.target_id drone) <> get_id cfg (display_name member)) ->
     release cfg message w = Ok true w
     /\ on_message cfg message w = Ok true w)
  /\
  (has_role (author message) (HIVE_MXTRESS cfg) = false ->
   release cfg message w = Ok false w
   /\ on_message cfg message w
      = Ok true (set_outbox (outbox w ++ [(channel message, REJECT_MESSAGE)]) w)).
Proof.
  intro Hstart. split.
  - intros Hrole member others Hmen Hno.
    assert (release cfg message w = Ok true w) as Hrel.
    { unfold release. rewrite Hstart, Hrole. cbn [negb].
      unfold bind, gets, get_stored_drones, gets. rewrite Hmen.
      now apply release_first_no_match. }
    split; [exact Hrel|]. unfold on_message, bind. now rewrite Hrel.
  - intro Hrole.
    assert (release cfg message w = Ok false w) as Hrel.
    { unfold release. now rewrite Hstart, Hrole. }
    split; [exact Hrel|]. unfold on_message, bind. rewrite Hrel.
    destruct (release_text_is_no_store_text (decimal cfg) _ Hstart) as [Hhelp Hfmt].
    unfold store, bind, gets. now rewrite Hhelp, Hfmt.
Qed.

(** C9, the sentence of the specification on the sample guild.  A release
    command of a drone without the elevated role is answered: the store
    handler sends the format-rejection message. *)
Lemma unauthorized_release_is_answered :
  ~ (forall (message : Message) (w : World),
       startswith (lower (content message)) "release" = true ->
       has_role (author message) (HIVE_MXTRESS Sample.cfg) = false ->
       outbox (world_of (on_message Sample.cfg message w)) = outbox w).
Proof.
  intro H.
  specialize (H (Sample.facility_message "release <@100>" Sample.drone5678
                   [Sample.drone1234])
                Sample.vault eq_refl eq_refl).
  vm_compute in H. discriminate.
Qed.

Lemma release_silent_or_passed_on_witness :
  (release Sample.cfg
     (Sample.facility_message "release <@101>" Sample.the_mxtress [Sample.drone5678])
     (set_storage [Sample.stored_1234] Sample.vault)
   = Ok true (set_storage [Sample.stored_1234] Sample.vault)
   /\ on_message Sample.cfg
        (Sample.facility_message "release <@101>" Sample.the_mxtress [Sample.drone5678])
        (set_storage [Sample.stored_1234] Sample.vault)
      = Ok true (set_storage [Sample.stored_1234] Sample.vault))
  /\
  (release Sample.cfg
     (Sample.facility_message "release <@100>" Sample.drone5678 [Sample.drone1234])
     Sample.vault
   = Ok false Sample.vault
   /\ on_message Sample.cfg
        (Sample.facility_message "release <@100>" Sample.drone5678 [Sample.drone1234])
        Sample.vault
      = Ok true (set_outbox [("storage-facility", REJECT_MESSAGE)] Sample.vault)).
Proof.
  split.
  - apply (proj1 (release_silent_or_passed_on Sample.cfg
                    (Sample.facility_message "release <@101>" Sample.the_mxtress
                       [Sample.drone5678])
                    (set_storage [Sample.stored_1234] Sample.vault) eq_refl)
                 eq_refl Sample.drone5678 []).
    + reflexivity.
    + intros drone [<-|[]]; cbv; discriminate.
  - apply (proj2 (release_silent_or_passed_on Sample.cfg
                    (Sample.facility_message "release <@100>" Sample.drone5678
                       [Sample.drone1234])
                    Sample.vault eq_refl)).
    reflexivity.
Defined.

(** a store command written in Arabic-Indic digits is a store command: the
    pattern matches it and [int] reads its hours *)
Lemma store_reads_other_digits :
  let id := Sample.arabic 1 ++ Sample.arabic 2 ++ Sample.arabic 3 ++ Sample.arabic 4 in
  let message :=
    Sample.facility_message (id ++ " :: " ++ id ++ " :: " ++ Sample.arabic 2 ++ " :: x")
      Sample.drone1234 [] in
  match_format (decimal Sample.cfg) (content message)
  = Some (id, id, Sample.arabic 2, "x")
  /\ int (decimal Sample.cfg) (Sample.arabic 2) = 2
  /\ store Sample.cfg message Sample.guild
     = Ok true (set_outbox [("storage-facility", not_found_text id)] Sample.guild).
Proof. cbv zeta. split; [reflexivity|]. split; reflexivity. Qed.

(** ** A row released by the loop *)

Lemma carried_after_role_change (cfg : Config) (mid : Z) (f : list Role -> list Role)
    (target : string) (ms : list Member) :
  existsb (fun m => option_string_eqb (get_id cfg (display_name m)) (Some target))
          (map (change_roles mid f) ms)
  = existsb (fun m => option_string_eqb (get_id cfg (display_name m)) (Some target)) ms.
Proof.
  induction ms as [|m ms IH]; [reflexivity|]. cbn [map existsb]. rewrite IH. f_equal.
  unfold change_roles. now destruct (member_id m =? mid).
Qed.

(** X22. The release loop on a due row.  In a scan at which one row of the
    table is past its release time and carried by a member, no other row
    being both, with the stored role in the guild and every saved name of
    the row resolving to a role, the scan returns: the first member that
    carries the row's target has lost the stored role and been given the
    saved roles, in their order, the row is deleted, and nothing else has
    changed; in particular nothing is sent. *)
Theorem scan_storage_releases_due_row
    (cfg : Config) (w : World) (stored : Role) (row : StoredDrone.t)
    (before after : list StoredDrone.t) (pre post : list Member) (member : Member)
    (former_roles : list Role) :
  storage w = (before ++ row :: after)%list ->
  (forall s, In s (before ++ after) ->
     releasable cfg (clock w) (guild_members w) s = false) ->
  StoredDrone.release_time row < clock w ->
  guild_members w = (pre ++ member :: post)%list ->
  (forall m, In m pre ->
     get_id cfg (display_name m) <> Some (StoredDrone.target_id row)) ->
  get_id cfg (display_name member) = Some (StoredDrone.target_id row) ->
  get_roles_for_names w (split bar (StoredDrone.roles row)) = map Some former_roles ->
  scan_storage cfg (Some stored) w
  = Ok tt
      (set_storage
         (filter (fun s => negb (String.eqb (StoredDrone.id s) (StoredDrone.id row)))
                 (storage w))
         (set_members
            (map (change_roles (member_id member)
                    (fun rs => grant_all former_roles (drop_all [stored] rs)))
                 (guild_members w)) w)).
Proof.
  intros Hrows Hidle Hdue Hms Hpre Hmem Hnames.
  unfold scan_storage, bind, datetime_now, get_stored_drones, gets.
  rewrite Hrows, for_each_app.
  rewrite scan_storage_idle by (intros s Hs; apply Hidle, in_or_app; now left).
  cbn [for_each]. unfold bind at 1. unfold release_if_due at 1.
  apply Z.ltb_lt in Hdue. rewrite Hdue. unfold bind at 1. unfold gets at 1.
  rewrite Hms, release_search_skips by assumption.
  cbn [release_search]. apply option_string_eqb_eq in Hmem. rewrite Hmem.
  rewrite (restore_member_run stored row member former_roles w Hnames).
  rewrite <- Hms, <- Hrows.
  apply scan_storage_idle. intros s Hs.
  cbn [guild_members set_storage set_members].
  unfold releasable. rewrite carried_after_role_change.
  apply (Hidle s). apply in_or_app. now right.
Qed.

Lemma scan_storage_releases_due_row_witness :
  let w := set_storage [Sample.stored_5678] (set_clock 60000000 Sample.vault) in
  exists w',
    scan_storage Sample.cfg (Some Sample.stored) w = Ok tt w'
    /\ storage w' = []
    /\ outbox w' = []
    /\ map roles (guild_members w')
       = [[Sample.everyone; Sample.mxtress];
          [Sample.everyone; Sample.moderator; Sample.stored];
          [Sample.everyone; Sample.drone]].
Proof.
  cbv zeta. eexists. split.
  - apply (scan_storage_releases_due_row Sample.cfg
             (set_storage [Sample.stored_5678] (set_clock 60000000 Sample.vault))
             Sample.stored Sample.stored_5678 [] []
             [Sample.the_mxtress;
              with_roles Sample.drone1234
                [Sample.everyone; Sample.moderator; Sample.stored]]
             [] (with_roles Sample.drone5678 [Sample.everyone; Sample.stored])
             [Sample.drone]).
    + reflexivity.
    + intros s [].
    + reflexivity.
    + reflexivity.
    + intros m [<-|[<-|[]]]; cbv; discriminate.
    + reflexivity.
    + reflexivity.
  - split; [reflexivity|]. split; reflexivity.
Defined.
